(** * Markdown <-> HTML conversion engine of cherry-studio

    Shallow embedding of [src/renderer/src/utils/markdownConverter.ts]:
    the custom-tag guard, the task-list core rule, the block and inline
    math rules with their renderers, the table-cell and blank-node
    replacements of the serializer, and the two facade functions.

    Conventions.
    - A JavaScript string is a [string]; every [ascii] stands for one
      UTF-16 code unit, so the embedding covers code units below 256.
    - A JavaScript number used as a position is a [Z] ([-1] is the
      result of a failed [indexOf]); an array index is a [nat].
    - The third-party packages the file imports (markdown-it, turndown,
      htmlparser2, he, html-tags) are not part of the repository.  What the
      repository code receives from them is an argument of the embedded
      function (a token stream, a block state, a list of parser events, a
      DOM node) or a field of the record [Packages]. *)

From Stdlib Require Import ZArith Lia List Ascii String Bool.
From stdpp Require Import base list strings gmap.

#[local] Open Scope string_scope.
#[local] Open Scope Z_scope.
#[local] Set Warnings "-register-all".

(* ===================================================================== *)
(** * JavaScript string primitives used by the converter *)
(* ===================================================================== *)

Module Js.

(** Code unit of a character. *)
Definition code (c : ascii) : Z := Z.of_N (N_of_ascii c).

(** The class [\s] of a regular expression and the characters removed by
    [String.prototype.trim], restricted to code units below 256: TAB, LF,
    VT, FF, CR, SPACE and NO-BREAK SPACE. *)
Definition is_space (c : ascii) : bool :=
  let n := code c in
  ((9 <=? n) && (n <=? 13)) || (n =? 32) || (n =? 160).

(** Line terminators, which [.] does not match: LF and CR. *)
Definition is_line_terminator (c : ascii) : bool :=
  let n := code c in (n =? 10) || (n =? 13).

Definition len (s : string) : Z := Z.of_nat (String.length s).

Fixpoint drop (n : nat) (s : string) : string :=
  match n, s with
  | O, _ => s
  | S _, EmptyString => EmptyString
  | S n', String _ s' => drop n' s'
  end.

Fixpoint take (n : nat) (s : string) : string :=
  match n, s with
  | O, _ => EmptyString
  | S _, EmptyString => EmptyString
  | S n', String c s' => String c (take n' s')
  end.

(** Relative index of [slice]: negative counts from the end, then the
    value is clamped to [0, length]. *)
Definition clamp_index (s : string) (i : Z) : nat :=
  Z.to_nat (if i <? 0 then Z.max (len s + i) 0 else Z.min i (len s)).

(** [s.slice(a, b)]. *)
Definition slice (s : string) (a b : Z) : string :=
  let from := clamp_index s a in
  let to := clamp_index s b in
  take (to - from) (drop from s).

(** [s.slice(a)]. *)
Definition slice_from (s : string) (a : Z) : string :=
  drop (clamp_index s a) s.

(** [s.charCodeAt(i)]; [None] is NaN (position out of range). *)
Definition charCodeAt (s : string) (i : Z) : option Z :=
  if (i <? 0) || (len s <=? i) then None
  else match String.get (Z.to_nat i) s with
       | Some c => Some (code c)
       | None => None
       end.

(** [s.startsWith(p)]. *)
Fixpoint startsWith (p s : string) : bool :=
  match p with
  | EmptyString => true
  | String a p' =>
      match s with
      | EmptyString => false
      | String b s' => Ascii.eqb a b && startsWith p' s'
      end
  end.

(** First position of [p] in [s], as an offset. *)
Fixpoint find (p s : string) : option nat :=
  if startsWith p s then Some O
  else match s with
       | EmptyString => None
       | String _ s' => option_map S (find p s')
       end.

(** [s.indexOf(p, from)]. *)
Definition indexOf_from (s p : string) (from : Z) : Z :=
  let k := Z.to_nat (Z.max 0 (Z.min from (len s))) in
  match find p (drop k s) with
  | Some j => Z.of_nat (k + j)
  | None => -1
  end.

(** [s.indexOf(p)]. *)
Definition indexOf (s p : string) : Z := indexOf_from s p 0.

Fixpoint trimStart (s : string) : string :=
  match s with
  | EmptyString => EmptyString
  | String c s' => if is_space c then trimStart s' else s
  end.

Fixpoint trimEnd (s : string) : string :=
  match s with
  | EmptyString => EmptyString
  | String c s' =>
      match trimEnd s' with
      | EmptyString => if is_space c then EmptyString else String c EmptyString
      | t => String c t
      end
  end.

(** [s.trim()]. *)
Definition trim (s : string) : string := trimEnd (trimStart s).

(** [s.replace(/c/g, r)] for a single literal character [c]. *)
Fixpoint replace_char (c : ascii) (r : string) (s : string) : string :=
  match s with
  | EmptyString => EmptyString
  | String d s' =>
      if Ascii.eqb c d then r +:+ replace_char c r s'
      else String d (replace_char c r s')
  end.

(** [s.toLowerCase()] on code units below 256: A-Z and the Latin-1
    capitals (all of 0xC0-0xDE but the multiplication sign 0xD7). *)
Definition lower_char (c : ascii) : ascii :=
  let n := code c in
  if ((65 <=? n) && (n <=? 90)) || ((192 <=? n) && (n <=? 222) && negb (n =? 215))
  then ascii_of_N (Z.to_N (n + 32)) else c.

Fixpoint toLowerCase (s : string) : string :=
  match s with
  | EmptyString => EmptyString
  | String c s' => String (lower_char c) (toLowerCase s')
  end.

(** [arr.includes(x)] on an array of strings. *)
Definition includes (l : list string) (x : string) : bool :=
  existsb (String.eqb x) l.

(** [s.includes(p)]. *)
Definition contains (s p : string) : bool :=
  match find p s with Some _ => true | None => false end.

(** [c.repeat(n)] for a one-character string. *)
Fixpoint repeat_char (c : ascii) (n : nat) : string :=
  match n with
  | O => EmptyString
  | S n' => String c (repeat_char c n')
  end.

(** The one-character string made of a double quote. *)
Definition dq : string := String "034"%char EmptyString.

(** A string made of white space only (the empty string included). *)
Fixpoint blank (s : string) : bool :=
  match s with
  | EmptyString => true
  | String c s' => is_space c && blank s'
  end.

End Js.

(* ===================================================================== *)
(** * Tokens of the markdown engine *)
(* ===================================================================== *)

(** The fields of a markdown-it [Token] that the converter reads or
    writes.  [attrs] is the ordered list of [name, value] pairs ([null] is
    the empty list) and [children] the child tokens of an inline
    container. *)
Inductive Token : Type := mkToken {
  type : string;
  tag : string;
  nesting : Z;
  attrs : list (string * string);
  map : option (Z * Z);
  content : string;
  block : bool;
  children : list Token
}.

(** [new state.Token(type, tag, nesting)]. *)
Definition newToken (ty tg : string) (n : Z) : Token :=
  mkToken ty tg n [] None EmptyString false [].

Definition set_attrs (t : Token) (a : list (string * string)) : Token :=
  mkToken (type t) (tag t) (nesting t) a (map t) (content t) (block t) (children t).

Definition set_content (t : Token) (c : string) : Token :=
  mkToken (type t) (tag t) (nesting t) (attrs t) (map t) c (block t) (children t).

Definition set_children (t : Token) (l : list Token) : Token :=
  mkToken (type t) (tag t) (nesting t) (attrs t) (map t) (content t) (block t) l.

Definition set_block (t : Token) (b : bool) : Token :=
  mkToken (type t) (tag t) (nesting t) (attrs t) (map t) (content t) b (children t).

Definition set_map (t : Token) (m : Z * Z) : Token :=
  mkToken (type t) (tag t) (nesting t) (attrs t) (Some m) (content t) (block t) (children t).

(** [token.attrSet(name, value)]: overwrite the pair of that name where it
    stands, or push a new pair at the end. *)
Fixpoint attr_set (a : list (string * string)) (name value : string)
  : list (string * string) :=
  match a with
  | [] => [(name, value)]
  | (n, v) :: a' =>
      if String.eqb n name then (name, value) :: a'
      else (n, v) :: attr_set a' name value
  end.

Definition attrSet (t : Token) (name value : string) : Token :=
  set_attrs t (attr_set (attrs t) name value).

(** [token.attrGet(name)]. *)
Fixpoint attr_get (a : list (string * string)) (name : string) : option string :=
  match a with
  | [] => None
  | (n, v) :: a' => if String.eqb n name then Some v else attr_get a' name
  end.

Definition attrGet (t : Token) (name : string) : option string :=
  attr_get (attrs t) name.

(* ===================================================================== *)
(** * The task-list core rule ([taskListPlugin]) *)
(* ===================================================================== *)

Module TaskList.

(** [interface TaskListOptions { label?: boolean }]. *)
Record TaskListOptions := { label : option bool }.

(** [const { label = false } = options]. *)
Definition label_of (o : TaskListOptions) : bool :=
  match label o with Some b => b | None => false end.

(** The plugin's default [options = {}]. *)
Definition default_options : TaskListOptions := {| label := None |}.

(** The options of [md.use(taskListPlugin, { label: true })]. *)
Definition md_options : TaskListOptions := {| label := Some true |}.

(** The character class [[ x]] (written [[x ]] in the second expression). *)
Definition is_check (c : ascii) : bool :=
  Ascii.eqb c " "%char || Ascii.eqb c "x"%char.

(** [/^\s*\[[ x]\]\s/.test(s)]. *)
Definition task_test (s : string) : bool :=
  match Js.trimStart s with
  | String "["%char (String c (String "]"%char (String d _))) =>
      is_check c && Js.is_space d
  | _ => false
  end.

(** The longest prefix without a line terminator: what the last group,
    a greedy run of [.], captures. *)
Fixpoint dot_star (s : string) : string :=
  match s with
  | EmptyString => EmptyString
  | String c s' =>
      if Js.is_line_terminator c then EmptyString else String c (dot_star s')
  end.

(** [token.content.match(re)] for the second expression of the rule:
    start of input, a group of optional white space, an opening bracket,
    the group [[x ]], a closing bracket, one or more white space, and a
    last group of any characters but line terminators.  The result is the
    pair of the groups [check] and [content] on a match.  Both runs of
    white space are greedy and the character after each of them cannot be
    white space, so each takes the whole run. *)
Definition task_match (s : string) : option (ascii * string) :=
  match Js.trimStart s with
  | String "["%char (String c (String "]"%char (String d r))) =>
      if is_check c && Js.is_space d
      then Some (c, dot_star (Js.trimStart r))
      else None
  | _ => None
  end.

(** The inner loop that looks for a task item between a [bullet_list_open]
    and the next [bullet_list_close]; [l] is the part of the array after
    the opening token. *)
Fixpoint has_task_items (l : list Token) : bool :=
  match l with
  | [] => false
  | t :: l' =>
      if String.eqb (type t) "bullet_list_close" then false
      else if String.eqb (type t) "inline" && task_test (content t) then true
      else has_task_items l'
  end.

(** The backward loop [for (j = i - 1; j >= 0; j--)] that sets
    [data-checked] on the nearest [list_item_open] before index [i]. *)
Fixpoint mark_parent (i : nat) (v : string) (tokens : list Token) : list Token :=
  match i with
  | O => tokens
  | S j =>
      match tokens !! j with
      | Some t =>
          if String.eqb (type t) "list_item_open"
          then <[j := attrSet t "data-checked" v]> tokens
          else mark_parent j v tokens
      | None => mark_parent j v tokens
      end
  end.

(** [isChecked.toString()]. *)
Definition bool_toString (b : bool) : string := if b then "true" else "false".

(** The checkbox markup [<input type="checkbox"${isChecked ? ' checked' : ''} disabled>]. *)
Definition checkbox (isChecked : bool) : string :=
  "<input type=" +:+ Js.dq +:+ "checkbox" +:+ Js.dq
  +:+ (if isChecked then " checked" else EmptyString) +:+ " disabled>".

(** [check.toLowerCase() === 'x']. *)
Definition isChecked (check : ascii) : bool :=
  String.eqb (Js.toLowerCase (String check EmptyString)) "x".

(** The loop state: the token array, mutated in place, and the flag
    [inside_task_list]. *)
Definition LoopState : Type := (list Token * bool)%type.

(** The tokens [token.children] receives for a matching inline token. *)
Definition task_children (lbl isChecked : bool) (rest : string) : list Token :=
  if lbl
  then [set_content (newToken "html_inline" EmptyString 0)
          ("<label>" +:+ checkbox isChecked +:+ " " +:+ rest +:+ "</label>")]
  else [set_content (newToken "html_inline" EmptyString 0) (checkbox isChecked);
        set_content (newToken "text" EmptyString 0) (" " +:+ rest)].

(** One iteration of [for (let i = 0; i < tokens.length; i++)]. *)
Definition step (lbl : bool) (i : nat) (st : LoopState) : LoopState :=
  let '(tokens, inside) := st in
  match tokens !! i with
  | None => st
  | Some token =>
      if String.eqb (type token) "bullet_list_open" then
        if has_task_items (drop (S i) tokens)
        then (<[i := attrSet (attrSet token "data-type" "taskList") "class" "task-list"]> tokens,
              true)
        else st
      else if String.eqb (type token) "bullet_list_close" && inside then
        (tokens, false)
      else if String.eqb (type token) "list_item_open" && inside then
        (<[i := attrSet (attrSet token "data-type" "taskItem") "class" "task-list-item"]> tokens,
         inside)
      else if String.eqb (type token) "inline" && inside then
        match task_match (content token) with
        | Some (check, rest) =>
            let tokens1 := mark_parent i (bool_toString (isChecked check)) tokens in
            (<[i := set_children (set_content token rest)
                      (task_children lbl (isChecked check) rest)]> tokens1,
             inside)
        | None => st
        end
      else st
  end.

(** The iterations [from], [from + 1], ... ([n] of them). *)
Definition run_from (lbl : bool) (from n : nat) (st : LoopState) : LoopState :=
  fold_left (fun st i => step lbl i st) (seq from n) st.

(** The core rule [task_list] registered by [taskListPlugin(md, options)],
    applied to [state.tokens]. *)
Definition task_list (o : TaskListOptions) (tokens : list Token) : list Token :=
  fst (run_from (label_of o) 0 (length tokens) (tokens, false)).

(** The rule as the converter's engine runs it. *)
Definition md_task_list : list Token -> list Token := task_list md_options.

End TaskList.

(** Token streams of bullet lists as the block parser emits them: every
    item is a paragraph holding one inline token. *)
Module Stream.

Definition block_token (ty tg : string) (n : Z) : Token :=
  set_block (newToken ty tg n) true.

(** The inline token of a paragraph, after the core rule [inline] has
    given it its children (plain text here). *)
Definition inline_token (c : string) : Token :=
  set_children (set_content (block_token "inline" EmptyString 0) c)
    [set_content (newToken "text" EmptyString 0) c].

Definition item (c : string) : list Token :=
  [ block_token "list_item_open" "li" 1;
    block_token "paragraph_open" "p" 1;
    inline_token c;
    block_token "paragraph_close" "p" (-1);
    block_token "list_item_close" "li" (-1) ].

Definition bullet_list (cs : list string) : list Token :=
  block_token "bullet_list_open" "ul" 1
    :: (concat (List.map item cs) ++ [block_token "bullet_list_close" "ul" (-1)])%list.

End Stream.

(* ===================================================================== *)
(** * Results of calls that may throw, and the third-party packages *)
(* ===================================================================== *)

(** The outcome of a JavaScript call: a value, or a thrown error. *)
Inductive result (A : Type) : Type :=
| Ok (a : A)
| Throw (e : string).
Arguments Ok {A} a.
Arguments Throw {A} e.

Definition bind {A B : Type} (r : result A) (f : A -> result B) : result B :=
  match r with
  | Ok a => f a
  | Throw e => Throw e
  end.

#[global] Instance result_bind : MBind result := fun A B f r => bind r f.

(** [try { body } catch (error) { logger.error(...); return '' }]: the
    logger call is taken to return. *)
Definition try_catch (body : result string) : result string :=
  match body with
  | Ok s => Ok s
  | Throw _ => Ok EmptyString
  end.

(** The callbacks the guard registers on [htmlparser2.Parser], each with
    the values of [parser.startIndex] and [parser.endIndex] when it fires.
    [onend] fires once, after the last of them. *)
Inductive ParserEvent : Type :=
| OpenTagName (tagname : string) (startIndex endIndex : Z)
| CloseTag (tagname : string) (startIndex endIndex : Z).

(** What the converter imports from npm.
    - [htmlTags]: the array exported by [html-tags];
    - [he_encode named s]: [he.encode(s, { useNamedReferences: named })];
    - [he_decode s]: [he.decode(s)] with or without the options
      [{ isAttributeValue: false, strict: false }], which are the defaults;
    - [parser_events html]: the callbacks fired by [parser.write(html)]
      and [parser.end()], in order;
    - [md_render s]: [md.render(s)] on the configured engine;
    - [turndown s]: [turndownService.turndown(s)] with the rules installed. *)
Record Packages : Type := {
  htmlTags : list string;
  he_encode : bool -> string -> string;
  he_decode : string -> string;
  parser_events : string -> result (list ParserEvent);
  md_render : string -> result string;
  turndown : string -> result string
}.

(* ===================================================================== *)
(** * The math rules and renderers ([tipTapKatexPlugin]) *)
(* ===================================================================== *)

Module Katex.

(** [interface BlockStateLike], with the tokens pushed so far. *)
Record BlockState : Type := {
  src : string;
  bMarks : list Z;
  eMarks : list Z;
  tShift : list Z;
  line : Z;
  parentType : string;
  blkIndent : Z;
  tokens : list Token
}.

Definition set_line (s : BlockState) (l : Z) : BlockState :=
  {| src := src s; bMarks := bMarks s; eMarks := eMarks s; tShift := tShift s;
     line := l; parentType := parentType s; blkIndent := blkIndent s;
     tokens := tokens s |}.

(** [state.push(type, tag, nesting)] followed by the assignments to the
    returned token: the finished token is the last of [state.tokens]. *)
Definition push (s : BlockState) (t : Token) : BlockState :=
  {| src := src s; bMarks := bMarks s; eMarks := eMarks s; tShift := tShift s;
     line := line s; parentType := parentType s; blkIndent := blkIndent s;
     tokens := (tokens s ++ [t])%list |}.

(** [marks[i]]; [None] is [undefined] (no such line). *)
Definition mark (marks : list Z) (i : Z) : option Z :=
  if i <? 0 then None else marks !! Z.to_nat i.

Definition is_dollar (o : option Z) : bool :=
  match o with Some n => n =? 36 | None => false end.

(** [allLines.join('\n')]. *)
Definition join_lines (l : list string) : string :=
  String.concat (String "010"%char EmptyString) l.

(** The slices pushed for [lineIdx = from, from + 1, ...] ([n] of them):
    the middle lines of a multi-line block. *)
Fixpoint middle_lines (s : BlockState) (from : Z) (n : nat) : option (list string) :=
  match n with
  | O => Some []
  | S n' =>
      b ← mark (bMarks s) from;
      t ← mark (tShift s) from;
      e ← mark (eMarks s) from;
      rest ← middle_lines s (from + 1) n';
      Some (Js.slice (src s) (b + t) e :: rest)
  end.

Definition push_if_not_blank (l : list string) (x : string) : list string :=
  if String.eqb (Js.trim x) EmptyString then l else (l ++ [x])%list.

(** The loop [for (nextLine = startLine + 1; nextLine < endLine; nextLine++)]
    with [n] iterations left.  [Some (Some (nextLine, content))] is a
    [break] at [nextLine]; [Some None] is the loop running to [endLine]. *)
Fixpoint scan (s : BlockState) (startLine nextLine : Z) (n : nat)
  : option (option (Z * string)) :=
  match n with
  | O => Some None
  | S n' =>
      b ← mark (bMarks s) nextLine;
      t ← mark (tShift s) nextLine;
      lineEnd ← mark (eMarks s) nextLine;
      let lineStart := b + t in
      let line := Js.slice (src s) lineStart lineEnd in
      let closingPos := Js.indexOf line "$$" in
      if negb (closingPos =? -1) then
        b0 ← mark (bMarks s) startLine;
        t0 ← mark (tShift s) startLine;
        firstLineEnd ← mark (eMarks s) startLine;
        let firstLineStart := b0 + t0 + 2 in
        let firstLineContent := Js.slice (src s) firstLineStart firstLineEnd in
        mids ← middle_lines s (startLine + 1) (Z.to_nat (nextLine - (startLine + 1)));
        let lastLineContent := Js.slice line 0 closingPos in
        let allLines :=
          push_if_not_blank (push_if_not_blank [] firstLineContent ++ mids)%list
                            lastLineContent in
        Some (Some (nextLine, Js.trim (join_lines allLines)))
      else if (lineStart + 2 <=? lineEnd)
              && is_dollar (Js.charCodeAt (src s) lineStart)
              && is_dollar (Js.charCodeAt (src s) (lineStart + 1)) then
        b0 ← mark (bMarks s) startLine;
        t0 ← mark (tShift s) startLine;
        Some (Some (nextLine, Js.trim (Js.slice (src s) (b0 + t0 + 2) b)))
      else scan s startLine (nextLine + 1) n'
  end.

(** The block rule registered as [math_block] before [fence].  The result
    is the returned boolean and the state after the call; [None] stands
    for a line number without marks, which the engine never passes. *)
Definition math_block (s : BlockState) (startLine endLine : Z) (silent : bool)
  : option (bool * BlockState) :=
  b ← mark (bMarks s) startLine;
  t ← mark (tShift s) startLine;
  maxPos ← mark (eMarks s) startLine;
  let startPos := b + t in
  if startPos + 2 >? maxPos then Some (false, s)
  else if negb (is_dollar (Js.charCodeAt (src s) startPos))
          || negb (is_dollar (Js.charCodeAt (src s) (startPos + 1)))
  then Some (false, s)
  else if silent then Some (true, s)
  else
    let sameLineClose := Js.indexOf_from (src s) "$$" (startPos + 2) in
    found ←
      (if negb (sameLineClose =? -1) && (sameLineClose <=? maxPos - 2)
       then Some (Some (startLine, Js.trim (Js.slice (src s) (startPos + 2) sameLineClose)))
       else scan s startLine (startLine + 1) (Z.to_nat (endLine - (startLine + 1))));
    match found with
    | None => Some (false, s)
    | Some (nextLine, content) =>
        let token :=
          set_content
            (set_map (set_block (newToken "math_block" "div" 0) true)
                     (startLine, nextLine))
            content in
        Some (true, set_line (push s token) (nextLine + 1))
    end.

(** [tokens[idx]?.content ?? '']. *)
Definition content_at (tokens : list Token) (idx : nat) : string :=
  match tokens !! idx with
  | Some t => content t
  | None => EmptyString
  end.

(** [md.renderer.rules.math_block]. *)
Definition render_math_block (P : Packages) (tokens : list Token) (idx : nat) : string :=
  let latexEscaped := he_encode P true (content_at tokens idx) in
  "<div data-latex=" +:+ Js.dq +:+ latexEscaped +:+ Js.dq
  +:+ " data-type=" +:+ Js.dq +:+ "block-math" +:+ Js.dq +:+ "></div>".

(** [interface InlineStateLike], with the tokens pushed so far. *)
Record InlineState : Type := {
  isrc : string;
  pos : Z;
  posMax : Z;
  itokens : list Token
}.

(** The inline rule registered as [math_inline] before [emphasis]. *)
Definition math_inline (s : InlineState) (silent : bool) : bool * InlineState :=
  let start := pos s in
  if (start >=? posMax s) || negb (is_dollar (Js.charCodeAt (isrc s) start))
  then (false, s)
  else
    let close := Js.indexOf_from (isrc s) "$" (start + 1) in
    if (close =? -1) || (close >? posMax s) then (false, s)
    else
      let content := Js.slice (isrc s) (start + 1) close in
      if negb (Js.indexOf content (String "010"%char EmptyString) =? -1)
      then (false, s)
      else
        let toks :=
          if silent then itokens s
          else (itokens s
                ++ [set_content (newToken "math_inline" "span" 0) (Js.trim content)])%list in
        (true, {| isrc := isrc s; pos := close + 1; posMax := posMax s; itokens := toks |}).

(** [md.renderer.rules.math_inline]. *)
Definition render_math_inline (P : Packages) (tokens : list Token) (idx : nat) : string :=
  let latexEscaped := he_encode P true (content_at tokens idx) in
  "<span data-latex=" +:+ Js.dq +:+ latexEscaped +:+ Js.dq
  +:+ " data-type=" +:+ Js.dq +:+ "inline-math" +:+ Js.dq +:+ "></span>".

End Katex.

(* ===================================================================== *)
(** * The serializer's own rules (turndown side) *)
(* ===================================================================== *)

(** A DOM node as the serializer's rules see it: an element with its
    upper-case [nodeName], its attributes and its [childNodes], or a text
    node. *)
Inductive Node : Type :=
| Element (nodeName : string) (attributes : list (string * string))
          (childNodes : list Node)
| TextNode (data : string).

Module Dom.

(** [el.getAttribute(name)]; [None] is [null]. *)
Definition getAttribute (n : Node) (name : string) : option string :=
  match n with
  | Element _ a _ => attr_get a name
  | TextNode _ => None
  end.

(** [x || d] on a string or [null]. *)
Definition or_default (o : option string) (d : string) : string :=
  match o with
  | Some EmptyString => d
  | Some s => s
  | None => d
  end.

Definition has_data_type (v : string) (n : Node) : bool :=
  match getAttribute n "data-type" with
  | Some w => String.eqb w v
  | None => false
  end.

(** The descendants of a node in document order (the node itself
    excluded), which is the order [querySelector] follows. *)
Fixpoint descendants (n : Node) : list Node :=
  match n with
  | Element _ _ cs =>
      (fix go (l : list Node) : list Node :=
         match l with
         | [] => []
         | c :: l' => (c :: descendants c) ++ go l'
         end%list) cs
  | TextNode _ => []
  end.

(** [el.querySelectorAll('[data-type="v"]')]. *)
Definition querySelectorAll (n : Node) (v : string) : list Node :=
  List.filter (has_data_type v) (descendants n).

(** [el.querySelector('[data-type="v"]')]. *)
Definition querySelector (n : Node) (v : string) : option Node :=
  head (querySelectorAll n v).

(** [el.children]: the child elements. *)
Definition element_children (n : Node) : list Node :=
  match n with
  | Element _ _ cs =>
      List.filter (fun c => match c with Element _ _ _ => true | TextNode _ => false end) cs
  | TextNode _ => []
  end.

Definition name_of (n : Node) : string :=
  match n with
  | Element nm _ _ => nm
  | TextNode _ => "#text"
  end.

End Dom.

Module Serializer.

(** [`$${decodedLatex}$$`] around the decoded [data-latex] attribute. *)
Definition decoded_latex (P : Packages) (n : Node) : string :=
  he_decode P (Dom.or_default (Dom.getAttribute n "data-latex") EmptyString).

(** The [blankReplacement] option given to [TurndownService]; [isBlock]
    is the property of that name on the node. *)
Definition blankReplacement (P : Packages) (_content : string) (el : Node) (isBlock : bool)
  : string :=
  let nl := String "010"%char EmptyString in
  let fallback := if isBlock then nl +:+ nl else EmptyString in
  if String.eqb (Dom.name_of el) "DIV" && Dom.has_data_type "block-math" el then
    "$$" +:+ decoded_latex P el +:+ "$$" +:+ nl +:+ nl
  else if String.eqb (Dom.name_of el) "SPAN" && Dom.has_data_type "inline-math" el then
    "$" +:+ decoded_latex P el +:+ "$"
  else if String.eqb (Dom.name_of el) "P"
          && bool_decide (is_Some (Dom.querySelector el "inline-math")) then
    match Dom.querySelectorAll el "inline-math" with
    | [span] =>
        if (List.length (Dom.element_children el) =? 1)%nat
        then "$" +:+ decoded_latex P span +:+ "$"
        else fallback
    | _ => fallback
    end
  else fallback.

(** [s.replace(re, r)] for a global expression matching one or more
    characters of a class: every maximal run becomes [r]. *)
Fixpoint replace_runs (p : ascii -> bool) (r : string) (s : string) : string :=
  match s with
  | EmptyString => EmptyString
  | String c s' =>
      if p c then
        match s' with
        | String d _ => if p d then replace_runs p r s' else r +:+ replace_runs p r s'
        | EmptyString => r
        end
      else String c (replace_runs p r s')
  end.

(** [cleanCellContent(content, cellElement)]. *)
Definition cleanCellContent (P : Packages) (content : string) (cellElement : option Node)
  : string :=
  let math :=
    match cellElement with
    | Some cell =>
        match Dom.querySelector cell "block-math" with
        | Some blockMath => Some ("$$" +:+ decoded_latex P blockMath +:+ "$$")
        | None =>
            match Dom.querySelector cell "inline-math" with
            | Some inlineMath => Some ("$" +:+ decoded_latex P inlineMath +:+ "$")
            | None => None
            end
        end
    | None => None
    end in
  match math with
  | Some m => m
  | None =>
      if String.eqb content EmptyString then "   "
      else
        let cleaned :=
          replace_runs (Ascii.eqb "013"%char) " "
            (replace_runs (Ascii.eqb "010"%char) " "
               (Js.replace_char "|"%char "\|"
                  (replace_runs Js.is_space " " (Js.trim content)))) in
        if String.eqb cleaned EmptyString || Js.blank cleaned then "   "
        else if (Js.len cleaned <? 3)
        then cleaned +:+ Js.repeat_char " " (Z.to_nat (3 - Js.len cleaned))
        else cleaned
  end.

Definition is_digit (c : ascii) : bool :=
  let n := Js.code c in (48 <=? n) && (n <=? 57).

(** Value of the longest prefix of decimal digits, with the number of
    digits read. *)
Fixpoint digits (acc : Z) (count : nat) (s : string) : Z * nat :=
  match s with
  | String c s' =>
      if is_digit c then digits (10 * acc + (Js.code c - 48)) (S count) s'
      else (acc, count)
  | EmptyString => (acc, count)
  end.

(** [parseInt(s, 10)]: leading white space, an optional sign, then the
    longest run of digits; [None] is NaN (no digit).  The value is exact,
    as it is in JavaScript up to 2^53. *)
Definition parseInt (s : string) : option Z :=
  let t := Js.trimStart s in
  let '(sign, body) :=
    match t with
    | String "-"%char r => (-1, r)
    | String "+"%char r => (1, r)
    | _ => (1, t)
    end in
  match digits 0 O body with
  | (_, O) => None
  | (v, S _) => Some (sign * v)
  end.

(** The loop [for (let i = 1; i < colspan; i++) result += '   |']. *)
Fixpoint add_empty_cells (n : nat) (result : string) : string :=
  match n with
  | O => result
  | S n' => add_empty_cells n' (result +:+ "   |")
  end.

(** [cellWithLatex(content, node, index)].  [index] is [None] for [null];
    [position] is the place of [node] among the [childNodes] of its
    parent, or [None] when it has no parent. *)
Definition cellWithLatex (P : Packages) (content : string) (node : Node)
    (position : option Z) (index : option Z) : string :=
  let index1 :=
    match index, position with
    | None, Some k => Some k
    | _, _ => index
    end in
  let index2 := match index1 with None => 0 | Some k => k end in
  let prefix := if index2 =? 0 then "| " else " " in
  let cellContent := cleanCellContent P content (Some node) in
  let colspan :=
    match parseInt (Dom.or_default (Dom.getAttribute node "colspan") "1") with
    | Some n => if n <? 1 then 1 else n
    | None => 1
    end in
  add_empty_cells (Z.to_nat (colspan - 1)) (prefix +:+ cellContent +:+ " |").

(** The replacement of the rule [tableCell]. *)
Definition tableCell (P : Packages) (content : string) (node : Node) (position : option Z)
  : string :=
  cellWithLatex P content node position None.

End Serializer.

(* ===================================================================== *)
(** * The custom-tag guard ([escapeCustomTags]) *)
(* ===================================================================== *)

Module Guard.

(** The variables the callbacks share: [result], [currentPos] and the
    set [processedPositions]. *)
Record State : Type := {
  result_ : string;
  currentPos : Z;
  processedPositions : gset Z
}.

(** [text.replace(/</g, '&lt;').replace(/>/g, '&gt;')]. *)
Definition escape_angles (text : string) : string :=
  Js.replace_char ">"%char "&gt;" (Js.replace_char "<"%char "&lt;" text).

(** Longest prefix of characters satisfying [p], and what follows it. *)
Fixpoint span (p : ascii -> bool) (s : string) : string * string :=
  match s with
  | String c s' =>
      if p c then let '(a, b) := span p s' in (String c a, b)
      else (EmptyString, s)
  | EmptyString => (EmptyString, EmptyString)
  end.

(** The first group of [text.match(re)] for the expression of the guard:
    a less-than sign and a slash, a group of one or more characters other
    than a greater-than sign, and a greater-than sign, anywhere in
    [text]. *)
Fixpoint close_tag_name (text : string) : option string :=
  match text with
  | EmptyString => None
  | String c rest =>
      let here :=
        match text with
        | String "<"%char (String "/"%char r) =>
            match span (fun d => negb (Ascii.eqb d ">"%char)) r with
            | (String a nm, String _ _) => Some (String a nm)
            | _ => None
            end
        | _ => None
        end in
      match here with
      | Some nm => Some nm
      | None => close_tag_name rest
      end
  end.

(** The callback [onopentagname]. *)
Definition onopentagname (tags : list string) (html : string)
    (tagname : string) (startPos endPos : Z) (st : State) : State :=
  let result1 := result_ st +:+ Js.slice html (currentPos st) startPos in
  let result2 :=
    if negb (Js.includes tags tagname)
    then result1 +:+ escape_angles (Js.slice html startPos (endPos + 1))
    else result1 +:+ Js.slice html startPos (endPos + 1) in
  {| result_ := result2; currentPos := endPos + 1;
     processedPositions := processedPositions st |}.

(** The callback [onclosetag]. *)
Definition onclosetag (tags : list string) (html : string)
    (tagname : string) (startPos endPos : Z) (st : State) : State :=
  if bool_decide (endPos ∈ processedPositions st) || (endPos + 1 <=? currentPos st)
  then st
  else
    let processed := {[ endPos ]} ∪ processedPositions st in
    let actualTagHtml := Js.slice html startPos (endPos + 1) in
    let actualTagName :=
      match close_tag_name actualTagHtml with
      | Some nm => nm
      | None => tagname
      end in
    if negb (Js.includes tags actualTagName)
    then {| result_ := result_ st +:+ Js.slice html (currentPos st) startPos
                       +:+ escape_angles actualTagHtml;
            currentPos := endPos + 1; processedPositions := processed |}
    else {| result_ := result_ st +:+ Js.slice html (currentPos st) (endPos + 1);
            currentPos := endPos + 1; processedPositions := processed |}.

Definition on_event (tags : list string) (html : string) (st : State) (e : ParserEvent)
  : State :=
  match e with
  | OpenTagName nm s e' => onopentagname tags html nm s e' st
  | CloseTag nm s e' => onclosetag tags html nm s e' st
  end.

(** The callback [onend]. *)
Definition onend (html : string) (st : State) : string :=
  result_ st +:+ Js.slice_from html (currentPos st).

(** The guard on the events the parser fires for [html]. *)
Definition run (tags : list string) (events : list ParserEvent) (html : string) : string :=
  onend html
    (fold_left (on_event tags html) events
       {| result_ := EmptyString; currentPos := 0; processedPositions := ∅ |}).

(** [escapeCustomTags(html)]. *)
Definition escapeCustomTags (P : Packages) (html : string) : result string :=
  events ← parser_events P html;
  Ok (run (htmlTags P) events html).

End Guard.

(* ===================================================================== *)
(** * The facade: [htmlToMarkdown] and [markdownToHtml] *)
(* ===================================================================== *)

(** The values a caller can pass where the signature says
    [string | null | undefined]; [JsOther] is any value that is not a
    string. *)
Inductive JsValue : Type :=
| JsNull
| JsUndefined
| JsString (s : string)
| JsOther.

Module Facade.

(** [htmlToMarkdown(html)]. *)
Definition htmlToMarkdown (P : Packages) (html : JsValue) : result string :=
  match html with
  | JsString EmptyString => Ok EmptyString
  | JsString h =>
      try_catch
        (encodedHtml ← Guard.escapeCustomTags P h;
         turndownResult ← turndown P encodedHtml;
         Ok (he_decode P (Js.trim turndownResult)))
  | _ => Ok EmptyString
  end.

(** The tail of the image expression after the target: an optional
    title (white space, then a quoted run without quotes) and the closing
    parenthesis.  The result is the title group and the text left. *)
Definition image_tail (r : string) : option (option string * string) :=
  let with_title :=
    match Guard.span Js.is_space r with
    | (String _ _, String q r2) =>
        if Ascii.eqb q "034"%char then
          match Guard.span (fun d => negb (Ascii.eqb d "034"%char)) r2 with
          | (title, String _ (String ")"%char r4)) => Some (Some title, r4)
          | _ => None
          end
        else None
    | _ => None
    end in
  match with_title with
  | Some x => Some x
  | None =>
      match r with
      | String ")"%char r' => Some (None, r')
      | _ => None
      end
  end.

(** The target group, a lazy run of one or more characters other than a
    closing parenthesis: the shortest run after which the tail matches. *)
Fixpoint image_src (s : string) : option (string * option string * string) :=
  match s with
  | EmptyString => None
  | String c s' =>
      if Ascii.eqb c ")"%char then None
      else
        match image_tail s' with
        | Some (title, rest) => Some (String c EmptyString, title, rest)
        | None =>
            match image_src s' with
            | Some (src, title, rest) => Some (String c src, title, rest)
            | None => None
            end
        end
  end.

(** A match of the image expression at the start of [s]: the groups
    [alt], [src], [title] and the text left after the match. *)
Definition image_match (s : string) : option (string * string * option string * string) :=
  match s with
  | String "!"%char (String "["%char r) =>
      match Guard.span (fun d => negb (Ascii.eqb d "]"%char)) r with
      | (alt, String _ (String "("%char r2)) =>
          match image_src r2 with
          | Some (src, title, rest) => Some (alt, src, title, rest)
          | None => None
          end
      | _ => None
      end
  | _ => None
  end.

(** The callback of the replacement: the [img] tag for a [file://]
    target, the matched text otherwise. *)
Definition image_replacement (matched alt src : string) (title : option string) : string :=
  if Js.startsWith "file://" src then
    let titleAttr :=
      match title with
      | Some (String a t) => " title=" +:+ Js.dq +:+ String a t +:+ Js.dq
      | _ => EmptyString
      end in
    "<img src=" +:+ Js.dq +:+ Js.trim src +:+ Js.dq
    +:+ " alt=" +:+ Js.dq +:+ alt +:+ Js.dq +:+ titleAttr +:+ " />"
  else matched.

(** [markdown.replace(re, callback)] with the global image expression;
    [fuel] bounds the number of positions visited. *)
Fixpoint replace_images (fuel : nat) (s : string) : string :=
  match fuel with
  | O => s
  | S fuel' =>
      match image_match s with
      | Some (alt, src, title, rest) =>
          let matched := Js.take (String.length s - String.length rest) s in
          image_replacement matched alt src title +:+ replace_images fuel' rest
      | None =>
          match s with
          | EmptyString => EmptyString
          | String c s' => String c (replace_images fuel' s')
          end
      end
  end.

Definition processMarkdown (markdown : string) : string :=
  replace_images (S (String.length markdown)) markdown.

Definition is_letter (c : ascii) : bool :=
  let n := Js.code c in
  ((65 <=? n) && (n <=? 90)) || ((97 <=? n) && (n <=? 122)).

(** The first group of [trimmedMarkdown.match(re)] for the single-tag
    expression: a less-than sign, a group made of a letter and a greedy
    run of characters that are neither a greater-than sign nor white
    space, an optional slash, a greater-than sign, end of input.  The
    greedy run takes a slash too, so the match succeeds exactly when the
    run is followed by the final greater-than sign. *)
Definition single_tag_match (s : string) : option string :=
  match s with
  | String "<"%char (String c r) =>
      if is_letter c then
        match Guard.span (fun d => negb (Ascii.eqb d ">"%char) && negb (Js.is_space d)) r with
        | (run, String ">"%char EmptyString) => Some (String c run)
        | _ => None
        end
      else None
  | _ => None
  end.

(** The last part of [markdownToHtml]: the rendered [html] is wrapped in
    a paragraph when it repeats the trimmed source and that source is a
    single tag whose captured name is not in the vocabulary. *)
Definition wrap_single_tag (P : Packages) (processedMarkdown html : string) : string :=
  let trimmedMarkdown := Js.trim processedMarkdown in
  if String.eqb (Js.trim html) trimmedMarkdown then
    match single_tag_match trimmedMarkdown with
    | Some tagName =>
        if negb (Js.includes (htmlTags P) (Js.toLowerCase tagName))
        then "<p>" +:+ html +:+ "</p>"
        else html
    | None => html
    end
  else html.

(** [markdownToHtml(markdown)]. *)
Definition markdownToHtml (P : Packages) (markdown : JsValue) : result string :=
  match markdown with
  | JsString EmptyString => Ok EmptyString
  | JsString m =>
      try_catch
        (let processedMarkdown := processMarkdown m in
         html ← md_render P processedMarkdown;
         Ok (wrap_single_tag P processedMarkdown html))
  | _ => Ok EmptyString
  end.

End Facade.

(* ===================================================================== *)
(** * What the proofs ask of the packages *)
(* ===================================================================== *)

Module Contract.

(** Markdown white space: TAB, LF, CR and SPACE. *)
Definition is_md_space (c : ascii) : bool :=
  let n := Js.code c in (n =? 9) || (n =? 10) || (n =? 13) || (n =? 32).

Fixpoint md_blank (s : string) : bool :=
  match s with
  | EmptyString => true
  | String c s' => is_md_space c && md_blank s'
  end.

(** Characters [he.encode] leaves alone: printable ASCII but the double
    quote, the ampersand, the apostrophe, the angle brackets and the
    backtick. *)
Definition is_plain (c : ascii) : bool :=
  let n := Js.code c in
  (32 <=? n) && (n <=? 126)
  && negb ((n =? 34) || (n =? 38) || (n =? 39) || (n =? 60) || (n =? 62) || (n =? 96)).

Fixpoint plain (s : string) : bool :=
  match s with
  | EmptyString => true
  | String c s' => is_plain c && plain s'
  end.

Fixpoint has_char (c : ascii) (s : string) : bool :=
  match s with
  | EmptyString => false
  | String d s' => Ascii.eqb c d || has_char c s'
  end.

(** [he.encode] changes nothing in plain text. *)
Definition encode_plain (P : Packages) : Prop :=
  forall named s, plain s = true -> he_encode P named s = s.

(** [he.decode] changes nothing in a text without ampersand. *)
Definition decode_plain (P : Packages) : Prop :=
  forall s, has_char "&"%char s = false -> he_decode P s = s.

(** The parser fires no tag callback on a text without [<]. *)
Definition parser_plain (P : Packages) : Prop :=
  forall s evs, has_char "<"%char s = false -> parser_events P s = Ok evs -> evs = [].

(** The engine renders a blank document to the empty string. *)
Definition render_blank (P : Packages) : Prop :=
  forall s h, md_blank s = true -> md_render P s = Ok h -> h = EmptyString.

(** The serializer turns a blank document into white space at most. *)
Definition turndown_blank (P : Packages) : Prop :=
  forall s t, md_blank s = true -> turndown P s = Ok t -> Js.trim t = EmptyString.

End Contract.

(* ===================================================================== *)
(** * Recorded package answers for the examples *)
(* ===================================================================== *)

(** The answers of the packages on the documents of the examples, as
    the packages give them.  Statements that hold for every package set
    take a [Packages] parameter and do not use this module. *)
Module Recorded.

(** [<div data-latex="a+b+c" data-type="block-math"></div>]. *)
Definition math_container : string :=
  "<div data-latex=" +:+ Js.dq +:+ "a+b+c" +:+ Js.dq
  +:+ " data-type=" +:+ Js.dq +:+ "block-math" +:+ Js.dq +:+ "></div>".

Definition script_html : string := "<script>alert(1)</script>".

(** The entries of [html-tags] the examples use; the package exports
    every element name of the HTML standard, these among them. *)
Definition htmlTags : list string :=
  ["a"; "b"; "br"; "code"; "div"; "em"; "h1"; "hr"; "img"; "input"; "label"; "li";
   "p"; "pre"; "script"; "span"; "strong"; "style"; "table"; "td"; "th"; "tr"; "ul"].

(** [he.encode] on one character of printable ASCII text. *)
Definition encode_char (named : bool) (c : ascii) : string :=
  let n := Js.code c in
  if n =? 34 then if named then "&quot;" else "&#x22;"
  else if n =? 38 then if named then "&amp;" else "&#x26;"
  else if n =? 39 then if named then "&apos;" else "&#x27;"
  else if n =? 60 then if named then "&lt;" else "&#x3C;"
  else if n =? 62 then if named then "&gt;" else "&#x3E;"
  else if n =? 96 then if named then "&grave;" else "&#x60;"
  else String c EmptyString.

Fixpoint he_encode (named : bool) (s : string) : string :=
  match s with
  | EmptyString => EmptyString
  | String c s' => encode_char named c +:+ he_encode named s'
  end.

Definition entities : list (string * ascii) :=
  [("&quot;", "034"%char); ("&amp;", "&"%char); ("&apos;", "'"%char);
   ("&lt;", "<"%char); ("&gt;", ">"%char)].

Fixpoint entity_at (l : list (string * ascii)) (s : string) : option (ascii * nat) :=
  match l with
  | [] => None
  | (e, c) :: l' =>
      if Js.startsWith e s then Some (c, String.length e) else entity_at l' s
  end.

(** [he.decode] on a text whose references are among [entities]. *)
Fixpoint decode (fuel : nat) (s : string) : string :=
  match fuel with
  | O => s
  | S fuel' =>
      match s with
      | EmptyString => EmptyString
      | String c s' =>
          match entity_at entities s with
          | Some (d, k) => String d (decode fuel' (Js.drop k s))
          | None => String c (decode fuel' s')
          end
      end
  end.

Definition he_decode (s : string) : string := decode (String.length s) s.

(** The callbacks [htmlparser2] fires on the documents of the examples. *)
Definition parser_events (html : string) : result (list ParserEvent) :=
  if String.eqb html script_html then
    Ok [OpenTagName "script" 0 7; CloseTag "script" 16 24]
  else if String.eqb html math_container then
    Ok [OpenTagName "div" 0 4; CloseTag "div" 47 52]
  else if String.eqb html "<foo>bar</foo>" then
    Ok [OpenTagName "foo" 0 4; CloseTag "foo" 8 13]
  else if Contract.has_char "<"%char html then Throw "not recorded"
  else Ok [].

(** [md.render] on the documents of the examples. *)
Definition md_render (s : string) : result string :=
  if String.eqb s "$$a+b+c$$" then Ok math_container
  else if String.eqb s "<br/>" then Ok "<br/>"
  else if String.eqb s "<foo>" then Ok "<foo>"
  else if Contract.md_blank s then Ok EmptyString
  else Throw "not recorded".

(** [turndownService.turndown] on the documents of the examples. *)
Definition turndown (s : string) : result string :=
  if String.eqb s script_html then Ok "alert(1)"
  else if String.eqb s math_container then Ok "$$a+b+c$$"
  else if Contract.md_blank s then Ok EmptyString
  else Throw "not recorded".

Definition packages : Packages :=
  Build_Packages htmlTags he_encode he_decode parser_events md_render turndown.

End Recorded.

(* ===================================================================== *)
(** * Vocabulary of the statements *)
(* ===================================================================== *)

Module Spec.

(** [k] empty padded pipe cells. *)
Fixpoint empty_cells (k : nat) : string :=
  match k with
  | O => EmptyString
  | S k' => "   |" +:+ empty_cells k'
  end.

(** The value of [inside_task_list] when the loop of the task-list rule
    reaches index [i]. *)
Definition inside_before (o : TaskList.TaskListOptions) (tokens : list Token) (i : nat) : bool :=
  snd (TaskList.run_from (TaskList.label_of o) 0 i (tokens, false)).

(** Index [i] is in the reach of the opening token of a marked list: it
    comes after the opening token of a bullet list in which the rule finds
    a task item, and no [bullet_list_close] stands between that token and
    [i].  This is narrower than being inside the marked list: the items of
    a marked list that follow a nested list come after the closing token of
    the nested list and are not in the reach. *)
Definition in_reach (tokens : list Token) (i : nat) : Prop :=
  exists a t,
    (a < i)%nat
    /\ tokens !! a = Some t /\ type t = "bullet_list_open"
    /\ TaskList.has_task_items (drop (S a) tokens) = true
    /\ (forall m tm, (a < m < i)%nat -> tokens !! m = Some tm ->
                     type tm <> "bullet_list_close").

(** What the iterations after index [j] may do to the token at [j]: its
    type stays; only an item-open token changes, and only in its
    [data-checked] attribute. *)
Definition later_touch (t t' : Token) : Prop :=
  type t' = type t
  /\ (type t <> "list_item_open" -> t' = t)
  /\ (forall name, name <> "data-checked" -> attrGet t' name = attrGet t name).



(** The text of line [l] after its indentation. *)
Definition line_text (s : Katex.BlockState) (l : Z) : option string :=
  b ← Katex.mark (Katex.bMarks s) l;
  t ← Katex.mark (Katex.tShift s) l;
  e ← Katex.mark (Katex.eMarks s) l;
  Some (Js.slice (Katex.src s) (b + t) e).

(** The text of line [l] after its indentation and two more characters:
    what follows the opening delimiter on the opening line. *)
Definition opening_rest (s : Katex.BlockState) (l : Z) : option string :=
  b ← Katex.mark (Katex.bMarks s) l;
  t ← Katex.mark (Katex.tShift s) l;
  e ← Katex.mark (Katex.eMarks s) l;
  Some (Js.slice (Katex.src s) (b + t + 2) e).

(** No closing delimiter for a block opened at [startLine]: neither on
    the opening line nor on a line before [endLine]. *)
Definition unterminated (s : Katex.BlockState) (startLine endLine : Z) : Prop :=
  (exists txt, opening_rest s startLine = Some txt /\ Js.contains txt "$$" = false)
  /\ (forall l, startLine < l < endLine ->
        exists txt, line_text s l = Some txt /\ Js.contains txt "$$" = false).

(** The text between the dollar sign at [pos] and the next one. *)
Definition candidate_span (s : Katex.InlineState) : string :=
  Js.slice (Katex.isrc s) (Katex.pos s + 1)
    (Js.indexOf_from (Katex.isrc s) "$" (Katex.pos s + 1)).

Definition newline : string := String "010"%char EmptyString.













(** The inline state of a paragraph made of [text], at position [p]. *)
Definition paragraph_state (text : string) (p : Z) : Katex.InlineState :=
  {| Katex.isrc := text; Katex.pos := p; Katex.posMax := Js.len text;
     Katex.itokens := [] |}.

(** The property that a paragraph is ordinary text for the plugin: its
    inline rule accepts at no position of the text. *)
Definition ordinary_text (text : string) : Prop :=
  forall p, 0 <= p < Js.len text ->
            fst (Katex.math_inline (paragraph_state text p) false) = false.

(** The token the inline rule pushes for a formula without content. *)
Definition empty_formula : Token :=
  set_content (newToken "math_inline" "span" 0) EmptyString.

(** The DOM of the block-math container of [a+b+c]. *)
Definition math_node : Node :=
  Element "DIV" [("data-latex", "a+b+c"); ("data-type", "block-math")] [].

(** The engine renders a document that the block rule takes whole as
    one math block by the renderer of that token. *)
Definition renders_math_block (P : Packages) (s : Katex.BlockState) (endLine : Z) : Prop :=
  forall s',
    Katex.math_block s 0 endLine false = Some (true, s') ->
    Katex.line s' = endLine ->
    md_render P (Katex.src s) = Ok (Katex.render_math_block P (Katex.tokens s') 0).

(** The serializer's output for a document made of one blank element is
    the blank replacement of that element, up to white space around. *)
Definition serializes_blank (P : Packages) (html : string) (el : Node) (isBlock : bool) : Prop :=
  exists t, turndown P html = Ok t
            /\ Js.trim t = Js.trim (Serializer.blankReplacement P EmptyString el isBlock).

End Spec.

(* ===================================================================== *)
(** * Example inputs *)
(* ===================================================================== *)

Module Examples.

(** The block state of the three-line document [$$], [a+b], [c]: an
    opening delimiter that is never closed. *)
Definition unterminated_state : Katex.BlockState :=
  {| Katex.src := "$$" +:+ Spec.newline +:+ "a+b" +:+ Spec.newline +:+ "c";
     Katex.bMarks := [0; 3; 7; 8];
     Katex.eMarks := [2; 6; 8; 8];
     Katex.tShift := [0; 0; 0; 0];
     Katex.line := 0;
     Katex.parentType := "root";
     Katex.blkIndent := 0;
     Katex.tokens := [] |}.

(** The block state of the one-line document [$$a+b+c$$]. *)
Definition math_state : Katex.BlockState :=
  {| Katex.src := "$$a+b+c$$";
     Katex.bMarks := [0; 9];
     Katex.eMarks := [9; 9];
     Katex.tShift := [0; 0];
     Katex.line := 0;
     Katex.parentType := "root";
     Katex.blkIndent := 0;
     Katex.tokens := [] |}.

(** The inline state at the dollar sign of [x $a], newline, [+b$ y]. *)
Definition broken_span_state : Katex.InlineState :=
  {| Katex.isrc := "x $a" +:+ Spec.newline +:+ "+b$ y";
     Katex.pos := 2;
     Katex.posMax := 10;
     Katex.itokens := [] |}.

(** The token stream of a task item holding a nested plain list and
    followed by a second task item:
    [- [x] a], [  - b], [- [x] c]. *)
Definition nested_list : list Token :=
  ([Stream.block_token "bullet_list_open" "ul" 1;
    Stream.block_token "list_item_open" "li" 1;
    Stream.block_token "paragraph_open" "p" 1;
    Stream.inline_token "[x] a";
    Stream.block_token "paragraph_close" "p" (-1)]
   ++ Stream.bullet_list ["b"]
   ++ [Stream.block_token "list_item_close" "li" (-1)]
   ++ Stream.item "[x] c"
   ++ [Stream.block_token "bullet_list_close" "ul" (-1)])%list.




End Examples.

(* ===================================================================== *)
(** * The table rules of the serializer ([customTablesPlugin]) *)
(* ===================================================================== *)

Module Tables.

Definition lf : string := String "010"%char EmptyString.

(** A node matched by the selector [th, td]. *)
Definition is_cell (n : Node) : bool :=
  String.eqb (Dom.name_of n) "TH" || String.eqb (Dom.name_of n) "TD".

(** [node.querySelectorAll('th, td')]. *)
Definition cells (n : Node) : list Node := List.filter is_cell (Dom.descendants n).

(** The loop [for (let i = 0; i < colCount; i++)] of the row rule, from
    index [i] with [n] iterations left. *)
Fixpoint border_loop (i : nat) (n : nat) (borderCells : string) : string :=
  match n with
  | O => borderCells
  | S n' =>
      let prefix := if (i =? 0)%nat then "| " else " " in
      border_loop (S i) n' (borderCells +:+ prefix +:+ "---" +:+ " |")
  end.

(** The replacement of the rule [tableRow].  [parentName] is the
    [nodeName] of [node.parentNode] ([None] without parent) and [inTable]
    tells whether [node.closest('table')] finds a table. *)
Definition tableRow (content : string) (node : Node) (parentName : option string)
    (inTable : bool) : string :=
  if String.eqb content EmptyString || String.eqb (Js.trim content) EmptyString
  then EmptyString
  else
    let borderCells :=
      match parentName with
      | Some nm =>
          if String.eqb nm "THEAD" && inTable
          then border_loop 0 (List.length (cells node)) EmptyString
          else EmptyString
      | None => EmptyString
      end in
    lf +:+ content
    +:+ (if String.eqb borderCells EmptyString then EmptyString else lf +:+ borderCells).

(** [s.split('\n')]. *)
Fixpoint split_lines (s : string) : list string :=
  match s with
  | EmptyString => [EmptyString]
  | String c s' =>
      if Ascii.eqb c "010"%char then EmptyString :: split_lines s'
      else match split_lines s' with
           | h :: t => String c h :: t
           | [] => [String c EmptyString]
           end
  end.

(** [lines.join('\n')]. *)
Definition join_lines (l : list string) : string := String.concat lf l.

(** The test of the header expression on a line: a pipe, optional white
    space and a dash, anywhere in the line. *)
Fixpoint separator_test (s : string) : bool :=
  match s with
  | EmptyString => false
  | String c s' =>
      (Ascii.eqb c "|"%char
       && match Js.trimStart s' with
          | String d _ => Ascii.eqb d "-"%char
          | EmptyString => false
          end)
      || separator_test s'
  end.

(** [(line.match(/\|/g) || []).length]. *)
Fixpoint count_pipes (s : string) : Z :=
  match s with
  | EmptyString => 0
  | String c s' => (if Ascii.eqb c "|"%char then 1 else 0) + count_pipes s'
  end.

(** The loop that builds the separator, with [n] iterations left. *)
Fixpoint separator_loop (n : nat) (separator : string) : string :=
  match n with
  | O => separator
  | S n' => separator_loop n' (separator +:+ " --- |")
  end.

(** The content of the table, cleaned: runs of newlines collapsed, then
    trimmed. *)
Definition clean (content : string) : string :=
  Js.trim (Serializer.replace_runs (Ascii.eqb "010"%char) lf content).

(** [content.split('\n').filter((line) => line.trim())]. *)
Definition table_lines (content : string) : list string :=
  List.filter (fun line => negb (String.eqb (Js.trim line) EmptyString))
    (split_lines (clean content)).

(** The replacement of the rule [table]. *)
Definition table (content : string) : string :=
  if String.eqb (clean content) EmptyString then EmptyString
  else
    match table_lines content with
    | [] => EmptyString
    | firstLine :: others =>
        let hasHeaderSeparator :=
          match others with
          | second :: _ => separator_test second
          | [] => false
          end in
        let colCount := count_pipes firstLine - 1 in
        let result :=
          if negb hasHeaderSeparator && (colCount >? 0)
          then join_lines (firstLine :: separator_loop (Z.to_nat colCount) "|" :: others)
          else join_lines (firstLine :: others) in
        lf +:+ lf +:+ result +:+ lf +:+ lf
    end.

(** The replacement of the rule [tableSection]. *)
Definition tableSection (content : string) : string := content.

End Tables.

(* ===================================================================== *)
(** * The task-item rules of the serializer ([taskListItemsPlugin]) *)
(* ===================================================================== *)

Module TaskItems.

(** [node.textContent]: the data of the text nodes below, in document
    order. *)
Fixpoint textContent (n : Node) : string :=
  match n with
  | TextNode d => d
  | Element _ _ cs =>
      (fix go (l : list Node) : string :=
         match l with
         | [] => EmptyString
         | c :: l' => textContent c +:+ go l'
         end) cs
  end.

(** A node matched by [input[type="checkbox"]]; the value of [type] is
    compared without regard to ASCII case, as selectors do for that
    attribute in an HTML document. *)
Definition is_checkbox (n : Node) : bool :=
  String.eqb (Dom.name_of n) "INPUT"
  && match Dom.getAttribute n "type" with
     | Some v => String.eqb (Js.toLowerCase v) "checkbox"
     | None => false
     end.

(** [node.querySelector('input[type="checkbox"]')]. *)
Definition checkbox_of (n : Node) : option Node :=
  head (List.filter is_checkbox (Dom.descendants n)).

(** [checkbox.checked] on a parsed element: the [checked] attribute is
    there. *)
Definition checked (n : Node) : bool :=
  match Dom.getAttribute n "checked" with Some _ => true | None => false end.

(** The filter of the rule [taskListItems]. *)
Definition taskListItems_filter (n : Node) : bool :=
  String.eqb (Dom.name_of n) "LI" && Dom.has_data_type "taskItem" n.

(** [checkbox?.checked || node.getAttribute('data-checked') === 'true']. *)
Definition isChecked (node : Node) : bool :=
  match checkbox_of node with
  | Some checkbox => checked checkbox
  | None => false
  end
  || match Dom.getAttribute node "data-checked" with
     | Some v => String.eqb v "true"
     | None => false
     end.

(** The replacement of the rule [taskListItems]. *)
Definition taskListItems (_content : string) (node : Node) : string :=
  "- " +:+ (if isChecked node then "[x]" else "[ ]") +:+ " "
  +:+ Js.trim (textContent node) +:+ Tables.lf +:+ Tables.lf.

(** The filter and the replacement of the rule [taskList]. *)
Definition taskList_filter (n : Node) : bool :=
  String.eqb (Dom.name_of n) "UL" && Dom.has_data_type "taskList" n.

Definition taskList (content : string) : string := content.

End TaskItems.

(* ===================================================================== *)
(** * The syntax sniffer ([isMarkdownContent]) *)
(* ===================================================================== *)

Module Sniff.

(** A matcher tells whether the rest of an expression matches at the
    start of a text. *)
Definition matcher : Type := string -> bool.

(** The end of an expression: anything may follow. *)
Definition done : matcher := fun _ => true.

(** A literal text, then [k]. *)
Definition lit (p : string) (k : matcher) : matcher :=
  fun s => Js.startsWith p s && k (Js.drop (String.length p) s).

(** One white space character, then [k]. *)
Definition space (k : matcher) : matcher :=
  fun s => match s with
           | String c s' => Js.is_space c && k s'
           | EmptyString => false
           end.

(** A greedy run of [.], then [k]: some prefix without line terminator,
    then [k]. *)
Fixpoint dots (k : matcher) (s : string) : bool :=
  k s
  || match s with
     | String c s' => negb (Js.is_line_terminator c) && dots k s'
     | EmptyString => false
     end.

(** An expression that is not anchored: [k] at some position. *)
Fixpoint anywhere (k : matcher) (s : string) : bool :=
  k s
  || match s with
     | String _ s' => anywhere k s'
     | EmptyString => false
     end.

(** The run of between one and six hash signs of the header expression,
    then white space; [n] more signs are allowed. *)
Fixpoint hashes (n : nat) (s : string) : bool :=
  match n, s with
  | S n', String c s' =>
      Ascii.eqb c "#"%char && (space done s' || hashes n' s')
  | _, _ => false
  end.

(** One or more digits, then [k]. *)
Fixpoint digits_then (k : matcher) (s : string) : bool :=
  match s with
  | String c s' => Serializer.is_digit c && (k s' || digits_then k s')
  | EmptyString => false
  end.

(** The array [markdownPatterns], each with its [test]. *)
Definition markdownPatterns : list matcher :=
  [ hashes 6;
    (fun s => lit "*" (space done) s || lit "-" (space done) s || lit "+" (space done) s);
    digits_then (lit "." (space done));
    anywhere (lit "**" (dots (lit "**" done)));
    anywhere (lit "*" (dots (lit "*" done)));
    anywhere (lit "`" (dots (lit "`" done)));
    anywhere (lit "```" done);
    lit ">" done;
    anywhere (lit "[" (dots (lit "](" (dots (lit ")" done)))));
    anywhere (lit "![" (dots (lit "](" (dots (lit ")" done))))) ].

(** [isMarkdownContent(content)]. *)
Definition isMarkdownContent (content : string) : bool :=
  if String.eqb content EmptyString then false
  else existsb (fun pattern => pattern content) markdownPatterns.

End Sniff.

(* ===================================================================== *)
(** * The plain-text preview ([markdownToPreviewText]) *)
(* ===================================================================== *)

Module Preview.

(** [markdownToPreviewText(markdown, maxLength)]; [striptags] is the
    function of the package of that name.  Nothing is caught here: an
    error thrown by [striptags] reaches the caller. *)
Definition markdownToPreviewText (P : Packages) (striptags : string -> result string)
    (markdown : string) (maxLength : Z) : result string :=
  if String.eqb markdown EmptyString then Ok EmptyString
  else
    html ← Facade.markdownToHtml P (JsString markdown);
    stripped ← striptags html;
    let textContent :=
      Js.trim (Serializer.replace_runs Js.is_space " " (he_decode P stripped)) in
    Ok (if Js.len textContent >? maxLength
        then Js.slice textContent 0 maxLength +:+ "..."
        else textContent).

End Preview.

(* ===================================================================== *)
(** * Vocabulary of the further statements *)
(* ===================================================================== *)

Module Props.

(** Two tokens with the same place in the stream: type, tag, nesting,
    source map and block flag. *)
Definition same_frame (t t' : Token) : Prop :=
  type t' = type t /\ tag t' = tag t /\ nesting t' = nesting t
  /\ map t' = map t /\ block t' = block t.

(** No inline token of the stream passes the test of the task pattern. *)
Definition no_task_item (tokens : list Token) : Prop :=
  Forall (fun t => type t = "inline" -> TaskList.task_test (content t) = false) tokens.

(** The item-open token of a task list, annotated. *)
Definition task_item_open : Token :=
  attrSet (attrSet (Stream.block_token "list_item_open" "li" 1) "data-type" "taskItem")
    "class" "task-list-item".

(** The tokens of one item of a flat list after the rule, inside a list
    that holds a task item. *)
Definition annotated_item (lbl : bool) (c : string) : list Token :=
  match TaskList.task_match c with
  | Some (check, rest) =>
      [ attrSet task_item_open "data-checked"
          (TaskList.bool_toString (TaskList.isChecked check));
        Stream.block_token "paragraph_open" "p" 1;
        set_children (set_content (Stream.inline_token c) rest)
          (TaskList.task_children lbl (TaskList.isChecked check) rest);
        Stream.block_token "paragraph_close" "p" (-1);
        Stream.block_token "list_item_close" "li" (-1) ]
  | None =>
      [ task_item_open;
        Stream.block_token "paragraph_open" "p" 1;
        Stream.inline_token c;
        Stream.block_token "paragraph_close" "p" (-1);
        Stream.block_token "list_item_close" "li" (-1) ]
  end.

(** The flat list of the items [cs] after the rule. *)
Definition annotated_list (lbl : bool) (cs : list string) : list Token :=
  if existsb TaskList.task_test cs
  then attrSet (attrSet (Stream.block_token "bullet_list_open" "ul" 1)
                  "data-type" "taskList") "class" "task-list"
       :: (concat (List.map (annotated_item lbl) cs)
           ++ [Stream.block_token "bullet_list_close" "ul" (-1)])%list
  else Stream.bullet_list cs.

(** The block state of a document made of the single line [text]. *)
Definition one_line_state (text : string) : Katex.BlockState :=
  {| Katex.src := text;
     Katex.bMarks := [0; Js.len text];
     Katex.eMarks := [Js.len text; Js.len text];
     Katex.tShift := [0; 0];
     Katex.line := 0;
     Katex.parentType := "root";
     Katex.blkIndent := 0;
     Katex.tokens := [] |}.

(** The token the block rule pushes for the lines [startLine .. nextLine]. *)
Definition math_block_token (startLine nextLine : Z) (content : string) : Token :=
  set_content
    (set_map (set_block (newToken "math_block" "div" 0) true) (startLine, nextLine))
    content.

(** The loop of the block rule without its second test, the one for a
    line that starts with the delimiter. *)
Fixpoint scan_first_test (s : Katex.BlockState) (startLine nextLine : Z) (n : nat)
  : option (option (Z * string)) :=
  match n with
  | O => Some None
  | S n' =>
      b ← Katex.mark (Katex.bMarks s) nextLine;
      t ← Katex.mark (Katex.tShift s) nextLine;
      lineEnd ← Katex.mark (Katex.eMarks s) nextLine;
      let line := Js.slice (Katex.src s) (b + t) lineEnd in
      let closingPos := Js.indexOf line "$$" in
      if negb (closingPos =? -1) then
        b0 ← Katex.mark (Katex.bMarks s) startLine;
        t0 ← Katex.mark (Katex.tShift s) startLine;
        firstLineEnd ← Katex.mark (Katex.eMarks s) startLine;
        let firstLineContent := Js.slice (Katex.src s) (b0 + t0 + 2) firstLineEnd in
        mids ← Katex.middle_lines s (startLine + 1) (Z.to_nat (nextLine - (startLine + 1)));
        let lastLineContent := Js.slice line 0 closingPos in
        let allLines :=
          Katex.push_if_not_blank
            (Katex.push_if_not_blank [] firstLineContent ++ mids)%list
            lastLineContent in
        Some (Some (nextLine, Js.trim (Katex.join_lines allLines)))
      else scan_first_test s startLine (nextLine + 1) n'
  end.

(** A text that does not begin with white space. *)
Definition no_leading_space (s : string) : Prop :=
  match s with String c _ => Js.is_space c = false | EmptyString => True end.

(** The block state of the three-line document [$$], [a+b], [$$]. *)
Definition fenced_state : Katex.BlockState :=
  {| Katex.src := "$$" +:+ Spec.newline +:+ "a+b" +:+ Spec.newline +:+ "$$";
     Katex.bMarks := [0; 3; 7; 9];
     Katex.eMarks := [2; 6; 9; 9];
     Katex.tShift := [0; 0; 0; 0];
     Katex.line := 0;
     Katex.parentType := "root";
     Katex.blkIndent := 0;
     Katex.tokens := [] |}.

(** The inline state at the dollar sign of [x $ a+b $ y]. *)
Definition span_state : Katex.InlineState :=
  {| Katex.isrc := "x $ a+b $ y";
     Katex.pos := 2;
     Katex.posMax := 11;
     Katex.itokens := [] |}.

(** The token the inline rule pushes. *)
Definition math_inline_token (content : string) : Token :=
  set_content (newToken "math_inline" "span" 0) content.

(** The only white space of a text is the plain space. *)
Fixpoint plain_spaces (s : string) : bool :=
  match s with
  | EmptyString => true
  | String c r => (negb (Js.is_space c) || Ascii.eqb c " "%char) && plain_spaces r
  end.

(** Every pipe of a text comes directly after a backslash; [escaped]
    tells whether the character before the text is a backslash. *)
Fixpoint pipes_after (escaped : bool) (s : string) : bool :=
  match s with
  | EmptyString => true
  | String c r =>
      (negb (Ascii.eqb c "|"%char) || escaped) && pipes_after (Ascii.eqb c "\"%char) r
  end.

Definition pipes_escaped (s : string) : bool := pipes_after false s.

(** [cleanCellContent] without its last two replacements, the one of
    runs of newlines and the one of runs of carriage returns. *)
Definition cleanCellContent_two_replacements (P : Packages) (content : string)
    (cellElement : option Node) : string :=
  let math :=
    match cellElement with
    | Some cell =>
        match Dom.querySelector cell "block-math" with
        | Some blockMath => Some ("$$" +:+ Serializer.decoded_latex P blockMath +:+ "$$")
        | None =>
            match Dom.querySelector cell "inline-math" with
            | Some inlineMath => Some ("$" +:+ Serializer.decoded_latex P inlineMath +:+ "$")
            | None => None
            end
        end
    | None => None
    end in
  match math with
  | Some m => m
  | None =>
      if String.eqb content EmptyString then "   "
      else
        let cleaned :=
          Js.replace_char "|"%char "\|"
            (Serializer.replace_runs Js.is_space " " (Js.trim content)) in
        if String.eqb cleaned EmptyString || Js.blank cleaned then "   "
        else if (Js.len cleaned <? 3)
        then cleaned +:+ Js.repeat_char " " (Z.to_nat (3 - Js.len cleaned))
        else cleaned
  end.

(** A cell element, if any, without math node below it. *)
Definition no_math (cellElement : option Node) : Prop :=
  match cellElement with
  | Some cell =>
      Dom.querySelector cell "block-math" = None
      /\ Dom.querySelector cell "inline-math" = None
  | None => True
  end.

(** The [colspan] attribute gives no number above one: it is missing,
    empty, not a number, or at most one. *)
Definition no_colspan (node : Node) : Prop :=
  match Dom.getAttribute node "colspan" with
  | Some s =>
      match Serializer.parseInt s with
      | Some n => n <= 1
      | None => True
      end
  | None => True
  end.

(** The index the cell rule works with: the given one, or the place of
    the node under its parent, or zero. *)
Definition cell_index (position index : option Z) : Z :=
  match index, position with
  | Some i, _ => i
  | None, Some k => k
  | None, None => 0
  end.

Fixpoint repeat_string (n : nat) (s : string) : string :=
  match n with
  | O => EmptyString
  | S n' => s +:+ repeat_string n' s
  end.

(** The separator line of a table of [n] columns. *)
Definition separator_line (n : nat) : string := "|" +:+ repeat_string n " --- |".

(** The last character of a text is there and is not white space. *)
Fixpoint ends_nonspace (s : string) : bool :=
  match s with
  | EmptyString => false
  | String c EmptyString => negb (Js.is_space c)
  | String _ r => ends_nonspace r
  end.

(** A table row element with the two header cells [a] and [b]. *)
Definition header_row : Node :=
  Element "TR" []
    [Element "TH" [] [TextNode "a"]; Element "TH" [] [TextNode "b"]].

(** An example of a task-item element: the one a document parser builds
    from the markup written for an item of a loose list, when the text
    [rest] of the item holds no markup and no entity, so that it is one
    text node.  The attributes are those the rule sets on the item; the
    label markup stands in a paragraph between two newlines.  Other items
    give other elements: a text with tags or entities gives other nodes,
    and a tight list has no paragraph (see [tight_item_element]). *)
Definition item_element (isChecked : bool) (rest : string) : Node :=
  Element "LI"
    [("data-type", "taskItem"); ("class", "task-list-item");
     ("data-checked", TaskList.bool_toString isChecked)]
    [TextNode Tables.lf;
     Element "P" []
       [Element "LABEL" []
          [Element "INPUT"
             (("type", "checkbox")
              :: (if isChecked then [("checked", EmptyString)] else [])
              ++ [("disabled", EmptyString)])%list
             [];
           TextNode (" " +:+ rest)]];
     TextNode Tables.lf].

(** The same for an item of a tight list: the label markup stands in
    the item itself. *)
Definition tight_item_element (isChecked : bool) (rest : string) : Node :=
  Element "LI"
    [("data-type", "taskItem"); ("class", "task-list-item");
     ("data-checked", TaskList.bool_toString isChecked)]
    [Element "LABEL" []
       [Element "INPUT"
          (("type", "checkbox")
           :: (if isChecked then [("checked", EmptyString)] else [])
           ++ [("disabled", EmptyString)])%list
          [];
        TextNode (" " +:+ rest)]].

(** The marker the serializer writes for a task item. *)
Definition item_marker (isChecked : bool) : string := if isChecked then "[x]" else "[ ]".

(** The expressions of [markdownPatterns] but the one for bold text, the
    one for code blocks and the one for images. *)
Definition effective_patterns : list Sniff.matcher :=
  [ Sniff.hashes 6;
    (fun s => Sniff.lit "*" (Sniff.space Sniff.done) s
              || Sniff.lit "-" (Sniff.space Sniff.done) s
              || Sniff.lit "+" (Sniff.space Sniff.done) s);
    Sniff.digits_then (Sniff.lit "." (Sniff.space Sniff.done));
    Sniff.anywhere (Sniff.lit "*" (Sniff.dots (Sniff.lit "*" Sniff.done)));
    Sniff.anywhere (Sniff.lit "`" (Sniff.dots (Sniff.lit "`" Sniff.done)));
    Sniff.lit ">" Sniff.done;
    Sniff.anywhere
      (Sniff.lit "[" (Sniff.dots (Sniff.lit "](" (Sniff.dots (Sniff.lit ")" Sniff.done))))) ].

(** A character that opens one of the expressions tied to the start of
    the text: a hash sign, an asterisk, a dash, a plus sign, a
    greater-than sign or a digit. *)
Definition line_marker (c : ascii) : bool :=
  Ascii.eqb c "#"%char || Ascii.eqb c "*"%char || Ascii.eqb c "-"%char
  || Ascii.eqb c "+"%char || Ascii.eqb c ">"%char || Serializer.is_digit c.

(** A text without line terminator. *)
Fixpoint one_line (s : string) : bool :=
  match s with
  | EmptyString => true
  | String c r => negb (Js.is_line_terminator c) && one_line r
  end.

(** The characters the run of a tag name may hold: neither a
    greater-than sign nor white space. *)
Fixpoint tag_run (s : string) : bool :=
  match s with
  | EmptyString => true
  | String c r => negb (Ascii.eqb c ">"%char) && negb (Js.is_space c) && tag_run r
  end.

(** The [img] tag written for a [file://] image without title. *)
Definition img_tag (alt src : string) : string :=
  "<img src=" +:+ Js.dq +:+ Js.trim src +:+ Js.dq
  +:+ " alt=" +:+ Js.dq +:+ alt +:+ Js.dq +:+ " />".

(** A tag stripper for the examples: the text outside the angle
    brackets. *)
Fixpoint strip_tags (inside : bool) (s : string) : string :=
  match s with
  | EmptyString => EmptyString
  | String c r =>
      if inside then strip_tags (negb (Ascii.eqb c ">"%char)) r
      else if Ascii.eqb c "<"%char then strip_tags true r
      else String c (strip_tags false r)
  end.

(** The packages of the examples, with the rendering of the header
    [# A long title]. *)
Definition header_packages : Packages :=
  Build_Packages Recorded.htmlTags Recorded.he_encode Recorded.he_decode
    Recorded.parser_events
    (fun s => if String.eqb s "# A long title"
              then Ok ("<h1>A long title</h1>" +:+ Tables.lf)
              else Recorded.md_render s)
    Recorded.turndown.

(** The name [onclosetag] looks up: the one read in the text of the
    closing tag, or else the one the parser gives. *)
Definition actual_name (html tagname : string) (startPos endPos : Z) : string :=
  match Guard.close_tag_name (Js.slice html startPos (endPos + 1)) with
  | Some nm => nm
  | None => tagname
  end.

(** The events are those of tags the guard takes for standard, in
    document order.  For an opening tag the name the parser reports is in
    the vocabulary; for a closing tag the name the guard looks up is, and
    that is the name read again in the text of the tag when it can be
    read ([actual_name]), in the case the text has, not the name the
    parser reports.  An opening tag starts at or after the position
    reached ([cur]) and ends at or after its start, and no tag ends after
    the end of the text. *)
Fixpoint standard_in_order (tags : list string) (html : string) (cur : Z)
    (events : list ParserEvent) : Prop :=
  match events with
  | [] => True
  | OpenTagName nm s e :: rest =>
      cur <= s /\ s <= e + 1 /\ e + 1 <= Js.len html
      /\ Js.includes tags nm = true
      /\ standard_in_order tags html (e + 1) rest
  | CloseTag nm s e :: rest =>
      e + 1 <= Js.len html
      /\ Js.includes tags (actual_name html nm s e) = true
      /\ standard_in_order tags html (Z.max cur (e + 1)) rest
  end.

(** The element of an inline formula: an empty [span] that carries the
    formula in [data-latex]. *)
Definition math_span (latex : string) : Node :=
  Element "SPAN" [("data-latex", latex); ("data-type", "inline-math")] [].

(** What [blankReplacement] returns for a node it does not know. *)
Definition blank_fallback (isBlock : bool) : string :=
  if isBlock then Tables.lf +:+ Tables.lf else EmptyString.

(** The inline state at the dollar sign that follows [before] in the
    text [before $ body $ after], with the tokens pushed so far. *)
Definition inline_state (before body after : string) (toks : list Token)
  : Katex.InlineState :=
  {| Katex.isrc := before +:+ "$" +:+ body +:+ "$" +:+ after;
     Katex.pos := Js.len before;
     Katex.posMax := Js.len (before +:+ "$" +:+ body +:+ "$" +:+ after);
     Katex.itokens := toks |}.


End Props.

(* ===================================================================== *)
(** * Strings *)
(* ===================================================================== *)

Section StringFacts.

Lemma append_cons (x : ascii) (a b : string) : String x a +:+ b = String x (a +:+ b).
Proof. reflexivity. Qed.

Lemma append_nil (b : string) : EmptyString +:+ b = b.
Proof. reflexivity. Qed.

Lemma append_assoc (a b c : string) : (a +:+ b) +:+ c = a +:+ (b +:+ c).
Proof.
  induction a as [|x a IH]; [reflexivity |].
  rewrite !append_cons. f_equal. exact IH.
Qed.

Lemma append_empty_r (a : string) : a +:+ EmptyString = a.
Proof.
  induction a as [|x a IH]; [reflexivity |].
  rewrite append_cons. f_equal. exact IH.
Qed.

Lemma length_append (a b : string) :
  String.length (a +:+ b) = (String.length a + String.length b)%nat.
Proof.
  induction a as [|x a IH]; [reflexivity |].
  rewrite append_cons. simpl. f_equal. exact IH.
Qed.

End StringFacts.

(* ===================================================================== *)
(** * Table cells *)
(* ===================================================================== *)

Section TableCells.

Variable P : Packages.

Lemma add_empty_cells_spec (k : nat) (r : string) :
  Serializer.add_empty_cells k r = r +:+ Spec.empty_cells k.
Proof.
  revert r. induction k as [|k IH]; intros r.
  - simpl. now rewrite append_empty_r.
  - change (Serializer.add_empty_cells (S k) r)
      with (Serializer.add_empty_cells k (r +:+ "   |")).
    rewrite IH, append_assoc. reflexivity.
Qed.

Lemma parseInt_not_empty (s : string) (n : Z) :
  Serializer.parseInt s = Some n -> Dom.or_default (Some s) "1" = s.
Proof. destruct s; [discriminate | reflexivity]. Qed.

(** C5.  A cell whose [colspan] attribute reads as the number [n > 1] is
    rendered as its own cell (the prefix, the cleaned content and the
    closing pipe) followed by exactly [n - 1] empty padded cells. *)
Theorem cellWithLatex_colspan
    (content : string) (node : Node) (position index : option Z) (s : string) (n : Z) :
  Dom.getAttribute node "colspan" = Some s ->
  Serializer.parseInt s = Some n ->
  1 < n ->
  exists prefix,
    (prefix = "| " \/ prefix = " ")
    /\ Serializer.cellWithLatex P content node position index =
       (prefix +:+ Serializer.cleanCellContent P content (Some node) +:+ " |")
       +:+ Spec.empty_cells (Z.to_nat (n - 1)).
Proof.
  intros Hattr Hparse Hn.
  unfold Serializer.cellWithLatex.
  rewrite Hattr, (parseInt_not_empty s n Hparse), Hparse.
  destruct (n <? 1) eqn:Hlt; [apply Z.ltb_lt in Hlt; lia |].
  rewrite add_empty_cells_spec.
  match goal with |- context [if ?b then "| " else " "] => destruct b end;
    eexists; (split; [|reflexivity]); auto.
Qed.

End TableCells.

(** A cell with [colspan="3"]: two empty padded cells after its own. *)
Lemma cellWithLatex_colspan_witness :
  exists prefix,
    (prefix = "| " \/ prefix = " ")
    /\ Serializer.tableCell Recorded.packages "f" (Element "TD" [("colspan", "3")] []) (Some 0) =
       (prefix +:+ "f  " +:+ " |") +:+ "   |" +:+ "   |".
Proof.
  exact (cellWithLatex_colspan Recorded.packages "f" (Element "TD" [("colspan", "3")] [])
           (Some 0) None "3" 3 eq_refl eq_refl eq_refl).
Defined.

(* ===================================================================== *)
(** * The task-list rule *)
(* ===================================================================== *)

Section TaskListFacts.

Import TaskList.


Lemma attr_get_set_ne a n v m : n <> m -> attr_get (attr_set a n v) m = attr_get a m.
Proof.
  intros Hne. induction a as [|[k w] a IH]; simpl.
  - destruct (String.eqb n m) eqn:E; [apply String.eqb_eq in E; contradiction | reflexivity].
  - destruct (String.eqb k n) eqn:E; simpl.
    + apply String.eqb_eq in E. subst k.
      destruct (String.eqb n m) eqn:E2; [apply String.eqb_eq in E2; contradiction | reflexivity].
    + destruct (String.eqb k m); [reflexivity | exact IH].
Qed.

Lemma later_touch_refl t : Spec.later_touch t t.
Proof. repeat split; auto. Qed.

Lemma later_touch_trans t1 t2 t3 :
  Spec.later_touch t1 t2 -> Spec.later_touch t2 t3 -> Spec.later_touch t1 t3.
Proof.
  intros (Hty1 & Heq1 & Hat1) (Hty2 & Heq2 & Hat2). repeat split.
  - congruence.
  - intros Hne. rewrite Heq2; [apply Heq1; exact Hne | rewrite Hty1; exact Hne].
  - intros name Hname. rewrite Hat2, Hat1; auto.
Qed.

Lemma later_touch_checked t v :
  type t = "list_item_open" -> Spec.later_touch t (attrSet t "data-checked" v).
Proof.
  intros Hty. repeat split.
  - intros Hne. contradiction.
  - intros name Hname. unfold attrGet, attrSet. simpl. apply attr_get_set_ne. congruence.
Qed.

Lemma mark_parent_length i v (tokens : list Token) :
  length (mark_parent i v tokens) = length tokens.
Proof.
  induction i as [|i IH]; simpl; [reflexivity |].
  destruct (tokens !! i) as [t|]; [|exact IH].
  destruct (String.eqb (type t) "list_item_open"); [apply length_insert | exact IH].
Qed.

Lemma mark_parent_lookup i v (tokens : list Token) j t :
  tokens !! j = Some t ->
  exists t', mark_parent i v tokens !! j = Some t'
             /\ Spec.later_touch t t' /\ ((i <= j)%nat -> t' = t).
Proof.
  intros Hj. induction i as [|i IH]; simpl.
  - exists t. auto using later_touch_refl.
  - destruct IH as (t' & Hl & Hlt & Heq).
    assert (Hskip : exists t'0, mark_parent i v tokens !! j = Some t'0
                       /\ Spec.later_touch t t'0 /\ ((S i <= j)%nat -> t'0 = t)).
    { exists t'. split; [exact Hl | split; [exact Hlt | intros; apply Heq; lia]]. }
    destruct (tokens !! i) as [ti|] eqn:Hi; [|exact Hskip].
    destruct (String.eqb (type ti) "list_item_open") eqn:Ety; [|exact Hskip].
    apply String.eqb_eq in Ety.
    destruct (decide (i = j)) as [->|Hne].
    + rewrite Hj in Hi. inversion Hi; subst ti.
      exists (attrSet t "data-checked" v). split; [|split].
      * apply list_lookup_insert_eq. eapply lookup_lt_Some; eauto.
      * now apply later_touch_checked.
      * intros. lia.
    + exists t. split; [|split]; auto using later_touch_refl.
      rewrite list_lookup_insert_ne by exact Hne. exact Hj.
Qed.

Lemma step_length lbl k (st : LoopState) :
  length (fst (step lbl k st)) = length (fst st).
Proof.
  destruct st as [tokens inside]. unfold step.
  destruct (tokens !! k) as [t|]; [|reflexivity].
  repeat match goal with
         | |- context [if ?b then _ else _] => destruct b
         | |- context [match ?o with Some _ => _ | None => _ end] => destruct o as [[? ?]|]
         end; cbn [fst]; rewrite ?length_insert, ?mark_parent_length; reflexivity.
Qed.

Lemma step_lookup_gt lbl k (st : LoopState) j :
  (k < j)%nat -> fst (step lbl k st) !! j = fst st !! j.
Proof.
  intros Hlt. destruct st as [tokens inside]. unfold step.
  destruct (tokens !! k) as [t|]; [|reflexivity].
  repeat match goal with
         | |- context [if ?b then _ else _] => destruct b
         | |- context [match ?o with Some _ => _ | None => _ end] => destruct o as [[? ?]|]
         end; cbn [fst]; rewrite ?list_lookup_insert_ne by lia; try reflexivity.
  destruct (tokens !! j) as [tj|] eqn:Hj.
  - destruct (mark_parent_lookup k (bool_toString (isChecked a)) tokens j tj Hj)
      as (t' & Hl & _ & Heq).
    rewrite Hl, Heq by lia. reflexivity.
  - apply lookup_ge_None in Hj. apply lookup_ge_None. rewrite mark_parent_length. exact Hj.
Qed.

Lemma step_lookup_lt lbl k (st : LoopState) j t :
  (j < k)%nat -> fst st !! j = Some t ->
  exists t', fst (step lbl k st) !! j = Some t' /\ Spec.later_touch t t'.
Proof.
  intros Hlt Hj. destruct st as [tokens inside]. simpl in Hj. unfold step.
  assert (Hsame : exists t', tokens !! j = Some t' /\ Spec.later_touch t t')
    by (exists t; auto using later_touch_refl).
  destruct (tokens !! k) as [tk|]; [|exact Hsame].
  repeat match goal with
         | |- context [if ?b then _ else _] => destruct b
         | |- context [match ?o with Some _ => _ | None => _ end] => destruct o as [[? ?]|]
         end; cbn [fst]; rewrite ?list_lookup_insert_ne by lia; try exact Hsame.
  destruct (mark_parent_lookup k (bool_toString (isChecked a)) tokens j t Hj)
    as (t' & Hl & Htouch & _).
  exists t'. auto.
Qed.

Lemma run_from_S lbl from n st :
  run_from lbl from (S n) st = run_from lbl (S from) n (step lbl from st).
Proof. reflexivity. Qed.

Lemma run_from_add lbl a b from st :
  run_from lbl from (a + b) st = run_from lbl (from + a) b (run_from lbl from a st).
Proof.
  unfold run_from. rewrite seq_app, fold_left_app. reflexivity.
Qed.

Lemma run_from_length lbl n from st :
  length (fst (run_from lbl from n st)) = length (fst st).
Proof.
  revert from st. induction n as [|n IH]; intros from st; [reflexivity |].
  rewrite run_from_S, IH. apply step_length.
Qed.

Lemma run_from_lookup_ge lbl n from st j :
  (from + n <= j)%nat -> fst (run_from lbl from n st) !! j = fst st !! j.
Proof.
  revert from st. induction n as [|n IH]; intros from st Hle; [reflexivity |].
  rewrite run_from_S, IH by lia. apply step_lookup_gt. lia.
Qed.

Lemma run_from_later lbl n from st j t :
  (j < from)%nat -> fst st !! j = Some t ->
  exists t', fst (run_from lbl from n st) !! j = Some t' /\ Spec.later_touch t t'.
Proof.
  revert from st t. induction n as [|n IH]; intros from st t Hlt Hj.
  - exists t. auto using later_touch_refl.
  - rewrite run_from_S.
    destruct (step_lookup_lt lbl from st j t Hlt Hj) as (t1 & H1 & Ht1).
    destruct (IH (S from) (step lbl from st) t1 ltac:(lia) H1) as (t2 & H2 & Ht2).
    exists t2. split; [exact H2 | eauto using later_touch_trans].
Qed.

(** The pass, cut at the iteration of index [i]. *)
Lemma task_list_split o (tokens : list Token) i :
  (i < length tokens)%nat ->
  task_list o tokens =
  fst (run_from (label_of o) (S i) (length tokens - S i)
         (step (label_of o) i (run_from (label_of o) 0 i (tokens, false)))).
Proof.
  intros Hlt. unfold task_list.
  replace (length tokens) with (i + S (length tokens - S i))%nat at 1 by lia.
  rewrite run_from_add, run_from_S. reflexivity.
Qed.

(** The loop state at index [i]: the token at [i] is still the one of
    the input. *)
Lemma state_before o (tokens : list Token) i :
  exists toks, run_from (label_of o) 0 i (tokens, false) = (toks, Spec.inside_before o tokens i)
               /\ toks !! i = tokens !! i /\ length toks = length tokens.
Proof.
  unfold Spec.inside_before.
  destruct (run_from (label_of o) 0 i (tokens, false)) as [toks inside] eqn:E.
  exists toks. split; [reflexivity |]. split.
  - change toks with (fst (toks, inside)). rewrite <- E.
    rewrite run_from_lookup_ge by lia. reflexivity.
  - change toks with (fst (toks, inside)). rewrite <- E. apply run_from_length.
Qed.

(** Once its own iteration has run, the token at [i] is only touched as
    [later_touch] says. *)
Lemma token_after_own_step o (tokens : list Token) i t1 :
  fst (step (label_of o) i (run_from (label_of o) 0 i (tokens, false))) !! i = Some t1 ->
  exists t', task_list o tokens !! i = Some t' /\ Spec.later_touch t1 t'.
Proof.
  intros H1.
  assert (Hlt : (i < length tokens)%nat).
  { apply lookup_lt_Some in H1. rewrite step_length, run_from_length in H1. exact H1. }
  rewrite (task_list_split o tokens i Hlt).
  apply run_from_later; [lia | exact H1].
Qed.

Lemma inside_before_S o (tokens : list Token) i :
  Spec.inside_before o tokens (S i)
  = snd (step (label_of o) i (run_from (label_of o) 0 i (tokens, false))).
Proof.
  unfold Spec.inside_before.
  replace (S i) with (i + 1)%nat by lia. rewrite run_from_add. reflexivity.
Qed.

(** The part of the array after index [i] is still the input's when the
    loop reaches [i]. *)
Lemma drop_untouched o (tokens : list Token) i :
  drop (S i) (fst (run_from (label_of o) 0 i (tokens, false))) = drop (S i) tokens.
Proof.
  apply list_eq. intros k. rewrite !lookup_drop.
  apply run_from_lookup_ge. lia.
Qed.

Lemma inside_after_open o (tokens : list Token) a t :
  tokens !! a = Some t -> type t = "bullet_list_open" ->
  has_task_items (drop (S a) tokens) = true ->
  Spec.inside_before o tokens (S a) = true.
Proof.
  intros Ha Hty Hhas. rewrite inside_before_S.
  pose proof (drop_untouched o tokens a) as Hdrop.
  destruct (state_before o tokens a) as (toks & Hst & Hlook & _).
  rewrite Hst in Hdrop |- *. cbn [fst] in Hdrop.
  unfold step. rewrite Hlook, Ha, Hty, Hdrop, Hhas. reflexivity.
Qed.

Lemma inside_stays o (tokens : list Token) a n :
  Spec.inside_before o tokens a = true ->
  (forall m tm, (a <= m < a + n)%nat -> tokens !! m = Some tm ->
                type tm <> "bullet_list_close") ->
  Spec.inside_before o tokens (a + n) = true.
Proof.
  intros Ha. induction n as [|n IH]; intros Hno.
  - rewrite Nat.add_0_r. exact Ha.
  - replace (a + S n)%nat with (S (a + n)) by lia. rewrite inside_before_S.
    destruct (state_before o tokens (a + n)) as (toks & Hst & Hlook & _).
    rewrite Hst, IH by (intros m tm Hm; apply Hno; lia).
    unfold step. rewrite Hlook.
    destruct (tokens !! (a + n)%nat) as [t|] eqn:Ht; [|reflexivity].
    destruct (String.eqb (type t) "bullet_list_open").
    { destruct (has_task_items _); reflexivity. }
    destruct (String.eqb_spec (type t) "bullet_list_close") as [Hc|_].
    { exfalso. apply (Hno (a + n)%nat t); [lia | exact Ht | exact Hc]. }
    cbn [andb].
    destruct (String.eqb (type t) "list_item_open"); [reflexivity |].
    destruct (String.eqb (type t) "inline"); [|reflexivity]. cbn [andb].
    destruct (task_match (content t)) as [[? ?]|]; reflexivity.
Qed.

Lemma in_reach_inside o (tokens : list Token) i :
  Spec.in_reach tokens i -> Spec.inside_before o tokens i = true.
Proof.
  intros (a & t & Hlt & Ha & Hty & Hhas & Hno).
  replace i with (S a + (i - S a))%nat by lia.
  apply inside_stays.
  - exact (inside_after_open o tokens a t Ha Hty Hhas).
  - intros m tm Hm. apply Hno. lia.
Qed.



Lemma inline_matched_rewritten o (tokens : list Token) i t c rest :
  tokens !! i = Some t ->
  type t = "inline" ->
  Spec.inside_before o tokens i = true ->
  task_match (content t) = Some (c, rest) ->
  task_list o tokens !! i =
  Some (set_children (set_content t rest) (task_children (label_of o) (isChecked c) rest)).
Proof.
  intros Hi Hty Hin Hm.
  destruct (state_before o tokens i) as (toks & Hst & Hlook & Hlen).
  rewrite Hi in Hlook. rewrite Hin in Hst.
  destruct (token_after_own_step o tokens i
              (set_children (set_content t rest) (task_children (label_of o) (isChecked c) rest)))
    as (t' & Hres & _ & Heq & _).
  { rewrite Hst. unfold step. rewrite Hlook, Hty, Hm. cbn [fst].
    apply list_lookup_insert_eq. rewrite mark_parent_length. eapply lookup_lt_Some; eauto. }
  rewrite Hres, Heq; [reflexivity |].
  cbn [type set_children set_content]. rewrite Hty. discriminate.
Qed.

#[local] Abbreviation dc := "data-checked" (only parsing).
#[local] Abbreviation lio := "list_item_open" (only parsing).

(** What [mark_parent] does to each token: nothing, or it sets
    [data-checked] on the nearest item-open token before [k]. *)
Lemma mark_parent_spec k v (toks : list Token) j t :
  toks !! j = Some t ->
  exists t', mark_parent k v toks !! j = Some t'
    /\ (t' = t
        \/ (t' = attrSet t dc v /\ (j < k)%nat /\ type t = lio
            /\ forall m tm, (j < m < k)%nat -> toks !! m = Some tm -> type tm <> lio)).
Proof.
  intros Hj. induction k as [|k IH]; cbn [mark_parent].
  - exists t. auto.
  - assert (Hskip : (forall tk, toks !! k = Some tk -> type tk <> lio) ->
        exists t', mark_parent k v toks !! j = Some t'
          /\ (t' = t
              \/ (t' = attrSet t dc v /\ (j < S k)%nat /\ type t = lio
                  /\ forall m tm, (j < m < S k)%nat -> toks !! m = Some tm -> type tm <> lio))).
    { intros Hk. destruct IH as (t' & Hl & [-> | (-> & Hlt & Hty & Hbetween)]).
      - exists t. auto.
      - exists (attrSet t dc v). split; [exact Hl | right].
        repeat split; [lia | exact Hty |].
        intros m tm Hm Hlook. destruct (decide (m = k)) as [->|Hne].
        + eauto.
        + apply (Hbetween m tm); [lia | exact Hlook]. }
    destruct (toks !! k) as [tk|] eqn:Hk; [|apply Hskip; discriminate].
    destruct (String.eqb (type tk) lio) eqn:Ety.
    + apply String.eqb_eq in Ety.
      destruct (decide (k = j)) as [->|Hne].
      * rewrite Hj in Hk. inversion Hk; subst tk.
        exists (attrSet t dc v). split.
        -- apply list_lookup_insert_eq. eapply lookup_lt_Some; eauto.
        -- right. repeat split; [lia | exact Ety | intros; lia].
      * exists t. split; [|auto].
        rewrite list_lookup_insert_ne by exact Hne. exact Hj.
    + apply Hskip. intros tk' Heq. inversion Heq; subst tk'.
      intros Habs. rewrite Habs in Ety. discriminate.
Qed.

Lemma attrSet_type t n v : type (attrSet t n v) = type t.
Proof. reflexivity. Qed.






(** The engine is built with [label: true] (the plugin's default is
    [false]); so a matching inline token in the reach of the opening
    token of a marked list gets a single [html_inline] child in which the
    checkbox and the remaining text stand together inside one [label]
    element. *)
Lemma md_task_item_label (tokens : list Token) (i : nat) (t : Token) (c : ascii) (rest : string) :
  tokens !! i = Some t ->
  type t = "inline" ->
  Spec.in_reach tokens i ->
  task_match (content t) = Some (c, rest) ->
  label_of md_options = true
  /\ label_of default_options = false
  /\ md_task_list tokens !! i =
     Some (set_children (set_content t rest)
             [set_content (newToken "html_inline" EmptyString 0)
                ("<label>" +:+ checkbox (isChecked c) +:+ " " +:+ rest +:+ "</label>")]).
Proof.
  intros Hi Hty Hin Hm. split; [reflexivity | split; [reflexivity |]].
  exact (inline_matched_rewritten md_options tokens i t c rest Hi Hty
           (in_reach_inside md_options tokens i Hin) Hm).
Qed.

(** C2.  An item written with the upper-case marker is not recognized:
    neither expression of the rule accepts [X], so a list whose only item
    is written that way leaves the rule without any annotation. *)
Theorem uppercase_marker_not_recognized (o : TaskListOptions) (rest : string) :
  task_test ("[X] " +:+ rest) = false
  /\ task_match ("[X] " +:+ rest) = None
  /\ task_list o (Stream.bullet_list ["[X] " +:+ rest]) = Stream.bullet_list ["[X] " +:+ rest].
Proof. repeat split. Qed.

(** The flag [inside_task_list] is not a stack: the closing token of a
    nested list clears it, and a task item that follows in the outer list
    is left as it is. *)
Lemma item_after_nested_list_untouched :
  Spec.inside_before md_options Examples.nested_list 15 = false
  /\ md_task_list Examples.nested_list !! 13%nat = Examples.nested_list !! 13%nat
  /\ md_task_list Examples.nested_list !! 15%nat = Some (Stream.inline_token "[x] c").
Proof. repeat split. Qed.

End TaskListFacts.



(** C9.  The engine is built with [label: true], and the first item of
    the list [- [x] a], [  - b], [- [x] c] gets its checkbox and its text
    inside one [label] element; but the third item, which matches the
    task pattern as well, comes after the nested list: the closing token
    of the nested list has cleared the flag of the loop, and the item
    leaves the rule as it entered it, with no label and no checkbox. *)
Theorem label_missing_after_nested_list :
  TaskList.label_of TaskList.md_options = true
  /\ TaskList.task_match "[x] a" = Some ("x"%char, "a")
  /\ TaskList.md_task_list Examples.nested_list !! 3%nat
     = Some (set_children (set_content (Stream.inline_token "[x] a") "a")
               [set_content (newToken "html_inline" EmptyString 0)
                  ("<label>" +:+ TaskList.checkbox true +:+ " a</label>")])
  /\ TaskList.task_match "[x] c" = Some ("x"%char, "c")
  /\ Examples.nested_list !! 15%nat = Some (Stream.inline_token "[x] c")
  /\ TaskList.md_task_list Examples.nested_list !! 15%nat
     = Some (Stream.inline_token "[x] c").
Proof. repeat split. Qed.

(** On [- [x] efgh]: the checked box and the text inside one label. *)
Lemma md_task_item_label_witness :
  TaskList.md_task_list (Stream.bullet_list ["[x] efgh"]) !! 3%nat =
  Some (set_children (set_content (Stream.inline_token "[x] efgh") "efgh")
          [set_content (newToken "html_inline" EmptyString 0)
             ("<label><input type=" +:+ Js.dq +:+ "checkbox" +:+ Js.dq
              +:+ " checked disabled> efgh</label>")]).
Proof.
  assert (Hin : Spec.in_reach (Stream.bullet_list ["[x] efgh"]) 3).
  { exists 0%nat, (Stream.block_token "bullet_list_open" "ul" 1).
    repeat split; try reflexivity; [lia |].
    intros m tm Hm Hlook. assert (Hcases : m = 1%nat \/ m = 2%nat) by lia.
    destruct Hcases as [-> | ->]; inversion Hlook; discriminate. }
  exact (proj2 (proj2 (md_task_item_label (Stream.bullet_list ["[x] efgh"]) 3%nat
                         (Stream.inline_token "[x] efgh") "x"%char "efgh"
                         eq_refl eq_refl Hin eq_refl))).
Defined.

(* ===================================================================== *)
(** * The math rules *)
(* ===================================================================== *)

Section MathFacts.

Import Katex.

Lemma indexOf_contains (s p : string) : (Js.indexOf s p =? -1) = negb (Js.contains s p).
Proof.
  unfold Js.indexOf, Js.indexOf_from, Js.contains.
  replace (Z.to_nat (Z.max 0 (Z.min 0 (Js.len s)))) with O by (unfold Js.len; lia).
  cbn [Js.drop]. destruct (Js.find p s) as [j|]; [|reflexivity].
  apply Z.eqb_neq. lia.
Qed.

Lemma prefix_take (p s : string) (n : nat) :
  (String.length p <= n)%nat -> Js.startsWith p (Js.take n s) = Js.startsWith p s.
Proof.
  revert s n. induction p as [|c p IH]; intros s n Hle; [reflexivity |].
  cbn [String.length] in Hle. destruct n as [|n]; [lia |].
  destruct s as [|d s]; [reflexivity |]. cbn [Js.take Js.startsWith].
  rewrite IH by lia. reflexivity.
Qed.

Lemma find_take (p s : string) (n j : nat) :
  Js.find p s = Some j -> (j + String.length p <= n)%nat -> Js.find p (Js.take n s) = Some j.
Proof.
  revert n j. induction s as [|c s IH]; intros n j Hfind Hle.
  - cbn [Js.find] in Hfind. destruct (Js.startsWith p EmptyString) eqn:E; [|discriminate].
    inversion Hfind; subst j. destruct p; [|discriminate]. destruct n; reflexivity.
  - cbn [Js.find] in Hfind. destruct (Js.startsWith p (String c s)) eqn:E.
    + inversion Hfind; subst j. 
      assert (E' : Js.startsWith p (Js.take n (String c s)) = true)
        by (rewrite prefix_take; [exact E | lia]).
      destruct (Js.take n (String c s)); cbn [Js.find]; rewrite E'; reflexivity.
    + destruct (Js.find p s) as [j'|] eqn:Hs; [|discriminate].
      cbn in Hfind. inversion Hfind; subst j.
      destruct n as [|n]; [lia |]. cbn [Js.take Js.find].
      assert (E' : Js.startsWith p (String c (Js.take n s)) = false).
      { change (String c (Js.take n s)) with (Js.take (S n) (String c s)).
        rewrite prefix_take; [exact E | lia]. }
      rewrite E'. rewrite (IH n j' eq_refl) by lia. reflexivity.
Qed.

Lemma prefix_length (p s : string) :
  Js.startsWith p s = true -> (String.length p <= String.length s)%nat.
Proof.
  revert s. induction p as [|c p IH]; intros s H; cbn [String.length]; [lia |].
  destruct s as [|d s]; [discriminate |]. cbn [Js.startsWith String.length] in *.
  apply andb_true_iff in H. destruct H as [_ H]. apply IH in H. lia.
Qed.

Lemma find_length (p s : string) (j : nat) :
  Js.find p s = Some j -> (j + String.length p <= String.length s)%nat.
Proof.
  revert j. induction s as [|c s IH]; intros j H; cbn [Js.find] in H.
  - destruct (Js.startsWith p EmptyString) eqn:E; [|discriminate].
    inversion H; subst j. apply prefix_length in E. lia.
  - destruct (Js.startsWith p (String c s)) eqn:E.
    + inversion H; subst j. apply prefix_length in E. lia.
    + destruct (Js.find p s) as [j'|]; [|discriminate]. cbn in H. inversion H; subst j.
      specialize (IH j' eq_refl). cbn [String.length]. lia.
Qed.

Lemma drop_length (n : nat) (s : string) :
  String.length (Js.drop n s) = (String.length s - n)%nat.
Proof.
  revert s. induction n as [|n IH]; intros s; cbn [Js.drop]; [lia |].
  destruct s as [|c s]; [reflexivity |]. cbn [String.length]. rewrite IH. lia.
Qed.

Lemma get_drop (n : nat) (s : string) (c : ascii) :
  String.get n s = Some c -> Js.drop n s = String c (Js.drop (S n) s).
Proof.
  revert s. induction n as [|n IH]; intros s H.
  - destruct s as [|d s]; [discriminate |]. cbn in H. inversion H. reflexivity.
  - destruct s as [|d s]; [discriminate |]. cbn [String.get] in H.
    cbn [Js.drop]. rewrite (IH s H). reflexivity.
Qed.

Lemma code_dollar (c : ascii) : Js.code c = 36 -> c = "$"%char.
Proof.
  unfold Js.code. intros H.
  assert (HN : N_of_ascii c = 36%N) by lia.
  rewrite <- (ascii_N_embedding c), HN. reflexivity.
Qed.

Lemma is_dollar_at (s : string) (i : Z) :
  is_dollar (Js.charCodeAt s i) = true ->
  0 <= i < Js.len s /\ String.get (Z.to_nat i) s = Some "$"%char.
Proof.
  unfold Js.charCodeAt, is_dollar.
  destruct ((i <? 0) || (Js.len s <=? i)) eqn:E; [discriminate |].
  apply orb_false_iff in E. destruct E as [E1 E2].
  apply Z.ltb_ge in E1. apply Z.leb_gt in E2.
  destruct (String.get (Z.to_nat i) s) as [c|]; [|discriminate].
  intros H. apply Z.eqb_eq in H. apply code_dollar in H. subst c. auto.
Qed.

(** Two dollar signs at [i] and [i + 1]: the text from [i] begins with
    the delimiter. *)
Lemma dollars_drop (s : string) (i : Z) :
  is_dollar (Js.charCodeAt s i) = true ->
  is_dollar (Js.charCodeAt s (i + 1)) = true ->
  0 <= i /\ i + 2 <= Js.len s
  /\ exists r, Js.drop (Z.to_nat i) s = String "$"%char (String "$"%char r).
Proof.
  intros H1 H2. apply is_dollar_at in H1, H2.
  destruct H1 as [R1 G1], H2 as [R2 G2].
  split; [lia |]. split; [lia |].
  rewrite (get_drop _ _ _ G1).
  replace (Z.to_nat (i + 1)) with (S (Z.to_nat i)) in G2 by lia.
  rewrite (get_drop _ _ _ G2). eauto.
Qed.

Lemma clamp_nonneg (s : string) (i : Z) :
  0 <= i -> Js.clamp_index s i = Z.to_nat (Z.min i (Js.len s)).
Proof.
  intros H. unfold Js.clamp_index. destruct (i <? 0) eqn:E; [apply Z.ltb_lt in E; lia | reflexivity].
Qed.

Lemma line_starting_with_dollars (s : string) (a e : Z) :
  a + 2 <= e ->
  is_dollar (Js.charCodeAt s a) = true ->
  is_dollar (Js.charCodeAt s (a + 1)) = true ->
  Js.contains (Js.slice s a e) "$$" = true.
Proof.
  intros Hle H1 H2. destruct (dollars_drop s a H1 H2) as (H0 & Hlen & r & Hdrop).
  unfold Js.slice, Js.contains. rewrite !clamp_nonneg by lia.
  replace (Z.to_nat (Z.min a (Js.len s))) with (Z.to_nat a) by lia.
  rewrite Hdrop.
  remember (Z.to_nat (Z.min e (Js.len s)) - Z.to_nat a)%nat as n.
  destruct n as [|[|n]]; [lia | lia |]. reflexivity.
Qed.

(** A delimiter found by [indexOf] at most two characters before the end
    of the line lies in the rest of the opening line. *)
Lemma same_line_close_found (s : string) (startPos maxPos : Z) :
  is_dollar (Js.charCodeAt s startPos) = true ->
  is_dollar (Js.charCodeAt s (startPos + 1)) = true ->
  let q := Js.indexOf_from s "$$" (startPos + 2) in
  q <> -1 -> q <= maxPos - 2 ->
  Js.contains (Js.slice s (startPos + 2) maxPos) "$$" = true.
Proof.
  intros H1 H2 q Hq Hle. destruct (dollars_drop s startPos H1 H2) as (H0 & Hlen & _).
  unfold q, Js.indexOf_from in *.
  replace (Z.to_nat (Z.max 0 (Z.min (startPos + 2) (Js.len s))))
    with (Z.to_nat (startPos + 2)) in * by lia.
  destruct (Js.find "$$" (Js.drop (Z.to_nat (startPos + 2)) s)) as [j|] eqn:Hfind;
    [|contradiction].
  pose proof (find_length _ _ _ Hfind) as Hfl. rewrite drop_length in Hfl.
  cbn [String.length] in Hfl. unfold Js.len in *.
  unfold Js.slice, Js.contains. rewrite !clamp_nonneg by lia.
  replace (Z.to_nat (Z.min (startPos + 2) (Js.len s))) with (Z.to_nat (startPos + 2))
    by (unfold Js.len; lia).
  rewrite (find_take _ _ _ j Hfind); [reflexivity |].
  cbn [String.length]. unfold Js.len. lia.
Qed.

Lemma line_text_marks (s : BlockState) (l : Z) (txt : string) :
  Spec.line_text s l = Some txt ->
  exists b t e, mark (bMarks s) l = Some b /\ mark (tShift s) l = Some t
                /\ mark (eMarks s) l = Some e /\ txt = Js.slice (src s) (b + t) e.
Proof.
  unfold Spec.line_text.
  destruct (mark (bMarks s) l) as [b|]; [|discriminate].
  destruct (mark (tShift s) l) as [t|]; [|discriminate].
  destruct (mark (eMarks s) l) as [e|]; [|discriminate].
  cbn. intros H. inversion H. eauto 8.
Qed.

Lemma opening_rest_marks (s : BlockState) (l : Z) (txt : string) :
  Spec.opening_rest s l = Some txt ->
  exists b t e, mark (bMarks s) l = Some b /\ mark (tShift s) l = Some t
                /\ mark (eMarks s) l = Some e /\ txt = Js.slice (src s) (b + t + 2) e.
Proof.
  unfold Spec.opening_rest.
  destruct (mark (bMarks s) l) as [b|]; [|discriminate].
  destruct (mark (tShift s) l) as [t|]; [|discriminate].
  destruct (mark (eMarks s) l) as [e|]; [|discriminate].
  cbn. intros H. inversion H. eauto 8.
Qed.

(** The loop over the lines after the opening one runs to [endLine] when
    none of them holds a delimiter. *)
Lemma scan_unterminated (s : BlockState) (startLine : Z) (n : nat) :
  forall nextLine,
  (forall l, nextLine <= l < nextLine + Z.of_nat n ->
             exists txt, Spec.line_text s l = Some txt /\ Js.contains txt "$$" = false) ->
  scan s startLine nextLine n = Some None.
Proof.
  induction n as [|n IH]; intros nextLine Hlines; [reflexivity |].
  destruct (Hlines nextLine ltac:(lia)) as (txt & Htxt & Hno).
  destruct (line_text_marks s nextLine txt Htxt) as (b & t & e & Hb & Ht & He & ->).
  cbn [scan]. rewrite Hb, Ht, He. cbn [mbind option_bind].
  rewrite indexOf_contains, Hno. cbn [negb].
  destruct ((b + t + 2 <=? e)
            && is_dollar (Js.charCodeAt (src s) (b + t))
            && is_dollar (Js.charCodeAt (src s) (b + t + 1))) eqn:E.
  - apply andb_true_iff in E. destruct E as [E E3].
    apply andb_true_iff in E. destruct E as [E1 E2]. apply Z.leb_le in E1.
    rewrite (line_starting_with_dollars (src s) (b + t) e E1 E2 E3) in Hno. discriminate.
  - apply IH. intros l Hl. apply Hlines. lia.
Qed.

Lemma math_block_gives_up (s : BlockState) (startLine endLine : Z) :
  Spec.unterminated s startLine endLine ->
  math_block s startLine endLine false = Some (false, s).
Proof.
  intros ((txt & Hrest & Hno) & Hlater).
  destruct (opening_rest_marks s startLine txt Hrest) as (b & t & e & Hb & Ht & He & ->).
  unfold math_block. rewrite Hb, Ht, He. cbn [mbind option_bind].
  destruct (b + t + 2 >? e); [reflexivity |].
  destruct (is_dollar (Js.charCodeAt (src s) (b + t))) eqn:E1; [|reflexivity].
  destruct (is_dollar (Js.charCodeAt (src s) (b + t + 1))) eqn:E2; [|reflexivity].
  cbn [negb orb].
  destruct (negb (Js.indexOf_from (src s) "$$" (b + t + 2) =? -1)
            && (Js.indexOf_from (src s) "$$" (b + t + 2) <=? e - 2)) eqn:E.
  - apply andb_true_iff in E. destruct E as [Eq Ele].
    apply negb_true_iff, Z.eqb_neq in Eq. apply Z.leb_le in Ele.
    rewrite (same_line_close_found (src s) (b + t) e E1 E2 Eq Ele) in Hno. discriminate.
  - rewrite scan_unterminated; [reflexivity |].
    intros l Hl. apply Hlater. lia.
Qed.

(** Two dollar signs in a row in the text of a paragraph are a formula
    without content for the inline rule. *)
Lemma math_inline_two_dollars (text : string) (p : Z) :
  is_dollar (Js.charCodeAt text p) = true ->
  is_dollar (Js.charCodeAt text (p + 1)) = true ->
  math_inline (Spec.paragraph_state text p) false
  = (true,
     {| isrc := text; pos := p + 2; posMax := Js.len text;
        itokens := [Spec.empty_formula] |}).
Proof.
  intros H1 H2. pose proof (is_dollar_at text p H1) as [Hp _].
  pose proof (is_dollar_at text (p + 1) H2) as [Hp1 Hget].
  unfold math_inline, Spec.paragraph_state. cbn [pos posMax isrc itokens].
  destruct (Z.geb_spec p (Js.len text)) as [Hge|_]; [lia |].
  rewrite H1. cbn [negb orb].
  assert (Hclose : Js.indexOf_from text "$" (p + 1) = p + 1).
  { unfold Js.indexOf_from.
    replace (Z.to_nat (Z.max 0 (Z.min (p + 1) (Js.len text)))) with (Z.to_nat (p + 1)) by lia.
    rewrite (get_drop _ _ _ Hget). cbn [Js.find Js.startsWith].
    change (Ascii.eqb "$"%char "$"%char) with true. cbn [andb]. lia. }
  rewrite Hclose.
  destruct (Z.eqb_spec (p + 1) (-1)) as [He|_]; [lia |].
  destruct (Z.gtb_spec (p + 1) (Js.len text)) as [Hgt|_]; [lia |].
  cbn [orb].
  assert (Hslice : Js.slice text (p + 1) (p + 1) = EmptyString).
  { unfold Js.slice. rewrite Nat.sub_diag. reflexivity. }
  rewrite Hslice. change (Js.indexOf EmptyString (String "010"%char EmptyString) =? -1) with true.
  cbn [negb]. cbn iota. replace (p + 1 + 1) with (p + 2) by lia. reflexivity.
Qed.

(** C7 (amended).  A block opened at [startLine] whose closing delimiter
    is found neither on the opening line nor on a line before [endLine]
    is rejected: the rule returns [false], pushes no token and leaves the
    state as it was, so that the engine goes on with its other rules; no
    error is raised.  The text is not all ordinary text for those rules:
    wherever two dollar signs stand in a row in the text of a paragraph,
    the inline rule of the same plugin accepts them as a formula without
    content and moves past them. *)
Theorem math_block_unterminated (s : BlockState) (startLine endLine : Z) :
  (Spec.unterminated s startLine endLine ->
   math_block s startLine endLine false = Some (false, s))
  /\ (forall (text : string) (p : Z),
        is_dollar (Js.charCodeAt text p) = true ->
        is_dollar (Js.charCodeAt text (p + 1)) = true ->
        math_inline (Spec.paragraph_state text p) false
        = (true,
           {| isrc := text; pos := p + 2; posMax := Js.len text;
              itokens := [Spec.empty_formula] |})).
Proof.
  split; [apply math_block_gives_up | apply math_inline_two_dollars].
Qed.

(** C8.  When the text between the dollar sign at [pos] and the next one
    holds a newline, the rule returns [false] and leaves the state as it
    was; and whenever the rule accepts, that text holds no newline and
    the position moves just after the closing dollar sign. *)
Theorem math_inline_single_line (s : InlineState) (silent : bool) :
  (Js.contains (Spec.candidate_span s) Spec.newline = true ->
   math_inline s silent = (false, s))
  /\ (fst (math_inline s silent) = true ->
      Js.contains (Spec.candidate_span s) Spec.newline = false
      /\ is_dollar (Js.charCodeAt (isrc s) (pos s)) = true
      /\ pos (snd (math_inline s silent)) = Js.indexOf_from (isrc s) "$" (pos s + 1) + 1).
Proof.
  unfold math_inline, Spec.candidate_span, Spec.newline.
  destruct (pos s >=? posMax s); [split; [reflexivity | discriminate] |].
  destruct (is_dollar (Js.charCodeAt (isrc s) (pos s))); [|split; [reflexivity | discriminate]].
  cbn [negb orb].
  destruct ((Js.indexOf_from (isrc s) "$" (pos s + 1) =? -1)
            || (Js.indexOf_from (isrc s) "$" (pos s + 1) >? posMax s));
    [split; [reflexivity | discriminate] |].
  rewrite indexOf_contains, negb_involutive.
  destruct (Js.contains _ _); split; try reflexivity; try discriminate.
  intros _. auto.
Qed.

End MathFacts.

(** On the three-line document [$$], [a+b], [c] the block rule gives
    up, and the inline rule takes the two dollar signs at the start of
    the paragraph the three lines make. *)
Lemma math_block_unterminated_witness :
  Katex.math_block Examples.unterminated_state 0 3 false
  = Some (false, Examples.unterminated_state)
  /\ Katex.math_inline
       (Spec.paragraph_state (Katex.src Examples.unterminated_state) 0) false
     = (true,
        {| Katex.isrc := Katex.src Examples.unterminated_state;
           Katex.pos := 0 + 2;
           Katex.posMax := Js.len (Katex.src Examples.unterminated_state);
           Katex.itokens := [Spec.empty_formula] |}).
Proof.
  destruct (math_block_unterminated Examples.unterminated_state 0 3) as [Hblock Hinline].
  split.
  - apply Hblock. split.
    + exists EmptyString. split; reflexivity.
    + intros l Hl. assert (Hcases : l = 1 \/ l = 2) by lia.
      destruct Hcases as [-> | ->]; eexists; split; reflexivity.
  - apply Hinline; reflexivity.
Defined.

(** C7, as stated, fails on that document: the block rule rejects it,
    and the paragraph its three lines make is not ordinary text, the
    inline rule accepting at its first character. *)
Lemma unterminated_not_ordinary_text_counterexample :
  Katex.math_block Examples.unterminated_state 0 3 false
  = Some (false, Examples.unterminated_state)
  /\ ~ Spec.ordinary_text (Katex.src Examples.unterminated_state).
Proof.
  split; [reflexivity |]. intros H.
  specialize (H 0 ltac:(split; [reflexivity | reflexivity])). discriminate H.
Qed.

(** On [x $a], newline, [+b$ y] the dollar sign at 2 opens nothing. *)
Lemma math_inline_single_line_witness :
  Katex.math_inline Examples.broken_span_state false = (false, Examples.broken_span_state).
Proof.
  exact (proj1 (math_inline_single_line Examples.broken_span_state false) eq_refl).
Defined.

(* ===================================================================== *)
(** * The custom-tag guard *)
(* ===================================================================== *)

Section GuardFacts.

Lemma drop_app (a b : string) : Js.drop (String.length a) (a +:+ b) = b.
Proof. induction a as [|x a IH]; [reflexivity | exact IH]. Qed.

Lemma take_app (a b : string) : Js.take (String.length a) (a +:+ b) = a.
Proof.
  induction a as [|x a IH]; [destruct b; reflexivity |].
  rewrite append_cons. cbn [String.length Js.take]. now rewrite IH.
Qed.

Lemma len_append (a b : string) : Js.len (a +:+ b) = Js.len a + Js.len b.
Proof. unfold Js.len. rewrite length_append. lia. Qed.

Lemma len_nonneg (a : string) : 0 <= Js.len a.
Proof. unfold Js.len. lia. Qed.

(** The slice that starts after [a] and has the length of [b]. *)
Lemma slice_app3 (a b c : string) (i j : Z) :
  i = Js.len a -> j = Js.len a + Js.len b -> Js.slice (a +:+ b +:+ c) i j = b.
Proof.
  intros -> ->. pose proof (len_nonneg a). pose proof (len_nonneg b). pose proof (len_nonneg c).
  unfold Js.slice. rewrite !clamp_nonneg by lia. rewrite !len_append.
  replace (Z.to_nat (Z.min (Js.len a) (Js.len a + (Js.len b + Js.len c))))
    with (String.length a) by (unfold Js.len in *; lia).
  replace (Z.to_nat (Z.min (Js.len a + Js.len b) (Js.len a + (Js.len b + Js.len c)))
           - String.length a)%nat
    with (String.length b) by (unfold Js.len in *; lia).
  rewrite drop_app. apply take_app.
Qed.












End GuardFacts.


(* ===================================================================== *)
(** * The facade *)
(* ===================================================================== *)

Section RecordedFacts.

Lemma recorded_encode_plain : Contract.encode_plain Recorded.packages.
Proof.
  intros named s. induction s as [|c s IH]; intros H; [reflexivity |].
  cbn [Contract.plain] in H. apply andb_true_iff in H. destruct H as [Hc Hs].
  cbn [Recorded.packages he_encode Recorded.he_encode] in *.
  rewrite (IH Hs).
  replace (Recorded.encode_char named c) with (String c EmptyString); [reflexivity |].
  unfold Recorded.encode_char. unfold Contract.is_plain in Hc.
  apply andb_true_iff in Hc. destruct Hc as [_ Hc]. apply negb_true_iff in Hc.
  repeat (apply orb_false_iff in Hc; destruct Hc as [Hc ?]).
  repeat match goal with H : (_ =? _) = false |- _ => rewrite H; clear H end.
  reflexivity.
Qed.

Lemma recorded_decode_fuel (fuel : nat) (s : string) :
  Contract.has_char "&"%char s = false -> Recorded.decode fuel s = s.
Proof.
  revert s. induction fuel as [|fuel IH]; intros s H; [reflexivity |].
  destruct s as [|c s]; [reflexivity |].
  cbn [Contract.has_char] in H. apply orb_false_iff in H. destruct H as [Hc Hs].
  cbn [Recorded.decode].
  replace (Recorded.entity_at Recorded.entities (String c s)) with (@None (ascii * nat)).
  - rewrite (IH s Hs). reflexivity.
  - unfold Recorded.entities. cbn [Recorded.entity_at Js.startsWith]. rewrite Hc. reflexivity.
Qed.

Lemma recorded_decode_plain : Contract.decode_plain Recorded.packages.
Proof. intros s H. apply recorded_decode_fuel. exact H. Qed.

Lemma recorded_parser_plain : Contract.parser_plain Recorded.packages.
Proof.
  intros s evs H. cbn [Recorded.packages parser_events]. unfold Recorded.parser_events.
  repeat match goal with
         | |- context [String.eqb s ?x] =>
             destruct (String.eqb_spec s x) as [->|_]; [discriminate H |]
         end.
  rewrite H. intros E. inversion E. reflexivity.
Qed.

Lemma recorded_render_blank : Contract.render_blank Recorded.packages.
Proof.
  intros s h H. cbn [Recorded.packages md_render]. unfold Recorded.md_render.
  repeat match goal with
         | |- context [String.eqb s ?x] =>
             destruct (String.eqb_spec s x) as [->|_]; [discriminate H |]
         end.
  rewrite H. intros E. inversion E. reflexivity.
Qed.

Lemma recorded_turndown_blank : Contract.turndown_blank Recorded.packages.
Proof.
  intros s t H. cbn [Recorded.packages turndown]. unfold Recorded.turndown.
  repeat match goal with
         | |- context [String.eqb s ?x] =>
             destruct (String.eqb_spec s x) as [->|_]; [discriminate H |]
         end.
  rewrite H. intros E. inversion E. reflexivity.
Qed.

End RecordedFacts.

Section FacadeFacts.

Variable P : Packages.

Lemma md_space_cases (c : ascii) :
  Contract.is_md_space c = true ->
  Js.is_space c = true /\ Ascii.eqb "<"%char c = false /\ Ascii.eqb "!"%char c = false.
Proof.
  destruct c as [[] [] [] [] [] [] [] []]; intros H; try discriminate H; repeat split.
Qed.

Lemma md_blank_no_lt (s : string) :
  Contract.md_blank s = true -> Contract.has_char "<"%char s = false.
Proof.
  induction s as [|c s IH]; intros H; [reflexivity |].
  cbn [Contract.md_blank] in H. apply andb_true_iff in H. destruct H as [Hc Hs].
  cbn [Contract.has_char]. destruct (md_space_cases c Hc) as (_ & -> & _). exact (IH Hs).
Qed.

Lemma md_blank_trim (s : string) : Contract.md_blank s = true -> Js.trim s = EmptyString.
Proof.
  unfold Js.trim. induction s as [|c s IH]; intros H; [reflexivity |].
  cbn [Contract.md_blank] in H. apply andb_true_iff in H. destruct H as [Hc Hs].
  cbn [Js.trimStart]. destruct (md_space_cases c Hc) as (-> & _ & _). exact (IH Hs).
Qed.

Lemma image_match_not_bang (c : ascii) (s : string) :
  Ascii.eqb "!"%char c = false -> Facade.image_match (String c s) = None.
Proof.
  destruct c as [[] [] [] [] [] [] [] []]; intros H; try discriminate H; reflexivity.
Qed.

Lemma md_blank_no_image (fuel : nat) (s : string) :
  Contract.md_blank s = true -> Facade.replace_images fuel s = s.
Proof.
  revert s. induction fuel as [|fuel IH]; intros s H; [reflexivity |].
  destruct s as [|c s]; [reflexivity |].
  cbn [Contract.md_blank] in H. apply andb_true_iff in H. destruct H as [Hc Hs].
  destruct (md_space_cases c Hc) as (_ & _ & Hbang).
  cbn [Facade.replace_images]. rewrite (image_match_not_bang c s Hbang), (IH s Hs).
  reflexivity.
Qed.

Lemma guard_no_events (tags : list string) (html : string) : Guard.run tags [] html = html.
Proof.
  unfold Guard.run, Guard.onend, Js.slice_from, Js.clamp_index. cbn.
  replace (Z.to_nat (Z.min 0 (Js.len html))) with O by (unfold Js.len; lia).
  reflexivity.
Qed.

Lemma markdownToHtml_returns (v : JsValue) : exists s, Facade.markdownToHtml P v = Ok s.
Proof.
  destruct v as [| |[|c m]|]; cbn [Facade.markdownToHtml]; eauto.
  unfold try_catch.
  destruct (md_render P _ ≫= _); eauto.
Qed.


Lemma markdownToHtml_blank (s : string) :
  Contract.render_blank P -> Contract.md_blank s = true ->
  Facade.markdownToHtml P (JsString s) = Ok EmptyString.
Proof.
  intros Hrender Hs. destruct s as [|c s]; [reflexivity |].
  cbn [Facade.markdownToHtml]. unfold Facade.processMarkdown.
  rewrite (md_blank_no_image _ _ Hs).
  destruct (md_render P (String c s)) as [h|e] eqn:E; [|reflexivity].
  rewrite (Hrender _ _ Hs E). cbn [mbind result_bind bind].
  unfold Facade.wrap_single_tag. rewrite (md_blank_trim _ Hs). reflexivity.
Qed.

Lemma htmlToMarkdown_blank (s : string) :
  Contract.parser_plain P -> Contract.turndown_blank P -> Contract.decode_plain P ->
  Contract.md_blank s = true ->
  Facade.htmlToMarkdown P (JsString s) = Ok EmptyString.
Proof.
  intros Hparse Hturn Hdec Hs. destruct s as [|c s]; [reflexivity |].
  cbn [Facade.htmlToMarkdown]. unfold Guard.escapeCustomTags.
  destruct (parser_events P (String c s)) as [evs|e] eqn:E; [|reflexivity].
  rewrite (Hparse _ _ (md_blank_no_lt _ Hs) E). cbn [mbind result_bind bind].
  rewrite guard_no_events.
  destruct (turndown P (String c s)) as [t|e] eqn:Et; [|reflexivity].
  cbn [mbind result_bind bind try_catch]. rewrite (Hturn _ _ Hs Et). rewrite Hdec; reflexivity.
Qed.






(** C10.  On the self-closing standard tag [<br/>] the captured name is
    [br/], slash included, which no vocabulary of tag names holds: the
    rendered output is wrapped in a paragraph although [br] is a standard
    name. *)
Theorem markdownToHtml_self_closing_standard (h : string) :
  Js.includes (htmlTags P) "br" = true ->
  Js.includes (htmlTags P) "br/" = false ->
  md_render P "<br/>" = Ok h ->
  Js.trim h = "<br/>" ->
  Js.includes (htmlTags P) (Js.toLowerCase "br") = true
  /\ Facade.single_tag_match "<br/>" = Some "br/"
  /\ Facade.markdownToHtml P (JsString "<br/>") = Ok ("<p>" +:+ h +:+ "</p>").
Proof.
  intros Hbr Hslash Hrender Htrim. split; [exact Hbr | split; [reflexivity |]].
  cbn [Facade.markdownToHtml].
  change (Facade.processMarkdown "<br/>") with "<br/>".
  rewrite Hrender. cbn [mbind result_bind bind try_catch].
  unfold Facade.wrap_single_tag. rewrite Htrim.
  change (Js.trim "<br/>") with "<br/>".
  change (Facade.single_tag_match "<br/>") with (Some "br/").
  change ("<br/>" =? "<br/>")%string with true. cbn iota.
  change (Js.toLowerCase "br/") with "br/".
  rewrite Hslash. reflexivity.
Qed.

Lemma guard_math_container (tags : list string) :
  Js.includes tags "div" = true ->
  Guard.run tags [OpenTagName "div" 0 4; CloseTag "div" 47 52] Recorded.math_container
  = Recorded.math_container.
Proof.
  intros Hdiv. unfold Guard.run. cbn [fold_left Guard.on_event].
  unfold Guard.onopentagname. rewrite Hdiv. cbn [negb Guard.result_ Guard.currentPos].
  unfold Guard.onclosetag. cbn [Guard.result_ Guard.currentPos Guard.processedPositions].
  rewrite bool_decide_eq_false_2 by set_solver.
  change (52 + 1 <=? 4 + 1) with false. cbn [orb].
  change (Guard.close_tag_name (Js.slice Recorded.math_container 47 (52 + 1))) with (Some "div").
  cbn iota. rewrite Hdiv. cbn [negb]. reflexivity.
Qed.

(** C4.  [markdownToHtml] of [$$a+b+c$$] holds the block-math container
    whose [data-latex] attribute decodes to [a+b+c], and [htmlToMarkdown]
    of that container gives [$$a+b+c$$] back.  The packages are asked for
    their part of the path: the codec keeps plain text, [div] is a
    standard name, the engine renders the token the block rule pushes, the
    parser reports the two tags of the container, and the serializer
    hands the blank element to [blankReplacement]. *)
Theorem block_math_round_trip :
  Contract.encode_plain P -> Contract.decode_plain P ->
  Js.includes (htmlTags P) "div" = true ->
  Spec.renders_math_block P Examples.math_state 1 ->
  parser_events P Recorded.math_container = Ok [OpenTagName "div" 0 4; CloseTag "div" 47 52] ->
  Spec.serializes_blank P Recorded.math_container Spec.math_node true ->
  (exists h, Facade.markdownToHtml P (JsString "$$a+b+c$$") = Ok h
             /\ Js.contains h Recorded.math_container = true)
  /\ Serializer.decoded_latex P Spec.math_node = "a+b+c"
  /\ Facade.htmlToMarkdown P (JsString Recorded.math_container) = Ok "$$a+b+c$$".
Proof.
  intros Henc Hdec Hdiv Hrender Hevents (t & Hturn & Htrim).
  assert (Hlatex : Serializer.decoded_latex P Spec.math_node = "a+b+c")
    by (apply Hdec; reflexivity).
  split; [|split; [exact Hlatex |]].
  - exists Recorded.math_container. split; [|reflexivity].
    cbn [Facade.markdownToHtml].
    change (Facade.processMarkdown "$$a+b+c$$") with "$$a+b+c$$".
    specialize (Hrender _ eq_refl eq_refl). cbn [Katex.src Examples.math_state] in Hrender.
    rewrite Hrender. cbn [mbind result_bind bind try_catch]. f_equal.
    unfold Katex.render_math_block.
    change (Katex.content_at _ 0) with "a+b+c".
    rewrite Henc by reflexivity. reflexivity.
  - change (Facade.htmlToMarkdown P (JsString Recorded.math_container))
      with (try_catch (encodedHtml ← Guard.escapeCustomTags P Recorded.math_container;
                       turndownResult ← turndown P encodedHtml;
                       Ok (he_decode P (Js.trim turndownResult)))).
    unfold Guard.escapeCustomTags. rewrite Hevents. cbn [mbind result_bind bind].
    rewrite (guard_math_container _ Hdiv), Hturn.
    cbn [mbind result_bind bind try_catch]. f_equal.
    rewrite Htrim. unfold Serializer.blankReplacement.
    change (String.eqb (Dom.name_of Spec.math_node) "DIV"
            && Dom.has_data_type "block-math" Spec.math_node) with true.
    cbn iota. rewrite Hlatex. apply Hdec. reflexivity.
Qed.

End FacadeFacts.

Section GuardThenSerializer.

Variable P : Packages.



End GuardThenSerializer.


Lemma markdownToHtml_self_closing_standard_witness :
  Facade.markdownToHtml Recorded.packages (JsString "<br/>") = Ok "<p><br/></p>".
Proof.
  exact (proj2 (proj2 (markdownToHtml_self_closing_standard Recorded.packages "<br/>"
                         eq_refl eq_refl eq_refl eq_refl))).
Defined.



Lemma recorded_renders_math_block :
  Spec.renders_math_block Recorded.packages Examples.math_state 1.
Proof. intros s' H _. vm_compute in H. inversion H. reflexivity. Qed.

Lemma recorded_serializes_blank :
  Spec.serializes_blank Recorded.packages Recorded.math_container Spec.math_node true.
Proof. exists "$$a+b+c$$". split; reflexivity. Qed.

Lemma block_math_round_trip_witness :
  (exists h, Facade.markdownToHtml Recorded.packages (JsString "$$a+b+c$$") = Ok h
             /\ Js.contains h Recorded.math_container = true)
  /\ Serializer.decoded_latex Recorded.packages Spec.math_node = "a+b+c"
  /\ Facade.htmlToMarkdown Recorded.packages (JsString Recorded.math_container)
     = Ok "$$a+b+c$$".
Proof.
  exact (block_math_round_trip Recorded.packages
           recorded_encode_plain recorded_decode_plain eq_refl
           recorded_renders_math_block eq_refl recorded_serializes_blank).
Defined.

(* ===================================================================== *)
(** * The task-list rule on whole streams *)
(* ===================================================================== *)

Section TaskListMore.

Import TaskList.
#[local] Open Scope list_scope.

Lemma same_frame_refl t : Props.same_frame t t.
Proof. repeat split. Qed.

Lemma same_frame_trans t1 t2 t3 :
  Props.same_frame t1 t2 -> Props.same_frame t2 t3 -> Props.same_frame t1 t3.
Proof.
  intros (A1 & A2 & A3 & A4 & A5) (B1 & B2 & B3 & B4 & B5).
  repeat split; congruence.
Qed.

Lemma step_frame lbl k (toks : list Token) inside j t :
  toks !! j = Some t ->
  exists t', fst (step lbl k (toks, inside)) !! j = Some t' /\ Props.same_frame t t'.
Proof.
  intros Hj.
  assert (Hsame : exists t', toks !! j = Some t' /\ Props.same_frame t t')
    by (exists t; auto using same_frame_refl).
  assert (Hown : forall t1 t2, toks !! k = Some t1 -> Props.same_frame t1 t2 ->
            exists t', <[k := t2]> toks !! j = Some t' /\ Props.same_frame t t').
  { intros t1 t2 Hk Hf. destruct (decide (k = j)) as [->|Hne].
    - rewrite Hj in Hk. inversion Hk; subst t1. exists t2.
      split; [apply list_lookup_insert_eq; eapply lookup_lt_Some; eauto | exact Hf].
    - rewrite list_lookup_insert_ne by exact Hne. exact Hsame. }
  unfold step. destruct (toks !! k) as [tk|] eqn:Hk; [|exact Hsame].
  destruct (String.eqb (type tk) "bullet_list_open").
  { destruct (has_task_items (drop (S k) toks)); [|exact Hsame]. cbn [fst].
    apply (Hown tk); [reflexivity | repeat split]. }
  destruct (String.eqb (type tk) "bullet_list_close" && inside); [exact Hsame |].
  destruct (String.eqb (type tk) "list_item_open" && inside).
  { cbn [fst]. apply (Hown tk); [reflexivity | repeat split]. }
  destruct (String.eqb (type tk) "inline" && inside); [|exact Hsame].
  destruct (task_match (content tk)) as [[c r]|] eqn:Hm; [|exact Hsame]. cbn [fst].
  destruct (decide (k = j)) as [->|Hne].
  - rewrite Hj in Hk. inversion Hk; subst tk. eexists. split.
    + apply list_lookup_insert_eq. rewrite mark_parent_length. eapply lookup_lt_Some; eauto.
    + repeat split.
  - rewrite list_lookup_insert_ne by exact Hne.
    destruct (mark_parent_spec k (bool_toString (isChecked c)) toks j t Hj)
      as (t' & Hl & [-> | (-> & _)]).
    + exists t. auto using same_frame_refl.
    + eexists. split; [exact Hl | repeat split].
Qed.

Lemma run_frame lbl n from (st : LoopState) j t :
  fst st !! j = Some t ->
  exists t', fst (run_from lbl from n st) !! j = Some t' /\ Props.same_frame t t'.
Proof.
  revert from st t. induction n as [|n IH]; intros from st t Hj.
  - exists t. auto using same_frame_refl.
  - rewrite run_from_S. destruct st as [toks inside].
    destruct (step_frame lbl from toks inside j t Hj) as (t1 & H1 & F1).
    destruct (IH (S from) _ t1 H1) as (t2 & H2 & F2).
    exists t2. split; [exact H2 | eauto using same_frame_trans].
Qed.

(** X1.  The rule keeps the stream in shape: it neither adds nor removes
    a token, and every token keeps its type, tag, nesting, source map and
    block flag; only attributes, content and children change. *)
Theorem task_list_keeps_frame (o : TaskListOptions) (tokens : list Token) :
  length (task_list o tokens) = length tokens
  /\ forall i t, tokens !! i = Some t ->
       exists t', task_list o tokens !! i = Some t' /\ Props.same_frame t t'.
Proof.
  split.
  - unfold task_list. apply run_from_length.
  - intros i t Hi. unfold task_list. apply run_frame. exact Hi.
Qed.

Lemma has_task_items_none (l : list Token) :
  Props.no_task_item l -> has_task_items l = false.
Proof.
  induction 1 as [|t l Ht _ IH]; [reflexivity |].
  cbn [has_task_items].
  destruct (String.eqb (type t) "bullet_list_close"); [reflexivity |].
  destruct (String.eqb_spec (type t) "inline") as [Hty|_]; [|exact IH].
  rewrite (Ht Hty). exact IH.
Qed.

Lemma step_plain lbl k (tokens : list Token) :
  Props.no_task_item tokens -> step lbl k (tokens, false) = (tokens, false).
Proof.
  intros Hno. unfold step. destruct (tokens !! k) as [t|]; [|reflexivity].
  rewrite has_task_items_none by (apply Forall_drop; exact Hno).
  rewrite !andb_false_r.
  destruct (String.eqb (type t) "bullet_list_open"); reflexivity.
Qed.

Lemma run_plain lbl n from (tokens : list Token) :
  Props.no_task_item tokens -> run_from lbl from n (tokens, false) = (tokens, false).
Proof.
  intros Hno. revert from. induction n as [|n IH]; intros from; [reflexivity |].
  rewrite run_from_S, step_plain by exact Hno. apply IH.
Qed.

Lemma task_list_plain_identity_aux (o : TaskListOptions) (tokens : list Token) :
  Props.no_task_item tokens -> task_list o tokens = tokens.
Proof. intros Hno. unfold task_list. now rewrite run_plain. Qed.

(** X2.  A stream in which no inline token passes the test of the task
    pattern leaves the rule exactly as it entered it: plain lists are not
    touched. *)
Theorem task_list_plain_identity (o : TaskListOptions) (tokens : list Token) :
  Props.no_task_item tokens -> task_list o tokens = tokens.
Proof. intros Hno. unfold task_list. now rewrite run_plain. Qed.

Lemma lookup_app_plus {A} (pre l : list A) (k : nat) :
  (pre ++ l) !! (length pre + k)%nat = l !! k.
Proof. rewrite lookup_app_r by lia. f_equal. lia. Qed.

Lemma insert_app_plus {A} (pre l : list A) (k : nat) (x : A) :
  <[(length pre + k)%nat := x]> (pre ++ l) = pre ++ <[k := x]> l.
Proof.
  induction pre as [|a pre IH]; [reflexivity |].
  cbn [length Nat.add app]. cbn. f_equal. exact IH.
Qed.

(** The backward loop stops inside [l] when an item-open token stands
    there before [k]. *)
Lemma mark_parent_app (pre l : list Token) (k : nat) (v : string) :
  (exists j t, (j < k)%nat /\ l !! j = Some t /\ type t = "list_item_open") ->
  mark_parent (length pre + k) v (pre ++ l) = pre ++ mark_parent k v l.
Proof.
  induction k as [|k IH]; intros (j & t & Hlt & Hj & Hty); [lia |].
  rewrite Nat.add_succ_r. cbn [mark_parent]. rewrite lookup_app_plus.
  destruct (l !! k) as [tk|] eqn:Hk.
  - destruct (String.eqb_spec (type tk) "list_item_open") as [Hlio|Hno].
    + apply insert_app_plus.
    + apply IH. exists j, t. split; [|auto].
      destruct (decide (j = k)) as [->|]; [|lia].
      rewrite Hj in Hk. inversion Hk; subst tk. contradiction.
  - apply IH. exists j, t. split; [|auto].
    destruct (decide (j = k)) as [->|]; [|lia]. rewrite Hj in Hk. discriminate.
Qed.

Lemma annotated_item_length lbl c : length (Props.annotated_item lbl c) = 5%nat.
Proof. unfold Props.annotated_item. destruct (task_match c) as [[? ?]|]; reflexivity. Qed.

Lemma annotated_items_length lbl cs :
  length (concat (List.map (Props.annotated_item lbl) cs)) = (5 * length cs)%nat.
Proof.
  induction cs as [|c cs IH]; [reflexivity |].
  cbn [List.map concat]. rewrite length_app, annotated_item_length, IH. cbn [length]. lia.
Qed.

Lemma step_other lbl (pre l : list Token) (k : nat) (t : Token) :
  l !! k = Some t ->
  String.eqb (type t) "bullet_list_open" = false ->
  String.eqb (type t) "bullet_list_close" = false ->
  String.eqb (type t) "list_item_open" = false ->
  String.eqb (type t) "inline" = false ->
  step lbl (length pre + k) (pre ++ l, true) = (pre ++ l, true).
Proof.
  intros Hk H1 H2 H3 H4. unfold step. rewrite lookup_app_plus, Hk, H1, H2, H3, H4.
  reflexivity.
Qed.

Lemma step_item_open lbl (pre l : list Token) (k : nat) (t : Token) :
  l !! k = Some t ->
  type t = "list_item_open" ->
  step lbl (length pre + k) (pre ++ l, true)
  = (pre ++ <[k := attrSet (attrSet t "data-type" "taskItem") "class" "task-list-item"]> l,
     true).
Proof.
  intros Hk Hty. unfold step. rewrite lookup_app_plus, Hk, Hty.
  change (String.eqb "list_item_open" "bullet_list_open") with false.
  change (String.eqb "list_item_open" "bullet_list_close" && true) with false.
  change (String.eqb "list_item_open" "list_item_open" && true) with true. cbn iota.
  rewrite insert_app_plus. reflexivity.
Qed.

Lemma step_inline lbl (pre l : list Token) (k : nat) (t : Token) :
  l !! k = Some t ->
  type t = "inline" ->
  (exists j tj, (j < k)%nat /\ l !! j = Some tj /\ type tj = "list_item_open") ->
  step lbl (length pre + k) (pre ++ l, true)
  = (pre ++ match task_match (content t) with
            | Some (check, rest) =>
                <[k := set_children (set_content t rest)
                         (task_children lbl (isChecked check) rest)]>
                  (mark_parent k (bool_toString (isChecked check)) l)
            | None => l
            end, true).
Proof.
  intros Hk Hty Hparent. unfold step. rewrite lookup_app_plus, Hk, Hty.
  change (String.eqb "inline" "bullet_list_open") with false.
  change (String.eqb "inline" "bullet_list_close" && true) with false.
  change (String.eqb "inline" "list_item_open" && true) with false.
  change (String.eqb "inline" "inline" && true) with true. cbn iota.
  destruct (task_match (content t)) as [[check rest]|]; [|reflexivity].
  rewrite mark_parent_app by exact Hparent. rewrite insert_app_plus. reflexivity.
Qed.

(** The five iterations over one item of a flat list, inside a task
    list. *)
Lemma run_item lbl (pre rest : list Token) (c : string) :
  run_from lbl (length pre) 5 (pre ++ Stream.item c ++ rest, true)
  = (pre ++ Props.annotated_item lbl c ++ rest, true).
Proof.
  unfold run_from. cbn [seq fold_left Stream.item app].
  replace (S (S (S (S (length pre))))) with (length pre + 4)%nat by lia.
  replace (S (S (S (length pre)))) with (length pre + 3)%nat by lia.
  replace (S (S (length pre))) with (length pre + 2)%nat by lia.
  replace (S (length pre)) with (length pre + 1)%nat by lia.
  rewrite <- (Nat.add_0_r (length pre)) at 5.
  erewrite (step_item_open lbl pre _ 0); [| reflexivity ..]. cbn [list_insert insert].
  erewrite (step_other lbl pre _ 1); [| reflexivity ..].
  erewrite (step_inline lbl pre _ 2); [| reflexivity | reflexivity |].
  2:{ exists 0%nat. eexists. split; [lia | split; reflexivity]. }
  change (content (Stream.inline_token c)) with c.
  unfold Props.annotated_item, Props.task_item_open.
  destruct (task_match c) as [[check r]|].
  - cbn [mark_parent lookup list_lookup list_insert insert].
    change (String.eqb (type (Stream.block_token "paragraph_open" "p" 1)) "list_item_open")
      with false.
    cbn iota.
    change (String.eqb
              (type (attrSet (attrSet (Stream.block_token "list_item_open" "li" 1)
                                "data-type" "taskItem") "class" "task-list-item"))
              "list_item_open") with true.
    cbn iota. cbn [list_insert insert].
    erewrite (step_other lbl pre _ 3); [| reflexivity ..].
    erewrite (step_other lbl pre _ 4); [| reflexivity ..].
    reflexivity.
  - erewrite (step_other lbl pre _ 3); [| reflexivity ..].
    erewrite (step_other lbl pre _ 4); [| reflexivity ..].
    reflexivity.
Qed.

Lemma item_length c : length (Stream.item c) = 5%nat.
Proof. reflexivity. Qed.

Lemma items_length (cs : list string) :
  length (concat (List.map Stream.item cs)) = (5 * length cs)%nat.
Proof.
  induction cs as [|c cs IH]; [reflexivity |].
  cbn [List.map concat]. rewrite length_app, item_length, IH. cbn [length]. lia.
Qed.

Lemma run_items lbl (cs : list string) :
  forall pre suf : list Token,
  run_from lbl (length pre) (5 * length cs)
    (pre ++ concat (List.map Stream.item cs) ++ suf, true)
  = (pre ++ concat (List.map (Props.annotated_item lbl) cs) ++ suf, true).
Proof.
  induction cs as [|c cs IH]; intros pre suf; [reflexivity |].
  cbn [List.map concat length].
  replace (5 * S (length cs))%nat with (5 + 5 * length cs)%nat by lia.
  rewrite run_from_add, <- !app_assoc, run_item.
  replace (length pre + 5)%nat with (length (pre ++ Props.annotated_item lbl c))
    by (rewrite length_app, annotated_item_length; reflexivity).
  rewrite (app_assoc pre), IH, <- app_assoc. reflexivity.
Qed.

Lemma has_task_items_flat (cs : list string) (suf : list Token) :
  has_task_items (concat (List.map Stream.item cs) ++ suf)
  = existsb task_test cs || has_task_items suf.
Proof.
  induction cs as [|c cs IH]; [reflexivity |].
  cbn [List.map concat existsb Stream.item app has_task_items].
  change (String.eqb (type (Stream.inline_token c)) "inline" && task_test (content (Stream.inline_token c)))
    with (task_test c).
  change (String.eqb (type (Stream.block_token "list_item_open" "li" 1)) "bullet_list_close")
    with false.
  cbn. destruct (task_test c); [reflexivity | exact IH].
Qed.

Lemma flat_no_task_item (cs : list string) :
  existsb task_test cs = false -> Props.no_task_item (Stream.bullet_list cs).
Proof.
  intros H. unfold Stream.bullet_list. constructor; [discriminate |].
  apply Forall_app. split; [|repeat constructor; discriminate].
  induction cs as [|c cs IH]; [constructor |].
  cbn [existsb] in H. apply orb_false_iff in H. destruct H as [Hc Hcs].
  cbn [List.map concat]. apply Forall_app. split; [|exact (IH Hcs)].
  repeat constructor; try discriminate. intros _. exact Hc.
Qed.

(** X3.  On a flat bullet list the rule is all or nothing.  When no item
    matches, the list is left as it is; when one matches, the list-open
    token is marked, every item-open token is marked as a task item, and
    each matching item also gets its own [data-checked] and its checkbox
    rewrite, for any number of items. *)
Theorem task_list_flat (o : TaskListOptions) (cs : list string) :
  task_list o (Stream.bullet_list cs) = Props.annotated_list (label_of o) cs.
Proof.
  unfold Props.annotated_list.
  destruct (existsb task_test cs) eqn:Hex.
  - unfold task_list, Stream.bullet_list.
    cbn [length]. rewrite length_app, items_length. cbn [length].
    replace (S (5 * length cs + 1)) with (1 + (5 * length cs + 1))%nat by lia.
    rewrite run_from_add. cbn [Nat.add].
    assert (Hfirst :
      run_from (label_of o) 0 1
        (Stream.block_token "bullet_list_open" "ul" 1
           :: concat (List.map Stream.item cs)
              ++ [Stream.block_token "bullet_list_close" "ul" (-1)], false)
      = ([attrSet (attrSet (Stream.block_token "bullet_list_open" "ul" 1)
                     "data-type" "taskList") "class" "task-list"]
           ++ concat (List.map Stream.item cs)
           ++ [Stream.block_token "bullet_list_close" "ul" (-1)], true)).
    { unfold run_from. cbn [seq fold_left]. unfold step.
      cbn [lookup list_lookup].
      change (String.eqb (type (Stream.block_token "bullet_list_open" "ul" 1)) "bullet_list_open")
        with true.
      cbn iota.
      change (drop 1 (Stream.block_token "bullet_list_open" "ul" 1
                      :: concat (List.map Stream.item cs)
                         ++ [Stream.block_token "bullet_list_close" "ul" (-1)]))
        with (concat (List.map Stream.item cs)
              ++ [Stream.block_token "bullet_list_close" "ul" (-1)]).
      rewrite has_task_items_flat, Hex. reflexivity. }
    rewrite Hfirst, run_from_add.
    change 1%nat with (length [attrSet (attrSet (Stream.block_token "bullet_list_open" "ul" 1)
                                          "data-type" "taskList") "class" "task-list"]) at 2 4.
    rewrite run_items. cbn [length].
    set (bo := attrSet _ _ _).
    unfold run_from. cbn [seq fold_left]. unfold step.
    replace (1 + 5 * length cs)%nat
      with (length ([bo] ++ concat (List.map (Props.annotated_item (label_of o)) cs)) + 0)%nat
      by (rewrite length_app, annotated_items_length; cbn [length]; lia).
    rewrite app_assoc, lookup_app_plus. cbn [lookup list_lookup].
    change (String.eqb (type (Stream.block_token "bullet_list_close" "ul" (-1))) "bullet_list_open")
      with false.
    change (String.eqb (type (Stream.block_token "bullet_list_close" "ul" (-1))) "bullet_list_close" && true)
      with true.
    cbn iota. cbn [fst]. rewrite <- app_assoc. reflexivity.
  - apply task_list_plain_identity_aux. apply flat_no_task_item. exact Hex.
Qed.

Lemma task_match_unfold (s : string) :
  task_match s =
  match Js.trimStart s with
  | String a (String c (String b (String d r))) =>
      if Ascii.eqb a "["%char && Ascii.eqb b "]"%char && is_check c && Js.is_space d
      then Some (c, dot_star (Js.trimStart r))
      else None
  | _ => None
  end.
Proof.
  unfold task_match.
  destruct (Js.trimStart s) as [|a t]; [reflexivity |].
  destruct a as [[] [] [] [] [] [] [] []];
    try (destruct t as [|c [|b [|d r]]]; reflexivity).
  destruct t as [|c [|b [|d r]]]; try reflexivity;
    destruct b as [[] [] [] [] [] [] [] []]; reflexivity.
Qed.

Lemma dot_star_line (s : string) :
  Contract.has_char "010"%char (dot_star s) = false
  /\ Contract.has_char "013"%char (dot_star s) = false.
Proof.
  induction s as [|c s [IH1 IH2]]; [split; reflexivity |].
  cbn [dot_star]. destruct (Js.is_line_terminator c) eqn:E; [split; reflexivity |].
  cbn [Contract.has_char]. rewrite IH1, IH2.
  unfold Js.is_line_terminator in E. apply orb_false_iff in E. destruct E as [E1 E2].
  split; apply orb_false_iff; split; try reflexivity.
  - destruct (Ascii.eqb_spec "010"%char c) as [<-|]; [discriminate E1 | reflexivity].
  - destruct (Ascii.eqb_spec "013"%char c) as [<-|]; [discriminate E2 | reflexivity].
Qed.

Lemma trimStart_head (s : string) :
  match Js.trimStart s with
  | String c _ => Js.is_space c = false
  | EmptyString => True
  end.
Proof.
  induction s as [|c s IH]; [exact I |].
  cbn [Js.trimStart]. destruct (Js.is_space c) eqn:E; [exact IH | exact E].
Qed.

Lemma dot_star_head (s : string) :
  match s with String c _ => Js.is_space c = false | EmptyString => True end ->
  match dot_star s with String c _ => Js.is_space c = false | EmptyString => True end.
Proof.
  destruct s as [|c s]; [auto |]. intros H. cbn [dot_star].
  destruct (Js.is_line_terminator c); [exact I | exact H].
Qed.

(** X4.  When the task pattern matches, the marker is a space or a
    lower-case [x], the item is checked exactly for [x], and the text
    kept as the new content is a single line: it starts with no white
    space and holds no line break, whatever followed the first line. *)
Theorem task_match_keeps_one_line (s : string) (check : ascii) (rest : string) :
  task_match s = Some (check, rest) ->
  (check = " "%char \/ check = "x"%char)
  /\ (isChecked check = true <-> check = "x"%char)
  /\ Contract.has_char "010"%char rest = false
  /\ Contract.has_char "013"%char rest = false
  /\ match rest with String c _ => Js.is_space c = false | EmptyString => True end.
Proof.
  rewrite task_match_unfold.
  destruct (Js.trimStart s) as [|a [|c [|b [|d r]]]]; try discriminate.
  destruct (Ascii.eqb a "["%char && Ascii.eqb b "]"%char && is_check c && Js.is_space d) eqn:E;
    [|discriminate].
  intros H. inversion H; subst check rest. clear H.
  apply andb_true_iff in E. destruct E as [E _].
  apply andb_true_iff in E. destruct E as [_ Ec].
  unfold is_check in Ec. apply orb_true_iff in Ec.
  assert (Hc : c = " "%char \/ c = "x"%char).
  { destruct Ec as [Ec|Ec]; apply Ascii.eqb_eq in Ec; auto. }
  split; [exact Hc |]. split.
  - destruct Hc as [-> | ->]; split; intros H; try reflexivity; discriminate H.
  - destruct (dot_star_line (Js.trimStart r)) as [H1 H2].
    repeat split; try assumption.
    apply dot_star_head, trimStart_head.
Qed.

End TaskListMore.

Lemma task_list_plain_identity_witness :
  TaskList.md_task_list (Stream.bullet_list ["one"; "[X] two"])
  = Stream.bullet_list ["one"; "[X] two"].
Proof.
  apply task_list_plain_identity.
  repeat constructor; try discriminate; intros _; reflexivity.
Defined.

Lemma task_match_keeps_one_line_witness :
  Contract.has_char "010"%char "first" = false
  /\ TaskList.task_match ("[x] first" +:+ Spec.newline +:+ "second") = Some ("x"%char, "first").
Proof.
  split; [|reflexivity].
  exact (proj1 (proj2 (proj2 (task_match_keeps_one_line
           ("[x] first" +:+ Spec.newline +:+ "second") "x"%char "first" eq_refl)))).
Defined.

(* ===================================================================== *)
(** * The math rules: acceptance, validation mode, dead code *)
(* ===================================================================== *)

Section TrimFacts.

Lemma trimStart_no_leading (s : string) : Props.no_leading_space (Js.trimStart s).
Proof.
  induction s as [|c s IH]; [exact I |].
  cbn [Js.trimStart]. destruct (Js.is_space c) eqn:E; [exact IH | exact E].
Qed.

Lemma trimStart_fixed (s : string) : Props.no_leading_space s -> Js.trimStart s = s.
Proof. destruct s as [|c s]; [reflexivity |]. cbn. intros ->. reflexivity. Qed.

Lemma trimEnd_no_leading (s : string) : Props.no_leading_space s -> Props.no_leading_space (Js.trimEnd s).
Proof.
  destruct s as [|c s]; [auto |]. cbn [Props.no_leading_space Js.trimEnd]. intros H.
  destruct (Js.trimEnd s); [rewrite H |]; exact H.
Qed.

Lemma trimEnd_cons (c : ascii) (s : string) :
  Js.trimEnd (String c s)
  = match Js.trimEnd s with
    | EmptyString => if Js.is_space c then EmptyString else String c EmptyString
    | t => String c t
    end.
Proof. reflexivity. Qed.

Lemma trimEnd_idempotent (s : string) : Js.trimEnd (Js.trimEnd s) = Js.trimEnd s.
Proof.
  induction s as [|c s IH]; [reflexivity |].
  rewrite trimEnd_cons. destruct (Js.trimEnd s) as [|d t] eqn:E.
  - destruct (Js.is_space c) eqn:Ec; [reflexivity |]. rewrite trimEnd_cons.
    cbn [Js.trimEnd]. rewrite Ec. reflexivity.
  - rewrite trimEnd_cons, IH. reflexivity.
Qed.

Lemma trim_idempotent (s : string) : Js.trim (Js.trim s) = Js.trim s.
Proof.
  unfold Js.trim.
  rewrite (trimStart_fixed (Js.trimEnd (Js.trimStart s)))
    by (apply trimEnd_no_leading, trimStart_no_leading).
  apply trimEnd_idempotent.
Qed.

End TrimFacts.

Section MathRules.

Import Katex.

Lemma has_char_trimStart (c : ascii) (s : string) :
  Contract.has_char c s = false -> Contract.has_char c (Js.trimStart s) = false.
Proof.
  induction s as [|d s IH]; [reflexivity |]. intros H. cbn [Js.trimStart].
  destruct (Js.is_space d); [|exact H].
  cbn [Contract.has_char] in H. apply orb_false_iff in H. apply IH, H.
Qed.

Lemma has_char_trimEnd (c : ascii) (s : string) :
  Contract.has_char c s = false -> Contract.has_char c (Js.trimEnd s) = false.
Proof.
  induction s as [|d s IH]; [reflexivity |]. intros H.
  cbn [Contract.has_char] in H. apply orb_false_iff in H. destruct H as [Hd Hs].
  rewrite trimEnd_cons. specialize (IH Hs). destruct (Js.trimEnd s) as [|e t].
  - destruct (Js.is_space d); [reflexivity |]. cbn [Contract.has_char]. rewrite Hd. reflexivity.
  - cbn [Contract.has_char] in *. rewrite Hd. exact IH.
Qed.

Lemma has_char_trim (c : ascii) (s : string) :
  Contract.has_char c s = false -> Contract.has_char c (Js.trim s) = false.
Proof. intros H. apply has_char_trimEnd, has_char_trimStart, H. Qed.

Lemma has_char_take (c : ascii) (n : nat) (s : string) :
  Contract.has_char c s = false -> Contract.has_char c (Js.take n s) = false.
Proof.
  revert s. induction n as [|n IH]; intros s H; [reflexivity |].
  destruct s as [|d s]; [reflexivity |]. cbn [Js.take Contract.has_char] in *.
  apply orb_false_iff in H. destruct H as [-> H]. apply IH, H.
Qed.

(** The text before the first occurrence of a character does not hold it. *)
Lemma find_char_take (c : ascii) (s : string) (j : nat) :
  Js.find (String c EmptyString) s = Some j -> Contract.has_char c (Js.take j s) = false.
Proof.
  revert j. induction s as [|d s IH]; intros j H.
  - destruct j; reflexivity.
  - cbn [Js.find Js.startsWith] in H. destruct (Ascii.eqb c d) eqn:E; cbn [andb] in H.
    + inversion H. reflexivity.
    + destruct (Js.find (String c EmptyString) s) as [j'|]; [|discriminate].
      cbn in H. inversion H; subst j. cbn [Js.take Contract.has_char]. rewrite E. apply IH. reflexivity.
Qed.

Lemma find_none_has_char (c : ascii) (s : string) :
  Js.find (String c EmptyString) s = None -> Contract.has_char c s = false.
Proof.
  induction s as [|d s IH]; [reflexivity |].
  cbn [Js.find Js.startsWith Contract.has_char].
  destruct (Ascii.eqb c d); cbn [andb orb]; [discriminate |].
  destruct (Js.find (String c EmptyString) s); [discriminate |]. intros _. apply IH. reflexivity.
Qed.

Lemma take_take (n m : nat) (s : string) :
  (n <= m)%nat -> Js.take n (Js.take m s) = Js.take n s.
Proof.
  revert m s. induction n as [|n IH]; intros m s H; [reflexivity |].
  destruct m as [|m]; [lia |]. destruct s as [|d s]; [reflexivity |].
  cbn [Js.take]. rewrite IH by lia. reflexivity.
Qed.

(** The loop breaks at a line of its range, with a trimmed content. *)
Lemma scan_found (s : BlockState) (startLine : Z) (n : nat) :
  forall nextLine k c,
  scan s startLine nextLine n = Some (Some (k, c)) ->
  nextLine <= k < nextLine + Z.of_nat n /\ Js.trim c = c.
Proof.
  induction n as [|n IH]; intros nextLine k c H; [discriminate |].
  cbn [scan] in H.
  destruct (mark (bMarks s) nextLine) as [b|]; [|discriminate].
  destruct (mark (tShift s) nextLine) as [t|]; [|discriminate].
  destruct (mark (eMarks s) nextLine) as [e|]; [|discriminate].
  cbn [mbind option_bind] in H.
  destruct (negb (Js.indexOf (Js.slice (src s) (b + t) e) "$$" =? -1)).
  - destruct (mark (bMarks s) startLine) as [b0|]; [|discriminate].
    destruct (mark (tShift s) startLine) as [t0|]; [|discriminate].
    destruct (mark (eMarks s) startLine) as [e0|]; [|discriminate].
    cbn [mbind option_bind] in H.
    destruct (middle_lines s (startLine + 1) (Z.to_nat (nextLine - (startLine + 1))));
      [|discriminate].
    cbn [mbind option_bind] in H. inversion H; subst k c.
    split; [lia | apply trim_idempotent].
  - destruct ((b + t + 2 <=? e) && is_dollar (Js.charCodeAt (src s) (b + t))
              && is_dollar (Js.charCodeAt (src s) (b + t + 1))).
    + destruct (mark (bMarks s) startLine) as [b0|]; [|discriminate].
      destruct (mark (tShift s) startLine) as [t0|]; [|discriminate].
      cbn [mbind option_bind] in H. inversion H; subst k c.
      split; [lia | apply trim_idempotent].
    + apply IH in H. destruct H as [Hk Hc]. split; [lia | exact Hc].
Qed.

(** X5.  When the block rule accepts (outside validation mode) it appends
    exactly one [math_block] token to the tokens, whose source map runs
    from the opening line to the line [nextLine] of the closing delimiter,
    whose block flag is set and whose content is trimmed; the closing line
    is the opening line itself or a later line before [endLine];
    [state.line] is moved just past it, so the engine always advances;
    nothing else of the state changes. *)
Theorem math_block_accepts (s s' : BlockState) (startLine endLine : Z) :
  math_block s startLine endLine false = Some (true, s') ->
  exists nextLine content,
    s' = set_line (push s (Props.math_block_token startLine nextLine content)) (nextLine + 1)
    /\ (nextLine = startLine \/ startLine < nextLine < endLine)
    /\ startLine < line s'
    /\ Js.trim content = content.
Proof.
  unfold math_block.
  destruct (mark (bMarks s) startLine) as [b|]; [|discriminate].
  destruct (mark (tShift s) startLine) as [t|]; [|discriminate].
  destruct (mark (eMarks s) startLine) as [e|]; [|discriminate].
  cbn [mbind option_bind].
  destruct (b + t + 2 >? e); [discriminate |].
  destruct (negb (is_dollar (Js.charCodeAt (src s) (b + t)))
            || negb (is_dollar (Js.charCodeAt (src s) (b + t + 1)))); [discriminate |].
  destruct (negb (Js.indexOf_from (src s) "$$" (b + t + 2) =? -1)
            && (Js.indexOf_from (src s) "$$" (b + t + 2) <=? e - 2)).
  - cbn [mbind option_bind]. intros H. inversion H.
    eexists startLine, _. split; [reflexivity |]. split; [left; reflexivity |].
    split; [cbn; lia | apply trim_idempotent].
  - destruct (scan s startLine (startLine + 1) (Z.to_nat (endLine - (startLine + 1))))
      as [[[k c]|]|] eqn:Hscan; cbn [mbind option_bind]; try discriminate.
    intros H. inversion H. apply scan_found in Hscan. destruct Hscan as [Hk Hc].
    exists k, c. split; [reflexivity |]. split; [right; lia |].
    split; [cbn; lia | exact Hc].
Qed.

(** X6.  In validation mode the block rule only looks at the first two
    characters of the line: it never changes the state, it says yes
    whenever the full rule accepts, and a rejection by the full rule
    leaves the state as it was. *)
Theorem math_block_validation (s : BlockState) (startLine endLine : Z) :
  (forall b s', math_block s startLine endLine true = Some (b, s') -> s' = s)
  /\ (forall s', math_block s startLine endLine false = Some (true, s') ->
                 math_block s startLine endLine true = Some (true, s))
  /\ (forall s', math_block s startLine endLine false = Some (false, s') -> s' = s).
Proof.
  unfold math_block.
  destruct (mark (bMarks s) startLine) as [b|]; [|repeat split; discriminate].
  destruct (mark (tShift s) startLine) as [t|]; [|repeat split; discriminate].
  destruct (mark (eMarks s) startLine) as [e|]; [|repeat split; discriminate].
  cbn [mbind option_bind].
  destruct (b + t + 2 >? e);
    [repeat split; intros; try discriminate; congruence |].
  destruct (negb (is_dollar (Js.charCodeAt (src s) (b + t)))
            || negb (is_dollar (Js.charCodeAt (src s) (b + t + 1))));
    [repeat split; intros; try discriminate; congruence |].
  split; [intros; congruence |]. split; [reflexivity |].
  intros s'.
  destruct (if negb (Js.indexOf_from (src s) "$$" (b + t + 2) =? -1)
               && (Js.indexOf_from (src s) "$$" (b + t + 2) <=? e - 2)
            then _ else _) as [[[k c]|]|]; cbn [mbind option_bind]; congruence.
Qed.

(** X7.  The second test of the loop of the block rule, for a line that
    starts with the delimiter, is never reached with a line that passes
    it: such a line holds the delimiter, so the first test has already
    taken it.  The loop computes the same as the loop without that test. *)
Theorem scan_second_test_unreachable (s : BlockState) (startLine : Z) (n : nat) :
  forall nextLine, scan s startLine nextLine n = Props.scan_first_test s startLine nextLine n.
Proof.
  induction n as [|n IH]; intros nextLine; [reflexivity |].
  cbn [scan Props.scan_first_test].
  destruct (mark (bMarks s) nextLine) as [b|]; [|reflexivity].
  destruct (mark (tShift s) nextLine) as [t|]; [|reflexivity].
  destruct (mark (eMarks s) nextLine) as [e|]; [|reflexivity].
  cbn [mbind option_bind].
  destruct (negb (Js.indexOf (Js.slice (src s) (b + t) e) "$$" =? -1)) eqn:E; [reflexivity |].
  rewrite indexOf_contains, negb_involutive in E.
  destruct ((b + t + 2 <=? e) && is_dollar (Js.charCodeAt (src s) (b + t))
            && is_dollar (Js.charCodeAt (src s) (b + t + 1))) eqn:E'; [|apply IH].
  apply andb_true_iff in E'. destruct E' as [E' E3].
  apply andb_true_iff in E'. destruct E' as [E1 E2]. apply Z.leb_le in E1.
  rewrite (line_starting_with_dollars (src s) (b + t) e E1 E2 E3) in E. discriminate.
Qed.

(** X8.  Validation mode of the inline rule agrees with the full rule on
    the answer and on the new position, and pushes no token. *)
Theorem math_inline_validation (s : InlineState) :
  fst (math_inline s true) = fst (math_inline s false)
  /\ pos (snd (math_inline s true)) = pos (snd (math_inline s false))
  /\ itokens (snd (math_inline s true)) = itokens s.
Proof.
  unfold math_inline.
  destruct ((pos s >=? posMax s) || negb (is_dollar (Js.charCodeAt (isrc s) (pos s))));
    [auto |].
  destruct ((Js.indexOf_from (isrc s) "$" (pos s + 1) =? -1)
            || (Js.indexOf_from (isrc s) "$" (pos s + 1) >? posMax s)); [auto |].
  destruct (negb (Js.indexOf _ _ =? -1)); auto.
Qed.

(** X9.  When the inline rule accepts it appends exactly one
    [math_inline] token whose content is trimmed and holds neither a
    dollar sign nor a newline, and the position moves forward, at most
    one past [posMax]. *)
Theorem math_inline_accepts (s : InlineState) :
  fst (math_inline s false) = true ->
  exists content,
    itokens (snd (math_inline s false)) = (itokens s ++ [Props.math_inline_token content])%list
    /\ Js.trim content = content
    /\ Contract.has_char "$"%char content = false
    /\ Contract.has_char "010"%char content = false
    /\ pos s < pos (snd (math_inline s false)) <= posMax s + 1.
Proof.
  unfold math_inline.
  destruct (pos s >=? posMax s) eqn:E0; [discriminate |].
  destruct (is_dollar (Js.charCodeAt (isrc s) (pos s))) eqn:E1; [|discriminate].
  cbn [negb orb].
  destruct (Js.indexOf_from (isrc s) "$" (pos s + 1) =? -1) eqn:E2; [discriminate |].
  destruct (Js.indexOf_from (isrc s) "$" (pos s + 1) >? posMax s) eqn:E3; [discriminate |].
  cbn [orb].
  destruct (negb (Js.indexOf _ (String "010"%char EmptyString) =? -1)) eqn:E4; [discriminate |].
  intros _. cbn [snd itokens pos].
  apply is_dollar_at in E1. destruct E1 as [Hrange _].
  apply Z.eqb_neq in E2.
  assert (E3' : Js.indexOf_from (isrc s) "$" (pos s + 1) <= posMax s)
    by (destruct (Z.gtb_spec (Js.indexOf_from (isrc s) "$" (pos s + 1)) (posMax s));
        [discriminate | lia]).
  rewrite indexOf_contains, negb_involutive in E4.
  unfold Js.slice in *. unfold Js.indexOf_from in *.
  replace (Z.to_nat (Z.max 0 (Z.min (pos s + 1) (Js.len (isrc s)))))
    with (Z.to_nat (pos s + 1)) in * by lia.
  destruct (Js.find "$" (Js.drop (Z.to_nat (pos s + 1)) (isrc s))) as [j|] eqn:Hfind;
    [|contradiction].
  pose proof (find_length _ _ _ Hfind) as Hfl. rewrite drop_length in Hfl.
  cbn [String.length] in Hfl. unfold Js.len in *.
  rewrite !clamp_nonneg in * by lia. unfold Js.len in *.
  replace (Z.to_nat (Z.min (pos s + 1) (Z.of_nat (String.length (isrc s)))))
    with (Z.to_nat (pos s + 1)) in * by lia.
  replace (Z.to_nat (Z.min (Z.of_nat (Z.to_nat (pos s + 1) + j))
                       (Z.of_nat (String.length (isrc s)))) - Z.to_nat (pos s + 1))%nat
    with j in * by lia.
  eexists. split; [reflexivity |]. split; [apply trim_idempotent |].
  split; [apply has_char_trim, find_char_take, Hfind |].
  split; [|lia].
  apply has_char_trim, find_none_has_char.
  unfold Js.contains in E4.
  destruct (Js.find (String "010"%char EmptyString) _); [discriminate | reflexivity].
Qed.

End MathRules.

(** On the three-line document [$$], [a+b], [$$] the block rule accepts. *)
Lemma math_block_accepts_witness :
  exists nextLine content,
    Katex.set_line
      (Katex.push Props.fenced_state (Props.math_block_token 0 2 "a+b")) 3
    = Katex.set_line
        (Katex.push Props.fenced_state (Props.math_block_token 0 nextLine content))
        (nextLine + 1)
    /\ (nextLine = 0 \/ 0 < nextLine < 3)
    /\ 0 < Katex.line
             (Katex.set_line
                (Katex.push Props.fenced_state (Props.math_block_token 0 2 "a+b")) 3)
    /\ Js.trim content = content.
Proof.
  apply (math_block_accepts Props.fenced_state _ 0 3). reflexivity.
Defined.

(** The fenced document is accepted in validation mode, the unterminated
    one too, though the full rule rejects it. *)
Lemma math_block_validation_witness :
  Katex.math_block Props.fenced_state 0 3 true = Some (true, Props.fenced_state)
  /\ Katex.math_block Examples.unterminated_state 0 3 true
     = Some (true, Examples.unterminated_state)
  /\ Katex.math_block Examples.unterminated_state 0 3 false
     = Some (false, Examples.unterminated_state).
Proof.
  split; [|split].
  - exact (proj1 (proj2 (math_block_validation Props.fenced_state 0 3)) _ eq_refl).
  - reflexivity.
  - reflexivity.
Defined.

(** On [x $ a+b $ y] the inline rule pushes the content [a+b]. *)
Lemma math_inline_accepts_witness :
  exists content,
    Katex.itokens (snd (Katex.math_inline Props.span_state false))
    = (Katex.itokens Props.span_state ++ [Props.math_inline_token content])%list
    /\ Js.trim content = content
    /\ Contract.has_char "$"%char content = false
    /\ Contract.has_char "010"%char content = false
    /\ Katex.pos Props.span_state
       < Katex.pos (snd (Katex.math_inline Props.span_state false))
       <= Katex.posMax Props.span_state + 1.
Proof.
  apply (math_inline_accepts Props.span_state). reflexivity.
Defined.

(* ===================================================================== *)
(** * The serializer rules: cells, rows, tables and task items *)
(* ===================================================================== *)

Section CellFacts.

Variable P : Packages.

Lemma plain_spaces_runs (s : string) :
  Props.plain_spaces (Serializer.replace_runs Js.is_space " " s) = true.
Proof.
  induction s as [|c s IH]; [reflexivity |].
  cbn [Serializer.replace_runs]. destruct (Js.is_space c) eqn:Ec.
  - destruct s as [|d s']; [reflexivity |].
    destruct (Js.is_space d); [exact IH |].
    rewrite append_cons, append_nil. cbn [Props.plain_spaces]. rewrite IH. reflexivity.
  - cbn [Props.plain_spaces]. rewrite Ec, IH. reflexivity.
Qed.

Lemma plain_spaces_app (a b : string) :
  Props.plain_spaces (a +:+ b) = Props.plain_spaces a && Props.plain_spaces b.
Proof.
  induction a as [|c a IH]; [reflexivity |].
  rewrite append_cons. cbn [Props.plain_spaces]. rewrite IH, andb_assoc. reflexivity.
Qed.

Lemma plain_spaces_pipes (s : string) :
  Props.plain_spaces s = true ->
  Props.plain_spaces (Js.replace_char "|"%char "\|" s) = true.
Proof.
  induction s as [|c s IH]; [reflexivity |].
  cbn [Props.plain_spaces Js.replace_char]. intros H.
  apply andb_true_iff in H. destruct H as [Hc Hs].
  destruct (Ascii.eqb "|"%char c).
  - rewrite plain_spaces_app, (IH Hs). reflexivity.
  - cbn [Props.plain_spaces]. rewrite Hc, (IH Hs). reflexivity.
Qed.

Lemma pipes_after_replace (s : string) (b : bool) :
  Props.pipes_after b (Js.replace_char "|"%char "\|" s) = true.
Proof.
  revert b. induction s as [|c s IH]; intros b; [reflexivity |].
  cbn [Js.replace_char]. destruct (Ascii.eqb "|"%char c) eqn:E.
  - rewrite !append_cons, append_nil. cbn [Props.pipes_after].
    change (Ascii.eqb "\"%char "|"%char) with false.
    change (Ascii.eqb "|"%char "|"%char) with true.
    change (Ascii.eqb "|"%char "\"%char) with false.
    cbn [negb orb andb]. apply IH.
  - cbn [Props.pipes_after]. rewrite Ascii.eqb_sym, E. cbn [negb orb andb]. apply IH.
Qed.

(** A replacement of runs of a character that is white space other than
    the plain space finds nothing in a text whose only white space is the
    plain space. *)
Lemma replace_runs_absent (p : ascii -> bool) (r s : string) :
  (forall c, p c = true -> Js.is_space c = true /\ Ascii.eqb c " "%char = false) ->
  Props.plain_spaces s = true -> Serializer.replace_runs p r s = s.
Proof.
  intros Hp. induction s as [|c s IH]; [reflexivity |].
  cbn [Props.plain_spaces Serializer.replace_runs]. intros H.
  apply andb_true_iff in H. destruct H as [Hc Hs].
  destruct (p c) eqn:E.
  - destruct (Hp c E) as [H1 H2]. rewrite H1, H2 in Hc. discriminate.
  - rewrite (IH Hs). reflexivity.
Qed.

Lemma line_break_is_space (k c : ascii) :
  k = "010"%char \/ k = "013"%char ->
  Ascii.eqb k c = true -> Js.is_space c = true /\ Ascii.eqb c " "%char = false.
Proof.
  intros Hk H. apply Ascii.eqb_eq in H. subst c. destruct Hk as [-> | ->]; split; reflexivity.
Qed.

Lemma plain_spaces_repeat (n : nat) : Props.plain_spaces (Js.repeat_char " " n) = true.
Proof. induction n as [|n IH]; [reflexivity | exact IH]. Qed.

Lemma pipes_after_spaces (s : string) (n : nat) (b : bool) :
  Props.pipes_after b (s +:+ Js.repeat_char " " n) = Props.pipes_after b s.
Proof.
  revert b. induction s as [|c s IH]; intros b.
  - rewrite append_nil. revert b. induction n as [|n IHn]; intros b; [reflexivity |].
    cbn [Js.repeat_char Props.pipes_after].
    change (Ascii.eqb " "%char "|"%char) with false.
    change (Ascii.eqb " "%char "\"%char) with false. cbn [negb orb andb]. apply IHn.
  - rewrite append_cons. cbn [Props.pipes_after]. rewrite IH. reflexivity.
Qed.

Lemma len_repeat_char (c : ascii) (n : nat) : Js.len (Js.repeat_char c n) = Z.of_nat n.
Proof.
  unfold Js.len. induction n as [|n IH]; [reflexivity |].
  cbn [Js.repeat_char String.length]. lia.
Qed.

(** The two replacements of runs of newlines and of carriage returns
    find nothing to replace: they come after the replacement of every
    run of white space by one space. *)
Lemma line_replacements_dead (content : string) (cellElement : option Node) :
  Serializer.cleanCellContent P content cellElement
  = Props.cleanCellContent_two_replacements P content cellElement.
Proof.
  unfold Serializer.cleanCellContent, Props.cleanCellContent_two_replacements.
  set (b := Js.replace_char "|"%char "\|"
              (Serializer.replace_runs Js.is_space " " (Js.trim content))).
  assert (Hb : Props.plain_spaces b = true) by apply plain_spaces_pipes, plain_spaces_runs.
  rewrite (replace_runs_absent (Ascii.eqb "010"%char) " " b)
    by (try exact Hb; intros c; apply line_break_is_space; auto).
  rewrite (replace_runs_absent (Ascii.eqb "013"%char) " " b)
    by (try exact Hb; intros c; apply line_break_is_space; auto).
  reflexivity.
Qed.

Lemma cleanCellContent_plain (content : string) (cellElement : option Node) :
  Props.no_math cellElement ->
  3 <= Js.len (Serializer.cleanCellContent P content cellElement)
  /\ Props.plain_spaces (Serializer.cleanCellContent P content cellElement) = true
  /\ Props.pipes_escaped (Serializer.cleanCellContent P content cellElement) = true.
Proof.
  intros Hmath. unfold Serializer.cleanCellContent.
  assert (Hnone :
    match cellElement with
    | Some cell =>
        match Dom.querySelector cell "block-math" with
        | Some blockMath => Some ("$$" +:+ Serializer.decoded_latex P blockMath +:+ "$$")
        | None =>
            match Dom.querySelector cell "inline-math" with
            | Some inlineMath => Some ("$" +:+ Serializer.decoded_latex P inlineMath +:+ "$")
            | None => None
            end
        end
    | None => None
    end = None).
  { destruct cellElement as [cell|]; [|reflexivity].
    destruct Hmath as [-> ->]. reflexivity. }
  rewrite Hnone. clear Hnone.
  destruct (String.eqb content EmptyString); [repeat split; (reflexivity || (cbn; lia)) |].
  set (a := Serializer.replace_runs Js.is_space " " (Js.trim content)).
  set (b := Js.replace_char "|"%char "\|" a).
  assert (Hb : Props.plain_spaces b = true) by apply plain_spaces_pipes, plain_spaces_runs.
  rewrite (replace_runs_absent (Ascii.eqb "010"%char) " " b)
    by (try exact Hb; intros c; apply line_break_is_space; auto).
  rewrite (replace_runs_absent (Ascii.eqb "013"%char) " " b)
    by (try exact Hb; intros c; apply line_break_is_space; auto).
  destruct (String.eqb b EmptyString || Js.blank b);
    [repeat split; (reflexivity || (cbn; lia)) |].
  destruct (Js.len b <? 3) eqn:E.
  - apply Z.ltb_lt in E. pose proof (len_nonneg b).
    rewrite len_append, len_repeat_char. split; [lia |]. split.
    + rewrite plain_spaces_app, Hb, plain_spaces_repeat. reflexivity.
    + unfold Props.pipes_escaped. rewrite pipes_after_spaces. apply pipes_after_replace.
  - apply Z.ltb_ge in E. split; [lia |]. split; [exact Hb |]. apply pipes_after_replace.
Qed.

(** X10.  The two replacements of runs of newlines and of carriage
    returns at the end of [cleanCellContent] find nothing to replace: the
    function returns what it returns without them, for every content and
    cell.  And a cell without math node is written as a text of at least
    three characters, on one line: its only white space is the plain
    space, and every pipe in it comes directly after a backslash. *)
Theorem cleanCellContent_text (content : string) (cellElement : option Node) :
  Serializer.cleanCellContent P content cellElement
  = Props.cleanCellContent_two_replacements P content cellElement
  /\ (Props.no_math cellElement ->
      3 <= Js.len (Serializer.cleanCellContent P content cellElement)
      /\ Props.plain_spaces (Serializer.cleanCellContent P content cellElement) = true
      /\ Props.pipes_escaped (Serializer.cleanCellContent P content cellElement) = true).
Proof.
  split; [apply line_replacements_dead | apply cleanCellContent_plain].
Qed.

(** X11.  A cell whose [colspan] attribute is missing, empty, not a
    number, or at most one is written as one cell: the prefix, the cleaned
    content and the closing pipe, with no padded cell after it.  The
    prefix opens the row with a pipe exactly when the index the rule works
    with is zero. *)
Theorem cellWithLatex_single
    (content : string) (node : Node) (position index : option Z) :
  Props.no_colspan node ->
  Serializer.cellWithLatex P content node position index
  = (if Props.cell_index position index =? 0 then "| " else " ")
    +:+ Serializer.cleanCellContent P content (Some node) +:+ " |".
Proof.
  unfold Props.no_colspan, Serializer.cellWithLatex. intros H.
  assert (Hidx :
    match
      match index, position with
      | None, Some k => Some k
      | _, _ => index
      end
    with None => 0 | Some k => k end = Props.cell_index position index)
    by (destruct index, position; reflexivity).
  rewrite Hidx. clear Hidx.
  assert (Hcol :
    match Serializer.parseInt (Dom.or_default (Dom.getAttribute node "colspan") "1") with
    | Some n => if n <? 1 then 1 else n
    | None => 1
    end = 1).
  { destruct (Dom.getAttribute node "colspan") as [s|]; [|reflexivity].
    destruct s as [|c s]; [reflexivity |]. cbn [Dom.or_default].
    destruct (Serializer.parseInt (String c s)) as [n|]; [|reflexivity].
    destruct (n <? 1) eqn:E; [reflexivity |]. apply Z.ltb_ge in E. lia. }
  rewrite Hcol. reflexivity.
Qed.

End CellFacts.

(** The content [a | b] followed by a newline, in a cell without element. *)
Lemma cleanCellContent_text_witness :
  3 <= Js.len (Serializer.cleanCellContent Recorded.packages
                 ("a | b" +:+ Spec.newline) None)
  /\ Props.plain_spaces (Serializer.cleanCellContent Recorded.packages
                           ("a | b" +:+ Spec.newline) None) = true
  /\ Props.pipes_escaped (Serializer.cleanCellContent Recorded.packages
                            ("a | b" +:+ Spec.newline) None) = true.
Proof.
  apply (proj2 (cleanCellContent_text Recorded.packages ("a | b" +:+ Spec.newline) None)).
  exact I.
Defined.

(** A second cell whose [colspan] reads [abc]. *)
Lemma cellWithLatex_single_witness :
  Serializer.cellWithLatex Recorded.packages "x"
    (Element "TD" [("colspan", "abc")] [TextNode "x"]) (Some 1) None
  = " " +:+ "x  " +:+ " |".
Proof.
  apply (cellWithLatex_single Recorded.packages "x"
           (Element "TD" [("colspan", "abc")] [TextNode "x"]) (Some 1) None).
  exact I.
Defined.

Section TableRules.

Import Tables.

Lemma border_loop_next (i n : nat) (acc : string) :
  border_loop (S i) n acc = acc +:+ Props.repeat_string n " --- |".
Proof.
  revert i acc. induction n as [|n IH]; intros i acc.
  - cbn [border_loop Props.repeat_string]. rewrite append_empty_r. reflexivity.
  - cbn [border_loop Props.repeat_string]. change (S i =? 0)%nat with false. cbn iota.
    rewrite IH, !append_assoc. reflexivity.
Qed.

(** The border the row rule builds for a row of [n + 1] cells. *)
Lemma border_loop_line (n : nat) :
  border_loop 0 (S n) EmptyString = Props.separator_line (S n).
Proof.
  cbn [border_loop]. change (0 =? 0)%nat with true. cbn iota.
  rewrite border_loop_next. reflexivity.
Qed.


Lemma separator_line_test (n : nat) : separator_test (Props.separator_line (S n)) = true.
Proof. reflexivity. Qed.

Lemma separator_line_not_empty (n : nat) :
  String.eqb (Props.separator_line n) EmptyString = false.
Proof. reflexivity. Qed.

Lemma tableRow_header_line (content : string) (node : Node) :
  Js.trim content <> EmptyString ->
  cells node <> [] ->
  tableRow content node (Some "THEAD") true
  = lf +:+ content +:+ lf +:+ Props.separator_line (List.length (cells node)).
Proof.
  intros Hc Hcells. unfold tableRow.
  assert (E1 : String.eqb content EmptyString = false).
  { apply String.eqb_neq. intros ->. apply Hc. reflexivity. }
  assert (E2 : String.eqb (Js.trim content) EmptyString = false)
    by (apply String.eqb_neq; exact Hc).
  rewrite E1, E2. cbn [orb].
  change (String.eqb "THEAD" "THEAD" && true) with true. cbn iota.
  destruct (cells node) as [|c l]; [contradiction |].
  cbn [List.length]. rewrite border_loop_line, separator_line_not_empty. reflexivity.
Qed.

(** X12.  A header row (a row under [THEAD], inside a table) with at
    least one cell and a content that is not blank is written as a
    newline, the content, a newline and the separator line with one
    [---] cell for each cell of the row. *)
Theorem tableRow_header (content : string) (node : Node) :
  Js.trim content <> EmptyString ->
  cells node <> [] ->
  tableRow content node (Some "THEAD") true
  = lf +:+ content +:+ lf +:+ Props.separator_line (List.length (cells node)).
Proof. exact (tableRow_header_line content node). Qed.

Lemma trimStart_blank (s : string) : Js.blank s = true -> Js.trimStart s = EmptyString.
Proof.
  induction s as [|c s IH]; [reflexivity |]. cbn [Js.blank Js.trimStart]. intros H.
  apply andb_true_iff in H. destruct H as [-> H]. exact (IH H).
Qed.

Lemma trim_blank (s : string) : Js.blank s = true -> Js.trim s = EmptyString.
Proof. intros H. unfold Js.trim. rewrite (trimStart_blank s H). reflexivity. Qed.

Lemma blank_replace_runs (s : string) :
  Js.blank s = true ->
  Js.blank (Serializer.replace_runs (Ascii.eqb "010"%char) lf s) = true.
Proof.
  induction s as [|c s IH]; [reflexivity |]. cbn [Js.blank Serializer.replace_runs]. intros H.
  apply andb_true_iff in H. destruct H as [Hc Hs]. specialize (IH Hs).
  destruct (Ascii.eqb "010"%char c).
  - destruct s as [|d s']; [reflexivity |].
    destruct (Ascii.eqb "010"%char d); [exact IH |].
    unfold lf. rewrite append_cons, append_nil. cbn [Js.blank]. exact IH.
  - cbn [Js.blank]. rewrite Hc. exact IH.
Qed.

(** X13.  A row or a table whose content is blank is written as the
    empty text, whatever the node and its place. *)
Theorem blank_rows_and_tables_vanish (content : string) :
  Js.blank content = true ->
  (forall node parentName inTable, tableRow content node parentName inTable = EmptyString)
  /\ table content = EmptyString.
Proof.
  intros H. split.
  - intros node parentName inTable. unfold tableRow.
    rewrite (trim_blank content H). change (String.eqb EmptyString EmptyString) with true.
    rewrite orb_true_r. reflexivity.
  - unfold table, clean. rewrite (trim_blank _ (blank_replace_runs content H)). reflexivity.
Qed.



Lemma has_char_app (c : ascii) (a b : string) :
  Contract.has_char c (a +:+ b) = Contract.has_char c a || Contract.has_char c b.
Proof.
  induction a as [|x a IH]; [reflexivity |].
  rewrite append_cons. cbn [Contract.has_char]. rewrite IH, orb_assoc. reflexivity.
Qed.

Lemma separator_line_one_line (n : nat) :
  Contract.has_char "010"%char (Props.separator_line n) = false.
Proof.
  unfold Props.separator_line. rewrite has_char_app.
  change (Contract.has_char "010"%char "|") with false. cbn [orb].
  induction n as [|n IH]; [reflexivity |].
  cbn [Props.repeat_string]. rewrite has_char_app, IH. reflexivity.
Qed.

Lemma replace_lf_none (a b : string) :
  Contract.has_char "010"%char a = false ->
  Serializer.replace_runs (Ascii.eqb "010"%char) lf (a +:+ b)
  = a +:+ Serializer.replace_runs (Ascii.eqb "010"%char) lf b.
Proof.
  induction a as [|x a IH]; [reflexivity |]. cbn [Contract.has_char]. intros H.
  apply orb_false_iff in H. destruct H as [Hx Ha].
  rewrite !append_cons. cbn [Serializer.replace_runs]. rewrite Hx, (IH Ha). reflexivity.
Qed.

Lemma replace_lf_absent (a : string) :
  Contract.has_char "010"%char a = false ->
  Serializer.replace_runs (Ascii.eqb "010"%char) lf a = a.
Proof.
  intros H. rewrite <- (append_empty_r a) at 1. rewrite (replace_lf_none a EmptyString H).
  cbn [Serializer.replace_runs]. apply append_empty_r.
Qed.

Lemma replace_lf_one (d : ascii) (r : string) :
  Ascii.eqb "010"%char d = false ->
  Serializer.replace_runs (Ascii.eqb "010"%char) lf (lf +:+ String d r)
  = lf +:+ Serializer.replace_runs (Ascii.eqb "010"%char) lf (String d r).
Proof.
  intros H. unfold lf at 2. rewrite append_cons, append_nil.
  change (Serializer.replace_runs (Ascii.eqb "010"%char) lf (String "010"%char (String d r)))
    with (if Ascii.eqb "010"%char d
          then Serializer.replace_runs (Ascii.eqb "010"%char) lf (String d r)
          else lf +:+ Serializer.replace_runs (Ascii.eqb "010"%char) lf (String d r)).
  rewrite H. reflexivity.
Qed.

Lemma ends_nonspace_app (a : string) (x : ascii) (b : string) :
  Props.ends_nonspace (a +:+ String x b) = Props.ends_nonspace (String x b).
Proof.
  induction a as [|y a IH]; [reflexivity |].
  rewrite append_cons.
  change (Props.ends_nonspace (String y (a +:+ String x b)))
    with (match a +:+ String x b with
          | EmptyString => negb (Js.is_space y)
          | _ => Props.ends_nonspace (a +:+ String x b)
          end).
  destruct (a +:+ String x b) eqn:E; [destruct a; discriminate |].
  exact IH.
Qed.

Lemma trimEnd_fixed (s : string) : Props.ends_nonspace s = true -> Js.trimEnd s = s.
Proof.
  induction s as [|c s IH]; [discriminate |].
  rewrite trimEnd_cons. destruct s as [|d s'].
  - cbn [Props.ends_nonspace Js.trimEnd]. intros H. apply negb_true_iff in H. rewrite H.
    reflexivity.
  - intros H. change (Props.ends_nonspace (String c (String d s')))
      with (Props.ends_nonspace (String d s')) in H.
    rewrite (IH H). reflexivity.
Qed.

Lemma ends_nonspace_cons2 (a b : ascii) (s : string) :
  Props.ends_nonspace (String a (String b s)) = Props.ends_nonspace (String b s).
Proof. reflexivity. Qed.

Lemma separator_line_ends (n : nat) :
  exists x, Props.separator_line n = String "|"%char x
            /\ Props.ends_nonspace (String "|"%char x) = true.
Proof.
  unfold Props.separator_line. rewrite append_cons, append_nil.
  eexists. split; [reflexivity |].
  induction n as [|n IH]; [reflexivity |].
  cbn [Props.repeat_string]. rewrite !append_cons, append_nil.
  do 6 rewrite ends_nonspace_cons2.
  exact IH.
Qed.

Lemma split_lines_single (a : string) :
  Contract.has_char "010"%char a = false -> split_lines a = [a].
Proof.
  induction a as [|x a IH]; [reflexivity |]. cbn [Contract.has_char split_lines]. intros H.
  apply orb_false_iff in H. destruct H as [Hx Ha].
  rewrite Ascii.eqb_sym, Hx, (IH Ha). reflexivity.
Qed.

Lemma split_lines_app (a b : string) :
  Contract.has_char "010"%char a = false ->
  split_lines (a +:+ lf +:+ b) = a :: split_lines b.
Proof.
  induction a as [|x a IH]; [reflexivity |]. cbn [Contract.has_char]. intros H.
  apply orb_false_iff in H. destruct H as [Hx Ha].
  rewrite append_cons. cbn [split_lines]. rewrite Ascii.eqb_sym, Hx, (IH Ha). reflexivity.
Qed.

Lemma trim_head (c : ascii) (r : string) :
  Js.is_space c = false -> exists t, Js.trim (String c r) = String c t.
Proof.
  intros H. unfold Js.trim. cbn [Js.trimStart]. rewrite H, trimEnd_cons.
  destruct (Js.trimEnd r); [rewrite H |]; eauto.
Qed.

Lemma trim_head_not_empty (c : ascii) (r : string) :
  Js.is_space c = false -> String.eqb (Js.trim (String c r)) EmptyString = false.
Proof. intros H. destruct (trim_head c r H) as [t ->]. reflexivity. Qed.

(** X15.  The row rule and the table rule fit together: for a table made
    of a header row on one line, the output of the row rule (the line and
    its separator) is taken by the table rule as a table that already has
    its separator, so the table is the line, one separator line, and
    nothing else between the blank lines around it. *)
Theorem table_of_header_row (c : ascii) (r : string) (node : Node) :
  Js.is_space c = false ->
  Contract.has_char "010"%char (String c r) = false ->
  cells node <> [] ->
  table (tableRow (String c r) node (Some "THEAD") true)
  = lf +:+ lf +:+ String c r +:+ lf
    +:+ Props.separator_line (List.length (cells node)) +:+ lf +:+ lf.
Proof.
  intros Hc Hone Hcells.
  rewrite tableRow_header_line;
    [| intros E; pose proof (trim_head_not_empty c r Hc) as E'; rewrite E in E'; discriminate
     | exact Hcells].
  destruct (separator_line_ends (List.length (cells node))) as (x & Hx & Hend).
  pose proof (separator_line_one_line (List.length (cells node))) as Hsep1.
  assert (Htest : separator_test (Props.separator_line (List.length (cells node))) = true).
  { destruct (cells node); [contradiction | apply separator_line_test]. }
  set (sep := Props.separator_line (List.length (cells node))) in *.
  assert (Hlf : Ascii.eqb "010"%char c = false).
  { cbn [Contract.has_char] in Hone. apply orb_false_iff in Hone. apply Hone. }
  assert (Hclean : clean (lf +:+ String c r +:+ lf +:+ sep) = String c r +:+ lf +:+ sep).
  { unfold clean. rewrite append_cons at 1. rewrite (replace_lf_one c _ Hlf).
    rewrite <- append_cons. rewrite (replace_lf_none _ _ Hone).
    rewrite Hx. rewrite (replace_lf_one "|"%char x eq_refl). rewrite <- Hx.
    rewrite (replace_lf_absent sep Hsep1).
    unfold Js.trim. unfold lf at 1. rewrite append_cons, append_nil.
    rewrite append_cons. cbn [Js.trimStart].
    change (Js.is_space "010"%char) with true. cbn iota. rewrite Hc.
    apply trimEnd_fixed. rewrite <- append_cons, <- append_assoc, Hx, ends_nonspace_app.
    exact Hend. }
  unfold table, table_lines. rewrite Hclean.
  rewrite (append_cons c r). change (String.eqb (String c (r +:+ lf +:+ sep)) EmptyString)
    with false. cbn iota. rewrite <- (append_cons c r).
  rewrite (split_lines_app _ _ Hone), (split_lines_single sep Hsep1).
  cbn [List.filter]. rewrite (trim_head_not_empty c r Hc). cbn [negb].
  assert (Hsepne : String.eqb (Js.trim sep) EmptyString = false)
    by (rewrite Hx; apply trim_head_not_empty; reflexivity).
  rewrite Hsepne. cbn [negb]. rewrite Htest. cbn [negb andb].
  unfold join_lines. cbn [String.concat]. rewrite !append_assoc. reflexivity.
Qed.

End TableRules.

(** The header row with the two cells [a] and [b]. *)
Lemma tableRow_header_witness :
  Tables.tableRow "| a | b |" Props.header_row (Some "THEAD") true
  = Tables.lf +:+ "| a | b |" +:+ Tables.lf +:+ "| --- | --- |".
Proof.
  apply (tableRow_header "| a | b |" Props.header_row); discriminate.
Defined.

(** A row and a table made of two spaces. *)
Lemma blank_rows_and_tables_vanish_witness :
  Tables.tableRow "  " Props.header_row (Some "THEAD") true = EmptyString
  /\ Tables.table "  " = EmptyString.
Proof.
  destruct (blank_rows_and_tables_vanish "  " eq_refl) as [Hrow Htable].
  split; [apply Hrow | exact Htable].
Defined.


(** The header row [| a | b |] alone in its table. *)
Lemma table_of_header_row_witness :
  Tables.table (Tables.tableRow "| a | b |" Props.header_row (Some "THEAD") true)
  = Tables.lf +:+ Tables.lf +:+ "| a | b |" +:+ Tables.lf +:+ "| --- | --- |"
    +:+ Tables.lf +:+ Tables.lf.
Proof.
  apply (table_of_header_row "|"%char " a | b |" Props.header_row);
    [reflexivity | reflexivity | discriminate].
Defined.

Section TaskItemRules.

Import TaskItems.

Lemma task_match_shape (s : string) (check : ascii) (rest : string) :
  TaskList.task_match s = Some (check, rest) ->
  (check = " "%char \/ check = "x"%char)
  /\ Contract.has_char "010"%char rest = false
  /\ Contract.has_char "013"%char rest = false
  /\ Props.no_leading_space rest.
Proof.
  rewrite task_match_unfold.
  destruct (Js.trimStart s) as [|a [|c [|b [|d r]]]]; try discriminate.
  destruct (Ascii.eqb a "["%char && Ascii.eqb b "]"%char && TaskList.is_check c
            && Js.is_space d) eqn:E; [|discriminate].
  intros H. inversion H; subst check rest. clear H.
  apply andb_true_iff in E. destruct E as [E _].
  apply andb_true_iff in E. destruct E as [_ Ec].
  unfold TaskList.is_check in Ec. apply orb_true_iff in Ec.
  split; [destruct Ec as [Ec|Ec]; apply Ascii.eqb_eq in Ec; auto |].
  destruct (dot_star_line (Js.trimStart r)) as [H1 H2].
  repeat split; try assumption.
  apply dot_star_head, trimStart_head.
Qed.

Lemma dot_star_fixed (s : string) :
  Contract.has_char "010"%char s = false -> Contract.has_char "013"%char s = false ->
  TaskList.dot_star s = s.
Proof.
  induction s as [|c s IH]; [reflexivity |]. cbn [Contract.has_char TaskList.dot_star].
  intros H1 H2. apply orb_false_iff in H1, H2. destruct H1 as [E1 H1], H2 as [E2 H2].
  unfold Js.is_line_terminator.
  assert (F1 : (Js.code c =? 10) = false).
  { destruct (Z.eqb_spec (Js.code c) 10) as [E|]; [|reflexivity].
    assert (c = "010"%char).
    { unfold Js.code in E. rewrite <- (ascii_N_embedding c).
      replace (N_of_ascii c) with 10%N by lia. reflexivity. }
    subst c. discriminate E1. }
  assert (F2 : (Js.code c =? 13) = false).
  { destruct (Z.eqb_spec (Js.code c) 13) as [E|]; [|reflexivity].
    assert (c = "013"%char).
    { unfold Js.code in E. rewrite <- (ascii_N_embedding c).
      replace (N_of_ascii c) with 13%N by lia. reflexivity. }
    subst c. discriminate E2. }
  rewrite F1, F2. cbn [orb]. rewrite (IH H1 H2). reflexivity.
Qed.

Lemma trimEnd_blank (s : string) : Js.blank s = true -> Js.trimEnd s = EmptyString.
Proof.
  induction s as [|c s IH]; [reflexivity |]. cbn [Js.blank]. intros H.
  apply andb_true_iff in H. destruct H as [Hc Hs].
  rewrite trimEnd_cons, (IH Hs), Hc. reflexivity.
Qed.

Lemma trimEnd_app_blank (a b : string) :
  Js.blank b = true -> Js.trimEnd (a +:+ b) = Js.trimEnd a.
Proof.
  intros Hb. induction a as [|c a IH]; [rewrite append_nil; apply trimEnd_blank, Hb |].
  rewrite append_cons, !trimEnd_cons, IH. reflexivity.
Qed.

Lemma trim_padded (rest : string) :
  Js.trim (" " +:+ rest +:+ Tables.lf) = Js.trim rest.
Proof.
  unfold Js.trim. rewrite append_cons, append_nil. cbn [Js.trimStart].
  change (Js.is_space " "%char) with true. cbn iota.
  induction rest as [|c rest IH]; [reflexivity |].
  rewrite append_cons. cbn [Js.trimStart]. destruct (Js.is_space c); [exact IH |].
  rewrite <- append_cons. apply trimEnd_app_blank. reflexivity.
Qed.

Lemma textContent_item (b : bool) (rest : string) :
  Js.trim (textContent (Props.item_element b rest)) = Js.trim rest.
Proof.
  rewrite <- (trim_padded rest). unfold Props.item_element. cbn [textContent].
  rewrite !append_empty_r, !append_nil.
  unfold Tables.lf at 1. rewrite append_cons, append_nil. reflexivity.
Qed.

Lemma textContent_tight_item (b : bool) (rest : string) :
  Js.trim (textContent (Props.tight_item_element b rest)) = Js.trim rest.
Proof.
  unfold Props.tight_item_element. cbn [textContent].
  rewrite !append_empty_r, !append_nil.
  unfold Js.trim. rewrite append_cons, append_nil. reflexivity.
Qed.

Lemma isChecked_item (b : bool) (rest : string) :
  isChecked (Props.item_element b rest) = b
  /\ isChecked (Props.tight_item_element b rest) = b.
Proof. destruct b; split; reflexivity. Qed.

Lemma task_match_marker (b : bool) (t : string) :
  TaskList.task_match (Props.item_marker b +:+ " " +:+ t)
  = Some (if b then "x"%char else " "%char, TaskList.dot_star (Js.trimStart t)).
Proof. destruct b; reflexivity. Qed.

(** X16.  A task item read by the parser rule and written back by the
    serializer rule keeps its marker and its text.  Let an item match
    with the marker [check] and the text [rest], and let [node] be a
    task-item element whose checked state is that of the marker and whose
    text content, trimmed, is [rest] trimmed.  Then the serializer rule
    writes for [node] the line [- ], the marker, that trimmed text, and a
    blank line; and the task pattern reads that line back as the same
    marker with that text.  The two hypotheses on [node] say what the
    document parser has made of the markup; they hold for the elements of
    an item whose text holds no markup and no entity. *)
Theorem task_item_round_trip
    (source content : string) (check : ascii) (rest : string) (node : Node) :
  TaskList.task_match source = Some (check, rest) ->
  isChecked node = TaskList.isChecked check ->
  Js.trim (textContent node) = Js.trim rest ->
  exists line,
    taskListItems content node = "- " +:+ line +:+ Tables.lf +:+ Tables.lf
    /\ line = Props.item_marker (TaskList.isChecked check) +:+ " " +:+ Js.trim rest
    /\ TaskList.task_match line = Some (check, Js.trim rest).
Proof.
  intros H Hchecked Htext.
  destruct (task_match_shape source check rest H) as (Hc & H1 & H2 & Hlead).
  eexists. split; [|split; [reflexivity |]].
  - unfold taskListItems. rewrite Hchecked, Htext.
    unfold Props.item_marker. rewrite !append_assoc. reflexivity.
  - assert (Hrest : TaskList.dot_star (Js.trimStart (Js.trim rest)) = Js.trim rest).
    { rewrite trimStart_fixed by (apply trimEnd_no_leading, trimStart_no_leading).
      apply dot_star_fixed; apply has_char_trim; assumption. }
    rewrite task_match_marker, Hrest.
    destruct Hc as [-> | ->]; reflexivity.
Qed.

End TaskItemRules.

(** The item [[x] buy milk], with two spaces after the text, in a loose
    list and in a tight list. *)
Lemma task_item_round_trip_witness :
  (TaskItems.taskListItems_filter (Props.item_element true "buy milk  ") = true
   /\ exists line,
        TaskItems.taskListItems "ignored" (Props.item_element true "buy milk  ")
        = "- " +:+ line +:+ Tables.lf +:+ Tables.lf
        /\ line = "[x]" +:+ " " +:+ "buy milk"
        /\ TaskList.task_match line = Some ("x"%char, "buy milk"))
  /\ (TaskItems.taskListItems_filter (Props.tight_item_element true "buy milk  ") = true
      /\ exists line,
           TaskItems.taskListItems "ignored" (Props.tight_item_element true "buy milk  ")
           = "- " +:+ line +:+ Tables.lf +:+ Tables.lf
           /\ line = "[x]" +:+ " " +:+ "buy milk"
           /\ TaskList.task_match line = Some ("x"%char, "buy milk")).
Proof.
  split; (split; [reflexivity |]).
  - apply (task_item_round_trip "[x] buy milk  " "ignored" "x"%char "buy milk  "
             (Props.item_element true "buy milk  ")); reflexivity.
  - apply (task_item_round_trip "[x] buy milk  " "ignored" "x"%char "buy milk  "
             (Props.tight_item_element true "buy milk  ")); reflexivity.
Defined.

(* ===================================================================== *)
(** * The syntax sniffer *)
(* ===================================================================== *)

Section SniffFacts.

Import Sniff.

Lemma anywhere_tail (k : matcher) (c : ascii) (s : string) :
  anywhere k s = true -> anywhere k (String c s) = true.
Proof. intros H. cbn [anywhere]. rewrite H. apply orb_true_r. Qed.

Lemma anywhere_here (k : matcher) (s : string) : k s = true -> anywhere k s = true.
Proof. intros H. destruct s; cbn [anywhere]; rewrite H; reflexivity. Qed.

Lemma anywhere_weaken (k1 k2 : matcher) :
  (forall s, k1 s = true -> anywhere k2 s = true) ->
  forall s, anywhere k1 s = true -> anywhere k2 s = true.
Proof.
  intros Hk s. induction s as [|c s IH]; cbn [anywhere]; intros H.
  - rewrite orb_false_r in H. apply Hk in H. exact H.
  - apply orb_true_iff in H. destruct H as [H|H]; [exact (Hk _ H) |].
    apply anywhere_tail, IH, H.
Qed.

Lemma anywhere_app (k : matcher) (a s : string) :
  anywhere k s = true -> anywhere k (a +:+ s) = true.
Proof.
  intros H. induction a as [|c a IH]; [exact H |].
  rewrite append_cons. apply anywhere_tail, IH.
Qed.

Lemma dots_here (k : matcher) (s : string) : k s = true -> dots k s = true.
Proof. intros H. destruct s; cbn [dots]; rewrite H; reflexivity. Qed.

Lemma dots_app (k : matcher) (a s : string) :
  Props.one_line a = true -> k s = true -> dots k (a +:+ s) = true.
Proof.
  intros Ha H. induction a as [|c a IH]; [apply dots_here, H |].
  cbn [Props.one_line] in Ha. apply andb_true_iff in Ha. destruct Ha as [Hc Ha].
  rewrite append_cons. cbn [dots]. rewrite Hc, (IH Ha). apply orb_true_r.
Qed.

(** Two asterisks in a row are an asterisk, nothing, and an asterisk. *)
Lemma bold_is_italic (s : string) :
  lit "**" (dots (lit "**" done)) s = true -> lit "*" (dots (lit "*" done)) s = true.
Proof.
  unfold lit at 1. intros H. apply andb_true_iff in H. destruct H as [H _].
  destruct s as [|a [|b s]]; cbn [Js.startsWith] in H;
    rewrite ?andb_false_r in H; try discriminate H.
  apply andb_true_iff in H. destruct H as [Ha H].
  apply andb_true_iff in H. destruct H as [Hb _].
  apply Ascii.eqb_eq in Ha, Hb. subst a b. reflexivity.
Qed.

(** Three backticks are a backtick, a backtick, and a backtick. *)
Lemma fence_is_code (s : string) :
  lit "```" done s = true -> lit "`" (dots (lit "`" done)) s = true.
Proof.
  unfold lit at 1. intros H. apply andb_true_iff in H. destruct H as [H _].
  destruct s as [|a [|b [|c s]]]; cbn [Js.startsWith] in H;
    rewrite ?andb_false_r in H; try discriminate H.
  apply andb_true_iff in H. destruct H as [Ha H].
  apply andb_true_iff in H. destruct H as [Hb H].
  apply andb_true_iff in H. destruct H as [Hc _].
  apply Ascii.eqb_eq in Ha, Hb, Hc. subst a b c. reflexivity.
Qed.

(** An image is an exclamation mark and a link. *)
Lemma image_is_link (k : matcher) (s : string) :
  lit "![" k s = true -> anywhere (lit "[" k) s = true.
Proof.
  unfold lit at 1. intros H. apply andb_true_iff in H. destruct H as [H Hk].
  destruct s as [|a [|b s]]; cbn [Js.startsWith] in H;
    rewrite ?andb_false_r in H; try discriminate H.
  cbn [Js.drop String.length] in Hk.
  apply andb_true_iff in H. destruct H as [_ H].
  apply andb_true_iff in H. destruct H as [Hb _]. apply Ascii.eqb_eq in Hb. subst b.
  apply anywhere_tail, anywhere_here. unfold lit. cbn [Js.startsWith].
  change (Ascii.eqb "["%char "["%char) with true. cbn [andb]. exact Hk.
Qed.

Lemma bold_is_italic_here (s : string) :
  lit "**" (dots (lit "**" done)) s = true ->
  anywhere (lit "*" (dots (lit "*" done))) s = true.
Proof. intros H. apply anywhere_here, bold_is_italic, H. Qed.

Lemma fence_is_code_here (s : string) :
  lit "```" done s = true -> anywhere (lit "`" (dots (lit "`" done))) s = true.
Proof. intros H. apply anywhere_here, fence_is_code, H. Qed.

(** X17.  Three of the ten expressions of the sniffer never decide: a
    text that passes the one for bold text passes the one for italic
    text, a text that passes the one for code blocks passes the one for
    inline code, and a text that passes the one for images passes the one
    for links.  The answer is that of the seven others. *)
Theorem isMarkdownContent_effective (content : string) :
  isMarkdownContent content
  = negb (String.eqb content EmptyString)
    && existsb (fun pattern => pattern content) Props.effective_patterns.
Proof.
  unfold isMarkdownContent. destruct (String.eqb content EmptyString); [reflexivity |].
  cbn [negb andb]. unfold markdownPatterns, Props.effective_patterns. cbn [existsb].
  set (k := dots (lit "](" (dots (lit ")" done)))).
  pose proof (anywhere_weaken _ _ bold_is_italic_here content) as H1.
  pose proof (anywhere_weaken _ _ fence_is_code_here content) as H2.
  pose proof (anywhere_weaken _ _ (image_is_link k) content) as H3.
  destruct (anywhere (lit "**" (dots (lit "**" done))) content);
  destruct (anywhere (lit "```" done) content);
  destruct (anywhere (lit "![" k) content);
  try rewrite (H1 eq_refl); try rewrite (H2 eq_refl); try rewrite (H3 eq_refl);
  rewrite ?orb_true_r, ?orb_false_r, ?orb_false_l; reflexivity.
Qed.

Lemma anywhere_lit_absent (x : ascii) (p : string) (k : matcher) (s : string) :
  Contract.has_char x s = false -> anywhere (lit (String x p) k) s = false.
Proof.
  induction s as [|c s IH]; [reflexivity |]. cbn [Contract.has_char]. intros H.
  apply orb_false_iff in H. destruct H as [Hc Hs].
  cbn [anywhere]. rewrite (IH Hs), orb_false_r.
  unfold lit. cbn [Js.startsWith]. rewrite Hc. reflexivity.
Qed.

Lemma anywhere_lit_second_absent (a x : ascii) (p : string) (k : matcher) (s : string) :
  Contract.has_char x s = false -> anywhere (lit (String a (String x p)) k) s = false.
Proof.
  induction s as [|c s IH]; [reflexivity |]. cbn [Contract.has_char]. intros H.
  apply orb_false_iff in H. destruct H as [Hc Hs].
  cbn [anywhere]. rewrite (IH Hs), orb_false_r.
  unfold lit. cbn [Js.startsWith]. destruct s as [|d s']; [rewrite andb_false_r; reflexivity |].
  cbn [Contract.has_char] in Hs. apply orb_false_iff in Hs. destruct Hs as [Hd _].
  rewrite Hd. cbn [andb]. rewrite andb_false_r. reflexivity.
Qed.

(** X18.  The expressions for headers, list items and quotes are tied to
    the start of the text and not to the start of a line: a text whose
    first character is none of [#], [*], [-], [+], [>] and no digit, and
    which holds no asterisk, no backtick and no opening bracket, is not
    taken for Markdown, whatever its later lines begin with. *)
Theorem unmarked_text_not_markdown (c : ascii) (r : string) :
  Props.line_marker c = false ->
  Contract.has_char "*"%char (String c r) = false ->
  Contract.has_char "`"%char (String c r) = false ->
  Contract.has_char "["%char (String c r) = false ->
  isMarkdownContent (String c r) = false.
Proof.
  intros Hm Hstar Htick Hbr. unfold isMarkdownContent.
  change (String.eqb (String c r) EmptyString) with false. cbn iota.
  unfold markdownPatterns. cbn [existsb].
  rewrite !(anywhere_lit_absent _ _ _ _ Hstar), !(anywhere_lit_absent _ _ _ _ Htick),
    (anywhere_lit_absent _ _ _ _ Hbr), (anywhere_lit_second_absent _ _ _ _ _ Hbr).
  unfold Props.line_marker in Hm.
  repeat (apply orb_false_iff in Hm; destruct Hm as [Hm ?]).
  assert (E : forall x, Ascii.eqb c x = false -> forall k, lit (String x EmptyString) k (String c r) = false).
  { intros x Hx k. unfold lit. cbn [Js.startsWith]. rewrite Ascii.eqb_sym, Hx. reflexivity. }
  rewrite !E by assumption.
  cbn [hashes digits_then]. rewrite Hm.
  match goal with H : Serializer.is_digit c = false |- _ => rewrite H end.
  reflexivity.
Qed.

(** X19.  Two asterisks on one line are enough: a text that holds an
    asterisk, then any characters but line terminators, then an asterisk
    is taken for Markdown, whatever stands around them. *)
Theorem asterisk_pair_is_markdown (before between after : string) :
  Props.one_line between = true ->
  isMarkdownContent (before +:+ "*" +:+ between +:+ "*" +:+ after) = true.
Proof.
  intros H. unfold isMarkdownContent.
  assert (Hne : String.eqb (before +:+ "*" +:+ between +:+ "*" +:+ after) EmptyString = false)
    by (destruct before; reflexivity).
  rewrite Hne.
  assert (Hit : anywhere (lit "*" (dots (lit "*" done)))
                  (before +:+ "*" +:+ between +:+ "*" +:+ after) = true).
  { apply anywhere_app, anywhere_here. unfold lit at 1.
    rewrite append_cons, append_nil. cbn [Js.startsWith String.length Js.drop].
    change (Ascii.eqb "*"%char "*"%char) with true. cbn [andb].
    apply dots_app; [exact H | reflexivity]. }
  unfold markdownPatterns. cbn [existsb]. rewrite Hit.
  rewrite ?orb_true_r, ?orb_true_l. reflexivity.
Qed.

End SniffFacts.

(** A text whose second and third lines are a header and a list item. *)
Lemma unmarked_text_not_markdown_witness :
  Sniff.isMarkdownContent
    ("Hello" +:+ Spec.newline +:+ "# Title" +:+ Spec.newline +:+ "- item") = false.
Proof.
  apply (unmarked_text_not_markdown "H"%char
           ("ello" +:+ Spec.newline +:+ "# Title" +:+ Spec.newline +:+ "- item"));
    reflexivity.
Defined.

(** The sum [2*3 + 4*5]. *)
Lemma asterisk_pair_is_markdown_witness :
  Sniff.isMarkdownContent ("2" +:+ "*" +:+ "3 + 4" +:+ "*" +:+ "5") = true.
Proof. apply (asterisk_pair_is_markdown "2" "3 + 4" "5"). reflexivity. Defined.

(* ===================================================================== *)
(** * The image pass, the single-tag wrapper and the preview *)
(* ===================================================================== *)

Section ImageFacts.

Import Facade.

Ltac bits c := destruct c as [[] [] [] [] [] [] [] []].

Ltac norm_app :=
  repeat (rewrite append_assoc || rewrite append_cons || rewrite append_nil).

Lemma image_tail_unfold (r : string) :
  image_tail r =
  match
    match Guard.span Js.is_space r with
    | (String _ _, String q r2) =>
        if Ascii.eqb q "034"%char then
          match Guard.span (fun d => negb (Ascii.eqb d "034"%char)) r2 with
          | (title, String _ (String y r4)) =>
              if Ascii.eqb y ")"%char then Some (Some title, r4) else None
          | _ => None
          end
        else None
    | _ => None
    end
  with
  | Some x => Some x
  | None =>
      match r with
      | String y r' => if Ascii.eqb y ")"%char then Some (None, r') else None
      | EmptyString => None
      end
  end.
Proof.
  unfold image_tail.
  assert (E : forall r2,
    match Guard.span (fun d => negb (Ascii.eqb d "034"%char)) r2 with
    | (title, String _ (String ")"%char r4)) => Some (Some title, r4)
    | _ => None
    end =
    match Guard.span (fun d => negb (Ascii.eqb d "034"%char)) r2 with
    | (title, String _ (String y r4)) =>
        if Ascii.eqb y ")"%char then Some (Some title, r4) else None
    | _ => None
    end).
  { intros r2. destruct (Guard.span _ r2) as [title [|x [|y r4]]]; try reflexivity.
    bits y; reflexivity. }
  assert (F : match r with
              | String ")"%char r' => Some (@None string, r')
              | _ => None
              end =
              match r with
              | String y r' => if Ascii.eqb y ")"%char then Some (None, r') else None
              | EmptyString => None
              end).
  { destruct r as [|y r']; [reflexivity |]. bits y; reflexivity. }
  rewrite F.
  destruct (Guard.span Js.is_space r) as [[|s0 a] [|q r2]]; try reflexivity.
  rewrite E. reflexivity.
Qed.

Lemma image_match_unfold (s : string) :
  image_match s =
  match s with
  | String a (String b r) =>
      if Ascii.eqb a "!"%char && Ascii.eqb b "["%char then
        match Guard.span (fun d => negb (Ascii.eqb d "]"%char)) r with
        | (alt, String _ (String y r2)) =>
            if Ascii.eqb y "("%char then
              match image_src r2 with
              | Some (src, title, rest) => Some (alt, src, title, rest)
              | None => None
              end
            else None
        | _ => None
        end
      else None
  | _ => None
  end.
Proof.
  unfold image_match. destruct s as [|a [|b r]]; [reflexivity | bits a; reflexivity |].
  bits a; try reflexivity. bits b; try reflexivity.
  cbn [Ascii.eqb Bool.eqb andb].
  destruct (Guard.span _ r) as [alt [|x [|y r2]]]; try reflexivity.
  bits y; reflexivity.
Qed.

Lemma span_app (p : ascii -> bool) (s : string) :
  s = fst (Guard.span p s) +:+ snd (Guard.span p s).
Proof.
  induction s as [|c s IH]; [reflexivity |]. cbn [Guard.span].
  destruct (p c); [|reflexivity].
  destruct (Guard.span p s) as [a b]. cbn [fst snd] in *. rewrite append_cons, <- IH.
  reflexivity.
Qed.

Lemma span_eq (p : ascii -> bool) (s a b : string) :
  Guard.span p s = (a, b) -> s = a +:+ b.
Proof. intros H. rewrite (span_app p s), H. reflexivity. Qed.

(** What the tail of the image expression takes is a prefix that is not
    empty. *)
Lemma image_tail_suffix (r : string) (title : option string) (rest : string) :
  image_tail r = Some (title, rest) ->
  exists m, r = m +:+ rest /\ (0 < String.length m)%nat.
Proof.
  rewrite image_tail_unfold.
  destruct (Guard.span Js.is_space r) as [a b] eqn:Es.
  assert (Hfall :
    match r with
    | String y r' => if Ascii.eqb y ")"%char then Some (@None string, r') else None
    | EmptyString => None
    end = Some (title, rest) ->
    exists m, r = m +:+ rest /\ (0 < String.length m)%nat).
  { destruct r as [|y r']; [discriminate |].
    destruct (Ascii.eqb_spec y ")"%char) as [->|]; [|discriminate].
    intros H. inversion H. exists ")". split; [reflexivity | cbn; lia]. }
  destruct a as [|s0 a]; [exact Hfall |].
  destruct b as [|q r2]; [exact Hfall |].
  destruct (Ascii.eqb q "034"%char); [|exact Hfall].
  destruct (Guard.span (fun d => negb (Ascii.eqb d "034"%char)) r2) as [t b2] eqn:Et.
  destruct b2 as [|x [|y r4]]; try exact Hfall.
  destruct (Ascii.eqb_spec y ")"%char) as [->|]; [|exact Hfall].
  intros H. inversion H; subst title rest.
  apply span_eq in Es, Et. subst r r2.
  exists (String s0 a +:+ String q (t +:+ String x ")")). split.
  - norm_app. reflexivity.
  - rewrite append_cons. cbn [String.length]. lia.
Qed.

Lemma image_src_suffix (s src : string) (title : option string) (rest : string) :
  image_src s = Some (src, title, rest) ->
  exists m, s = src +:+ m +:+ rest /\ (0 < String.length src)%nat.
Proof.
  revert src. induction s as [|c s IH]; intros src; [discriminate |].
  cbn [image_src]. destruct (Ascii.eqb c ")"%char); [discriminate |].
  destruct (image_tail s) as [[t r]|] eqn:Et.
  - intros H. inversion H; subst src title rest.
    destruct (image_tail_suffix s t r Et) as (m & -> & _).
    exists m. split; [reflexivity | cbn; lia].
  - destruct (image_src s) as [[[src' t] r]|] eqn:Es; [|discriminate].
    intros H. inversion H; subst src title rest.
    destruct (IH src' eq_refl) as (m & -> & _).
    exists m. split; [reflexivity | cbn; lia].
Qed.

(** A match of the image expression is the text [![], the alternative
    text, [](], the target, the rest of the match and the text left. *)
Lemma image_match_parts (s alt src : string) (title : option string) (rest : string) :
  image_match s = Some (alt, src, title, rest) ->
  exists m, s = ("![" +:+ alt +:+ "](" +:+ src +:+ m) +:+ rest.
Proof.
  rewrite image_match_unfold. destruct s as [|a [|b r]]; try discriminate.
  destruct (Ascii.eqb_spec a "!"%char) as [->|]; [|discriminate].
  destruct (Ascii.eqb_spec b "["%char) as [->|]; [|discriminate].
  cbn [andb].
  destruct (Guard.span (fun d => negb (Ascii.eqb d "]"%char)) r) as [al b2] eqn:Ea.
  destruct b2 as [|x [|y r2]]; try discriminate.
  destruct (Ascii.eqb_spec y "("%char) as [->|]; [|discriminate].
  destruct (image_src r2) as [[[sr t] rs]|] eqn:Es; [|discriminate].
  intros H. inversion H; subst al sr t rs.
  assert (Hx : x = "]"%char).
  { revert Ea. clear. revert alt. induction r as [|c r IH]; intros alt; [discriminate |].
    cbn [Guard.span]. destruct (Ascii.eqb_spec c "]"%char) as [->|Hc]; cbn [negb].
    - intros H. inversion H. reflexivity.
    - destruct (Guard.span _ r) as [a b] eqn:E. intros H. inversion H; subst.
      exact (IH a eq_refl). }
  subst x. apply span_eq in Ea. subst r.
  destruct (image_src_suffix r2 src title rest Es) as (m & -> & _).
  exists m. norm_app. reflexivity.
Qed.

Lemma startsWith_app (p a b : string) :
  Js.startsWith p a = true -> Js.startsWith p (a +:+ b) = true.
Proof.
  revert a. induction p as [|x p IH]; intros a H; [reflexivity |].
  destruct a as [|y a]; [discriminate |]. rewrite append_cons.
  cbn [Js.startsWith] in *. apply andb_true_iff in H. destruct H as [-> H].
  exact (IH a H).
Qed.

Lemma startsWith_cons (x : ascii) (p s : string) :
  Js.startsWith (String x p) (String x s) = Js.startsWith p s.
Proof. cbn [Js.startsWith]. rewrite Ascii.eqb_refl. reflexivity. Qed.

Lemma contains_here (p s : string) : Js.startsWith p s = true -> Js.contains s p = true.
Proof. intros H. unfold Js.contains. destruct s; cbn [Js.find]; rewrite H; reflexivity. Qed.

Lemma contains_app (p a s : string) :
  Js.contains s p = true -> Js.contains (a +:+ s) p = true.
Proof.
  unfold Js.contains. intros H. induction a as [|c a IH]; [exact H |].
  rewrite append_cons. cbn [Js.find].
  destruct (Js.startsWith p (String c (a +:+ s))); [reflexivity |].
  destruct (Js.find p (a +:+ s)); [reflexivity | discriminate IH].
Qed.

Lemma contains_suffix (p a s : string) :
  Js.contains (a +:+ s) p = false -> Js.contains s p = false.
Proof.
  intros H. destruct (Js.contains s p) eqn:E; [|reflexivity].
  rewrite (contains_app p a s E) in H. discriminate.
Qed.

Lemma take_prefix (a b : string) :
  Js.take (String.length (a +:+ b) - String.length b) (a +:+ b) = a.
Proof.
  rewrite length_append. replace (_ + _ - _)%nat with (String.length a) by lia.
  apply take_app.
Qed.

(** A match whose target does not begin with [file://] is written back
    as it was. *)
Lemma image_kept (s alt src : string) (title : option string) (rest : string) :
  image_match s = Some (alt, src, title, rest) ->
  Js.startsWith "file://" src = false ->
  image_replacement (Js.take (String.length s - String.length rest) s) alt src title
  +:+ rest = s
  /\ (String.length rest < String.length s)%nat.
Proof.
  intros Hm Hs. destruct (image_match_parts _ _ _ _ _ Hm) as (m & ->).
  unfold image_replacement. rewrite Hs, take_prefix. split; [reflexivity |].
  rewrite length_append, append_cons. cbn [String.length]. lia.
Qed.

Lemma image_target_found (s alt src : string) (title : option string) (rest : string) :
  image_match s = Some (alt, src, title, rest) ->
  Js.startsWith "file://" src = true ->
  Js.contains s "](file://" = true.
Proof.
  intros Hm Hs. destruct (image_match_parts _ _ _ _ _ Hm) as (m & ->).
  rewrite !append_assoc. apply (contains_app _ "!["), contains_app, contains_here.
  rewrite !append_cons, append_nil.
  change "](file://" with (String "]"%char (String "("%char "file://")).
  rewrite !startsWith_cons. apply startsWith_app, Hs.
Qed.

Lemma replace_images_kept (fuel : nat) :
  forall s, (String.length s < fuel)%nat ->
  Js.contains s "](file://" = false -> replace_images fuel s = s.
Proof.
  induction fuel as [|fuel IH]; intros s Hlen Hno; [lia |].
  cbn [replace_images].
  destruct (image_match s) as [[[[alt src] title] rest]|] eqn:Hm.
  - destruct (Js.startsWith "file://" src) eqn:Hs.
    + rewrite (image_target_found _ _ _ _ _ Hm Hs) in Hno. discriminate.
    + destruct (image_kept _ _ _ _ _ Hm Hs) as [Heq Hlt].
      rewrite IH; [exact Heq | lia |].
      destruct (image_match_parts _ _ _ _ _ Hm) as (m & E). rewrite E in Hno.
      exact (contains_suffix _ _ _ Hno).
  - destruct s as [|c s]; [reflexivity |]. cbn [String.length] in Hlen.
    rewrite IH; [reflexivity | lia |].
    apply (contains_suffix _ (String c EmptyString)). exact Hno.
Qed.

(** X20.  The image pass of [markdownToHtml] changes only images whose
    target begins with [file://]: a text that nowhere holds [](file://]
    comes out as it went in, whatever other images it holds. *)
Theorem processMarkdown_keeps_other_images (markdown : string) :
  Js.contains markdown "](file://" = false -> processMarkdown markdown = markdown.
Proof. intros H. apply replace_images_kept; [lia | exact H]. Qed.

(** With enough fuel the pass does not depend on the fuel. *)
Lemma replace_images_fuel (fuel : nat) :
  forall fuel' s, (String.length s < fuel)%nat -> (String.length s < fuel')%nat ->
  replace_images fuel s = replace_images fuel' s.
Proof.
  induction fuel as [|fuel IH]; intros fuel' s H H'; [lia |].
  destruct fuel' as [|fuel']; [lia |]. cbn [replace_images].
  destruct (image_match s) as [[[[alt src] title] rest]|] eqn:Hm.
  - destruct (image_match_parts _ _ _ _ _ Hm) as (m & E).
    assert (String.length rest < String.length s)%nat.
    { rewrite E, length_append, append_cons. cbn [String.length]. lia. }
    rewrite (IH fuel' rest) by lia. reflexivity.
  - destruct s as [|c s]; [reflexivity |]. cbn [String.length] in *.
    rewrite (IH fuel' s) by lia. reflexivity.
Qed.

Lemma span_run (p : ascii -> bool) (a : string) (x : ascii) (b : string) :
  (forall c, Contract.has_char c a = true -> p c = true) -> p x = false ->
  Guard.span p (a +:+ String x b) = (a, String x b).
Proof.
  intros Ha Hx. induction a as [|c a IH].
  - rewrite append_nil. cbn [Guard.span]. rewrite Hx. reflexivity.
  - rewrite append_cons. cbn [Guard.span].
    rewrite (Ha c) by (cbn [Contract.has_char]; rewrite Ascii.eqb_refl; reflexivity).
    rewrite IH; [reflexivity |].
    intros d Hd. apply Ha. cbn [Contract.has_char]. rewrite Hd. apply orb_true_r.
Qed.

Lemma has_char_not (x : ascii) (a : string) :
  Contract.has_char x a = false ->
  forall c, Contract.has_char c a = true -> negb (Ascii.eqb c x) = true.
Proof.
  intros Hx c Hc. destruct (Ascii.eqb_spec c x) as [->|]; [|reflexivity].
  rewrite Hx in Hc. discriminate.
Qed.

(** After a target without quote, the tail with a title does not match:
    the run of white space, if any, is followed by a character that is
    not a quote. *)
Lemma image_tail_plain (d : ascii) (t after : string) :
  Ascii.eqb d ")"%char = false ->
  Contract.has_char "034"%char (String d t) = false ->
  image_tail (String d t +:+ ")" +:+ after) = None.
Proof.
  intros Hd Hq. rewrite image_tail_unfold.
  assert (Hspan : forall s, Contract.has_char "034"%char s = false ->
            exists a q r2, Guard.span Js.is_space (s +:+ ")" +:+ after) = (a, String q r2)
                           /\ Ascii.eqb q "034"%char = false).
  { induction s as [|c s IH]; intros H.
    - exists EmptyString, ")"%char, after. split; reflexivity.
    - cbn [Contract.has_char] in H. apply orb_false_iff in H. destruct H as [Hc Hs].
      rewrite append_cons. cbn [Guard.span]. destruct (Js.is_space c).
      + destruct (IH Hs) as (a & q & r2 & -> & Hq'). eauto.
      + exists EmptyString, c, (s +:+ ")" +:+ after). split; [reflexivity |].
        rewrite Ascii.eqb_sym. exact Hc. }
  destruct (Hspan _ Hq) as (a & q & r2 & -> & Hq').
  rewrite Hq'. rewrite append_cons, Hd. destruct a; reflexivity.
Qed.

Lemma image_src_plain (src after : string) :
  src <> EmptyString ->
  Contract.has_char ")"%char src = false ->
  Contract.has_char "034"%char src = false ->
  image_src (src +:+ ")" +:+ after) = Some (src, None, after).
Proof.
  induction src as [|c src IH]; [contradiction |]. intros _ Hp Hq.
  cbn [Contract.has_char] in Hp, Hq. apply orb_false_iff in Hp, Hq.
  destruct Hp as [Hc Hp], Hq as [Hcq Hq].
  rewrite append_cons. cbn [image_src]. rewrite Ascii.eqb_sym, Hc.
  destruct src as [|d t].
  - rewrite append_nil. reflexivity.
  - rewrite image_tail_plain;
      [| cbn [Contract.has_char] in Hp; apply orb_false_iff in Hp;
         rewrite Ascii.eqb_sym; apply Hp
       | exact Hq].
    rewrite IH by (try discriminate; assumption). reflexivity.
Qed.

(** X21.  An image whose target begins with [file://] and holds neither
    a closing parenthesis nor a quote, and whose alternative text holds
    no closing bracket, is replaced by an [img] tag with the trimmed
    target as [src] and the alternative text as [alt]; the pass then goes
    on with the text after the image. *)
Theorem processMarkdown_file_image (alt src after : string) :
  Contract.has_char "]"%char alt = false ->
  Js.startsWith "file://" src = true ->
  Contract.has_char ")"%char src = false ->
  Contract.has_char "034"%char src = false ->
  processMarkdown ("![" +:+ alt +:+ "](" +:+ src +:+ ")" +:+ after)
  = Props.img_tag alt src +:+ processMarkdown after.
Proof.
  intros Halt Hfile Hp Hq.
  assert (Hne : src <> EmptyString) by (intros ->; discriminate Hfile).
  assert (Hm : image_match ("![" +:+ alt +:+ "](" +:+ src +:+ ")" +:+ after)
               = Some (alt, src, None, after)).
  { rewrite image_match_unfold. norm_app.
    change (Ascii.eqb "!"%char "!"%char && Ascii.eqb "["%char "["%char) with true.
    cbn iota.
    rewrite (span_run _ alt "]"%char _ (has_char_not _ _ Halt) eq_refl).
    change (Ascii.eqb "("%char "("%char) with true. cbn iota.
    change (image_src (src +:+ String ")"%char after))
      with (image_src (src +:+ ")" +:+ after)).
    rewrite (image_src_plain src after Hne Hp Hq). reflexivity. }
  unfold processMarkdown. cbn [replace_images]. rewrite Hm.
  unfold image_replacement. rewrite Hfile. unfold Props.img_tag.
  rewrite (replace_images_fuel _ (S (String.length after)) after); [|  | lia].
  - norm_app. reflexivity.
  - rewrite !length_append. cbn [String.length]. lia.
Qed.

End ImageFacts.

(** A web image inside a sentence. *)
Lemma processMarkdown_keeps_other_images_witness :
  Facade.processMarkdown "see ![logo](https://example.com/a.png) here"
  = "see ![logo](https://example.com/a.png) here".
Proof.
  apply processMarkdown_keeps_other_images. reflexivity.
Defined.

(** The image of a local file, followed by a sentence. *)
Lemma processMarkdown_file_image_witness :
  Facade.processMarkdown ("![" +:+ "cat" +:+ "](" +:+ "file:///tmp/cat.png" +:+ ")" +:+ " done")
  = Props.img_tag "cat" "file:///tmp/cat.png" +:+ Facade.processMarkdown " done".
Proof.
  apply (processMarkdown_file_image "cat" "file:///tmp/cat.png" " done"); reflexivity.
Defined.

Section SingleTag.

Variable P : Packages.

Import Facade.

Lemma no_bang_no_image (fuel : nat) (s : string) :
  Contract.has_char "!"%char s = false -> replace_images fuel s = s.
Proof.
  revert s. induction fuel as [|fuel IH]; intros s H; [reflexivity |].
  destruct s as [|c s]; [reflexivity |].
  cbn [Contract.has_char] in H. apply orb_false_iff in H. destruct H as [Hc Hs].
  cbn [replace_images]. rewrite (image_match_not_bang c s Hc), (IH s Hs). reflexivity.
Qed.

Lemma tag_run_chars (r : string) :
  Props.tag_run r = true ->
  forall d, Contract.has_char d r = true ->
            negb (Ascii.eqb d ">"%char) && negb (Js.is_space d) = true.
Proof.
  induction r as [|x r IH]; intros H d Hd; [discriminate |].
  cbn [Props.tag_run] in H. apply andb_true_iff in H. destruct H as [Hx Hr].
  cbn [Contract.has_char] in Hd. apply orb_true_iff in Hd. destruct Hd as [Hd|Hd].
  - apply Ascii.eqb_eq in Hd. subst x. exact Hx.
  - exact (IH Hr d Hd).
Qed.

Lemma single_tag_match_run (c : ascii) (r : string) :
  is_letter c = true -> Props.tag_run r = true ->
  single_tag_match (String "<"%char (String c (r +:+ ">"))) = Some (String c r).
Proof.
  intros Hc Hr. cbn [single_tag_match]. rewrite Hc.
  change (r +:+ ">") with (r +:+ String ">"%char EmptyString).
  rewrite (span_run _ r ">"%char EmptyString (tag_run_chars r Hr) eq_refl). reflexivity.
Qed.

Lemma letter_not_bang (c : ascii) : is_letter c = true -> Ascii.eqb "!"%char c = false.
Proof.
  intros H. destruct (Ascii.eqb_spec "!"%char c) as [<-|]; [discriminate H | reflexivity].
Qed.

(** X22.  A document made of one tag [<name>], with a name that starts
    with a letter and goes on without white space, that the engine
    renders as itself: the output is the rendering as it is when the
    lower-case name is in the vocabulary, and the rendering inside a
    paragraph when it is not. *)
Theorem markdownToHtml_single_tag (c : ascii) (r h : string) :
  is_letter c = true ->
  Props.tag_run r = true ->
  Contract.has_char "!"%char r = false ->
  md_render P ("<" +:+ String c r +:+ ">") = Ok h ->
  Js.trim h = "<" +:+ String c r +:+ ">" ->
  markdownToHtml P (JsString ("<" +:+ String c r +:+ ">"))
  = Ok (if Js.includes (htmlTags P) (Js.toLowerCase (String c r))
        then h else "<p>" +:+ h +:+ "</p>").
Proof.
  intros Hc Hr Hbang Hrender Htrim.
  change ("<" +:+ String c r +:+ ">") with (String "<"%char (String c (r +:+ ">"))) in *.
  cbn [markdownToHtml].
  assert (Hdoc : processMarkdown (String "<"%char (String c (r +:+ ">")))
                 = String "<"%char (String c (r +:+ ">"))).
  { apply no_bang_no_image. cbn [Contract.has_char].
    change (Ascii.eqb "!"%char "<"%char) with false. rewrite (letter_not_bang c Hc).
    cbn [orb]. rewrite has_char_app, Hbang. reflexivity. }
  rewrite Hdoc, Hrender. cbn [mbind result_bind bind try_catch].
  unfold wrap_single_tag. rewrite Htrim.
  assert (Hself : Js.trim (String "<"%char (String c (r +:+ ">")))
                  = String "<"%char (String c (r +:+ ">"))).
  { unfold Js.trim. cbn [Js.trimStart]. change (Js.is_space "<"%char) with false.
    cbn iota. apply trimEnd_fixed.
    change (String "<"%char (String c (r +:+ ">")))
      with (String "<"%char (String c EmptyString) +:+ r +:+ String ">"%char EmptyString).
    rewrite <- append_assoc, ends_nonspace_app. reflexivity. }
  rewrite Hself, String.eqb_refl, (single_tag_match_run c r Hc Hr).
  destruct (Js.includes (htmlTags P) (Js.toLowerCase (String c r))); reflexivity.
Qed.

Lemma plain_spaces_trimStart (s : string) :
  Props.plain_spaces s = true -> Props.plain_spaces (Js.trimStart s) = true.
Proof.
  induction s as [|c s IH]; [reflexivity |]. intros H. cbn [Js.trimStart].
  destruct (Js.is_space c); [|exact H].
  cbn [Props.plain_spaces] in H. apply andb_true_iff in H. apply IH, H.
Qed.

Lemma plain_spaces_trimEnd (s : string) :
  Props.plain_spaces s = true -> Props.plain_spaces (Js.trimEnd s) = true.
Proof.
  induction s as [|c s IH]; [reflexivity |]. intros H.
  cbn [Props.plain_spaces] in H. apply andb_true_iff in H. destruct H as [Hc Hs].
  rewrite trimEnd_cons. specialize (IH Hs). destruct (Js.trimEnd s) as [|d t].
  - destruct (Js.is_space c) eqn:E; [reflexivity |]. cbn [Props.plain_spaces].
    rewrite E. reflexivity.
  - cbn [Props.plain_spaces] in *. rewrite Hc. exact IH.
Qed.

Lemma plain_spaces_take (n : nat) (s : string) :
  Props.plain_spaces s = true -> Props.plain_spaces (Js.take n s) = true.
Proof.
  revert s. induction n as [|n IH]; intros s H; [reflexivity |].
  destruct s as [|c s]; [reflexivity |]. cbn [Js.take Props.plain_spaces] in *.
  apply andb_true_iff in H. destruct H as [-> H]. apply IH, H.
Qed.

Lemma length_take (n : nat) (s : string) :
  String.length (Js.take n s) = Nat.min n (String.length s).
Proof.
  revert s. induction n as [|n IH]; intros s; [reflexivity |].
  destruct s as [|c s]; [reflexivity |]. cbn [Js.take String.length]. rewrite IH. lia.
Qed.

Lemma no_leading_take_dots (n : nat) (s : string) :
  Props.no_leading_space s -> Props.no_leading_space (Js.take n s +:+ "...").
Proof.
  destruct n as [|n]; [intros _; reflexivity |].
  destruct s as [|c s]; [intros _; reflexivity |]. intros H. exact H.
Qed.

(** X23.  The preview is short and flat: for a limit that is not
    negative and a tag stripper that returns, the preview is returned, it
    is at most three characters longer than the limit (the three dots),
    its only white space is the plain space, and it does not start with
    white space. *)
Theorem markdownToPreviewText_bounded
    (striptags : string -> result string) (markdown : string) (maxLength : Z) :
  0 <= maxLength ->
  (forall html, exists text, striptags html = Ok text) ->
  exists preview,
    Preview.markdownToPreviewText P striptags markdown maxLength = Ok preview
    /\ Js.len preview <= maxLength + 3
    /\ Props.plain_spaces preview = true
    /\ Props.no_leading_space preview.
Proof.
  intros Hmax Hstrip. unfold Preview.markdownToPreviewText.
  destruct (String.eqb markdown EmptyString).
  { exists EmptyString. split; [reflexivity |].
    split; [change (Js.len EmptyString) with 0; lia |]. split; [reflexivity | exact I]. }
  destruct (markdownToHtml_returns P (JsString markdown)) as [html ->].
  cbn [mbind result_bind bind]. destruct (Hstrip html) as [text ->].
  cbn [mbind result_bind bind].
  set (t := Js.trim (Serializer.replace_runs Js.is_space " " (he_decode P text))).
  assert (Hplain : Props.plain_spaces t = true)
    by (apply plain_spaces_trimEnd, plain_spaces_trimStart, plain_spaces_runs).
  assert (Hlead : Props.no_leading_space t)
    by (apply trimEnd_no_leading, trimStart_no_leading).
  eexists. split; [reflexivity |].
  destruct (Js.len t >? maxLength) eqn:E.
  - assert (Hslice : Js.slice t 0 maxLength = Js.take (Z.to_nat maxLength) t).
    { pose proof (len_nonneg t). apply Z.gtb_lt in E.
      unfold Js.slice. rewrite !clamp_nonneg by lia.
      replace (Z.to_nat (Z.min 0 (Js.len t))) with O by lia.
      replace (Z.to_nat (Z.min maxLength (Js.len t)) - 0)%nat with (Z.to_nat maxLength) by lia.
      reflexivity. }
    rewrite Hslice. split; [|split].
    + rewrite len_append. unfold Js.len at 1. rewrite length_take.
      change (Js.len "...") with 3. lia.
    + rewrite plain_spaces_app, (plain_spaces_take _ _ Hplain). reflexivity.
    + apply no_leading_take_dots, Hlead.
  - destruct (Z.gtb_spec (Js.len t) maxLength); [discriminate |].
    split; [lia |]. split; assumption.
Qed.

End SingleTag.

(** The custom tag [<foo>] is put in a paragraph. *)
Lemma markdownToHtml_single_tag_witness :
  Facade.markdownToHtml Recorded.packages (JsString ("<" +:+ "foo" +:+ ">"))
  = Ok ("<p>" +:+ "<foo>" +:+ "</p>").
Proof.
  apply (markdownToHtml_single_tag Recorded.packages "f"%char "oo" "<foo>"); reflexivity.
Defined.

(** The header [# A long title] with a limit of six characters. *)
Lemma markdownToPreviewText_bounded_witness :
  exists preview,
    Preview.markdownToPreviewText Props.header_packages
      (fun html => Ok (Props.strip_tags false html)) "# A long title" 6 = Ok preview
    /\ Js.len preview <= 6 + 3
    /\ Props.plain_spaces preview = true
    /\ Props.no_leading_space preview.
Proof.
  apply (markdownToPreviewText_bounded Props.header_packages
           (fun html => Ok (Props.strip_tags false html)) "# A long title" 6).
  - lia.
  - intros html. eexists. reflexivity.
Defined.

(* ===================================================================== *)
(** * The custom-tag guard on standard markup *)
(* ===================================================================== *)

Section GuardMore.

Import Guard.

Lemma replace_char_removes (x : ascii) (r s : string) :
  Contract.has_char x r = false -> Contract.has_char x (Js.replace_char x r s) = false.
Proof.
  intros Hr. induction s as [|c s IH]; [reflexivity |]. cbn [Js.replace_char].
  destruct (Ascii.eqb x c) eqn:E.
  - rewrite has_char_app, Hr, IH. reflexivity.
  - cbn [Contract.has_char]. rewrite E, IH. reflexivity.
Qed.

Lemma replace_char_keeps_out (x y : ascii) (r s : string) :
  Contract.has_char y r = false -> Contract.has_char y s = false ->
  Contract.has_char y (Js.replace_char x r s) = false.
Proof.
  intros Hr. induction s as [|c s IH]; [reflexivity |]. cbn [Contract.has_char]. intros H.
  apply orb_false_iff in H. destruct H as [Hc Hs]. cbn [Js.replace_char].
  destruct (Ascii.eqb x c).
  - rewrite has_char_app, Hr, (IH Hs). reflexivity.
  - cbn [Contract.has_char]. rewrite Hc, (IH Hs). reflexivity.
Qed.

Lemma escape_angles_clean (text : string) :
  Contract.has_char "<"%char (escape_angles text) = false
  /\ Contract.has_char ">"%char (escape_angles text) = false.
Proof.
  unfold escape_angles. split.
  - apply replace_char_keeps_out; [reflexivity |]. apply replace_char_removes. reflexivity.
  - apply replace_char_removes. reflexivity.
Qed.

(** X24.  What a callback of the guard appends for a name outside the
    vocabulary: the text from the position reached to the start index the
    parser reports, as it is, and then the slice from the start index to
    the end index with its angle brackets written as entities, a text
    without angle bracket.  This holds for [onopentagname], and for
    [onclosetag] when the call is not skipped and the name it looks up is
    outside the vocabulary.  Nothing is said of the text after the end
    index, which a later callback copies. *)
Theorem guard_escapes_reported_slice
    (tags : list string) (html tagname : string) (startPos endPos : Z) (st : State) :
  let escaped := escape_angles (Js.slice html startPos (endPos + 1)) in
  Contract.has_char "<"%char escaped = false
  /\ Contract.has_char ">"%char escaped = false
  /\ (Js.includes tags tagname = false ->
      result_ (onopentagname tags html tagname startPos endPos st)
      = result_ st +:+ Js.slice html (currentPos st) startPos +:+ escaped
      /\ currentPos (onopentagname tags html tagname startPos endPos st) = endPos + 1)
  /\ (Js.includes tags (Props.actual_name html tagname startPos endPos) = false ->
      endPos ∉ processedPositions st ->
      currentPos st < endPos + 1 ->
      result_ (onclosetag tags html tagname startPos endPos st)
      = result_ st +:+ Js.slice html (currentPos st) startPos +:+ escaped
      /\ currentPos (onclosetag tags html tagname startPos endPos st) = endPos + 1).
Proof.
  intros escaped.
  destruct (escape_angles_clean (Js.slice html startPos (endPos + 1))) as [Hlt Hgt].
  split; [exact Hlt |]. split; [exact Hgt |]. split.
  - intros Hcustom. unfold onopentagname. rewrite Hcustom. cbn [negb result_ currentPos].
    rewrite append_assoc. split; reflexivity.
  - intros Hcustom Hnew Hpos. unfold onclosetag.
    rewrite bool_decide_eq_false_2 by exact Hnew.
    destruct (Z.leb_spec (endPos + 1) (currentPos st)) as [Hle|_]; [lia |].
    cbn [orb]. fold (Props.actual_name html tagname startPos endPos).
    rewrite Hcustom. cbn [negb result_ currentPos]. split; reflexivity.
Qed.

Lemma onclosetag_skip
    (tags : list string) (html tagname : string) (startPos endPos : Z) (st : State) :
  endPos ∈ processedPositions st \/ endPos + 1 <= currentPos st ->
  onclosetag tags html tagname startPos endPos st = st.
Proof.
  intros H. unfold onclosetag.
  assert (E : bool_decide (endPos ∈ processedPositions st)
              || (endPos + 1 <=? currentPos st) = true).
  { apply orb_true_iff. destruct H as [H|H];
      [left; apply bool_decide_eq_true_2, H | right; apply Z.leb_le, H]. }
  rewrite E. reflexivity.
Qed.

Lemma onclosetag_marks
    (tags : list string) (html tagname : string) (startPos endPos : Z) (st : State) :
  onclosetag tags html tagname startPos endPos st = st
  \/ endPos ∈ processedPositions (onclosetag tags html tagname startPos endPos st).
Proof.
  unfold onclosetag.
  destruct (bool_decide (endPos ∈ processedPositions st) || (endPos + 1 <=? currentPos st));
    [left; reflexivity |].
  right. destruct (negb (Js.includes tags _)); cbn [processedPositions]; set_solver.
Qed.

(** X25.  A closing tag is handled once: after a closing tag that ends
    at [endPos] has been reported and handled, a second report of a
    closing tag that ends there, under any name and with any start,
    changes nothing; and a report that was skipped is skipped again. *)
Theorem onclosetag_once
    (tags : list string) (html tagname tagname' : string) (startPos startPos' endPos : Z)
    (st : State) :
  onclosetag tags html tagname' startPos' endPos
    (onclosetag tags html tagname startPos endPos st)
  = onclosetag tags html tagname startPos endPos st.
Proof.
  destruct (onclosetag_marks tags html tagname startPos endPos st) as [H|H].
  - rewrite H. unfold onclosetag in *.
    destruct (bool_decide (endPos ∈ processedPositions st)
              || (endPos + 1 <=? currentPos st)) eqn:E; [reflexivity |].
    destruct (negb (Js.includes tags _)); apply (f_equal currentPos) in H;
      cbn [currentPos] in H; apply orb_false_iff in E; destruct E as [_ E];
      apply Z.leb_gt in E; lia.
  - apply onclosetag_skip. left. exact H.
Qed.

Lemma take_drop_app (n : nat) (s : string) : Js.take n s +:+ Js.drop n s = s.
Proof.
  revert s. induction n as [|n IH]; intros s; [reflexivity |].
  destruct s as [|c s]; [reflexivity |]. cbn [Js.take Js.drop]. rewrite append_cons, IH.
  reflexivity.
Qed.

Lemma take_more (n m : nat) (s : string) :
  Js.take n s +:+ Js.take m (Js.drop n s) = Js.take (n + m) s.
Proof.
  revert s. induction n as [|n IH]; intros s; [reflexivity |].
  destruct s as [|c s]; [destruct m; reflexivity |].
  cbn [Js.take Js.drop Nat.add]. rewrite append_cons, IH. reflexivity.
Qed.

(** The text up to [a] and the slice from [a] to [b] make the text up
    to [b]. *)
Lemma take_slice (s : string) (a b : Z) :
  0 <= a <= b -> b <= Js.len s ->
  Js.take (Z.to_nat a) s +:+ Js.slice s a b = Js.take (Z.to_nat b) s.
Proof.
  intros Hab Hb. unfold Js.slice. rewrite !clamp_nonneg by lia.
  replace (Z.to_nat (Z.min a (Js.len s))) with (Z.to_nat a) by lia.
  replace (Z.to_nat (Z.min b (Js.len s))) with (Z.to_nat b) by lia.
  rewrite take_more. f_equal. lia.
Qed.

Lemma standard_in_order_mono (tags : list string) (html : string) (events : list ParserEvent) :
  forall cur cur', cur' <= cur ->
  Props.standard_in_order tags html cur events ->
  Props.standard_in_order tags html cur' events.
Proof.
  induction events as [|[nm s e|nm s e] rest IH]; intros cur cur' Hle; [auto | |];
    cbn [Props.standard_in_order].
  - intros (H1 & H2 & H3 & H4 & H5). repeat split; try assumption. lia.
  - intros (H1 & H2 & H3). repeat split; try assumption.
    apply (IH (Z.max cur (e + 1))); [lia | exact H3].
Qed.

(** The callbacks keep the part of the text handled so far as it is. *)
Lemma standard_events_copy (tags : list string) (html : string)
    (events : list ParserEvent) :
  forall st,
  0 <= currentPos st <= Js.len html ->
  result_ st = Js.take (Z.to_nat (currentPos st)) html ->
  Props.standard_in_order tags html (currentPos st) events ->
  let st' := fold_left (on_event tags html) events st in
  0 <= currentPos st' <= Js.len html
  /\ result_ st' = Js.take (Z.to_nat (currentPos st')) html.
Proof.
  induction events as [|[nm s e|nm s e] rest IH]; intros st Hcur Hres Hord;
    cbn [fold_left on_event]; [auto | |]; cbn [Props.standard_in_order] in Hord.
  - destruct Hord as (H1 & H2 & H3 & H4 & H5).
    apply IH; unfold onopentagname; rewrite H4; cbn [negb result_ currentPos].
    + lia.
    + rewrite Hres, append_assoc.
      rewrite <- (take_slice html s (e + 1)) by lia.
      rewrite <- (take_slice html (currentPos st) s) by lia.
      rewrite append_assoc. reflexivity.
    + exact H5.
  - destruct Hord as (H1 & H2 & H3).
    assert (Hsame : Props.standard_in_order tags html (currentPos st) rest)
      by (apply (standard_in_order_mono _ _ _ (Z.max (currentPos st) (e + 1)));
          [lia | exact H3]).
    assert (Hnext : Props.standard_in_order tags html (e + 1) rest)
      by (apply (standard_in_order_mono _ _ _ (Z.max (currentPos st) (e + 1)));
          [lia | exact H3]).
    unfold onclosetag.
    destruct (bool_decide (e ∈ processedPositions st) || (e + 1 <=? currentPos st)) eqn:E.
    + apply IH; assumption.
    + apply orb_false_iff in E. destruct E as [_ E]. apply Z.leb_gt in E.
      fold (Props.actual_name html nm s e). rewrite H2. cbn [negb].
      apply IH; cbn [result_ currentPos].
      * lia.
      * rewrite Hres. apply take_slice; lia.
      * exact Hnext.
Qed.

(** X26.  Markup the guard takes for standard passes it as it is: when
    the events of the parser are in document order, the reported name of
    every opening tag is in the vocabulary and the name the guard looks
    up for every closing tag (the one read again in the text, where it
    can be read) is in the vocabulary, the guard returns the text it was
    given, character for character. *)
Theorem guard_keeps_standard_markup (P : Packages) (html : string)
    (events : list ParserEvent) :
  parser_events P html = Ok events ->
  Props.standard_in_order (htmlTags P) html 0 events ->
  escapeCustomTags P html = Ok html.
Proof.
  intros Hparse Hord. unfold escapeCustomTags. rewrite Hparse.
  cbn [mbind result_bind bind]. f_equal. unfold run, onend.
  pose proof (len_nonneg html) as Hlen.
  destruct (standard_events_copy (htmlTags P) html events
              {| result_ := EmptyString; currentPos := 0; processedPositions := ∅ |})
    as [Hcur Hres]; cbn [currentPos result_]; [lia | reflexivity | exact Hord |].
  rewrite Hres. unfold Js.slice_from. rewrite clamp_nonneg by lia.
  replace (Z.to_nat (Z.min _ (Js.len html))) with (Z.to_nat (currentPos
    (fold_left (on_event (htmlTags P) html) events
       {| result_ := EmptyString; currentPos := 0; processedPositions := ∅ |}))) by lia.
  apply take_drop_app.
Qed.

End GuardMore.

(** The opening tag [<foo a>]: the parser reports the indices 0 and 4,
    the end of the name, and the callback writes the slice [<foo ] with
    its angle bracket as an entity. *)
Lemma guard_escapes_reported_slice_witness :
  Guard.result_
    (Guard.onopentagname Recorded.htmlTags "<foo a>" "foo" 0 4
       {| Guard.result_ := EmptyString; Guard.currentPos := 0;
          Guard.processedPositions := ∅ |})
  = EmptyString +:+ Js.slice "<foo a>" 0 0 +:+ Guard.escape_angles (Js.slice "<foo a>" 0 (4 + 1))
  /\ Guard.escape_angles (Js.slice "<foo a>" 0 (4 + 1)) = "&lt;foo ".
Proof.
  split; [|reflexivity].
  exact (proj1 (proj1 (proj2 (proj2
           (guard_escapes_reported_slice Recorded.htmlTags "<foo a>" "foo" 0 4
              {| Guard.result_ := EmptyString; Guard.currentPos := 0;
                 Guard.processedPositions := ∅ |}))) eq_refl)).
Defined.

(** The math container, a [div] with its closing tag. *)
Lemma guard_keeps_standard_markup_witness :
  Guard.escapeCustomTags Recorded.packages Recorded.math_container
  = Ok Recorded.math_container.
Proof.
  apply (guard_keeps_standard_markup Recorded.packages Recorded.math_container
           [OpenTagName "div" 0 4; CloseTag "div" 47 52]).
  - reflexivity.
  - cbn [Props.standard_in_order]. repeat split; try reflexivity; vm_compute; discriminate.
Defined.

(* ===================================================================== *)
(** * The blank replacement on paragraphs *)
(* ===================================================================== *)

Section BlankFacts.

Variable P : Packages.

(** X27.  A blank paragraph that holds inline formulas keeps its formula
    only when it holds exactly one formula and exactly one child element:
    then it is written as that formula between dollar signs.  With two
    formulas or more, or with another child element, it is written as a
    blank line (or as nothing when it is not a block): the formulas are
    dropped. *)
Theorem blankReplacement_paragraph
    (content : string) (attrs : list (string * string)) (children : list Node)
    (isBlock : bool) :
  let el := Element "P" attrs children in
  (forall span,
     Dom.querySelectorAll el "inline-math" = [span] ->
     List.length (Dom.element_children el) = 1%nat ->
     Serializer.blankReplacement P content el isBlock
     = "$" +:+ Serializer.decoded_latex P span +:+ "$")
  /\ (List.length (Dom.querySelectorAll el "inline-math") <> 1%nat
      \/ List.length (Dom.element_children el) <> 1%nat ->
      Serializer.blankReplacement P content el isBlock = Props.blank_fallback isBlock).
Proof.
  intros el. unfold Serializer.blankReplacement, Dom.querySelector.
  change (Dom.name_of el) with "P".
  change (String.eqb "P" "DIV") with false. change (String.eqb "P" "SPAN") with false.
  change (String.eqb "P" "P") with true. cbn [andb].
  fold (Props.blank_fallback isBlock). split.
  - intros span Hall Hone. rewrite Hall. cbn [head].
    rewrite bool_decide_eq_true_2 by (eexists; reflexivity).
    rewrite Hone. reflexivity.
  - intros H. destruct (Dom.querySelectorAll el "inline-math") as [|s1 [|s2 l]] eqn:Hall;
      cbn [head].
    + rewrite bool_decide_eq_false_2 by (intros [x Hx]; discriminate). reflexivity.
    + rewrite bool_decide_eq_true_2 by (eexists; reflexivity).
      destruct H as [H|H]; [cbn in H; lia |].
      destruct (Nat.eqb_spec (List.length (Dom.element_children el)) 1); [lia | reflexivity].
    + rewrite bool_decide_eq_true_2 by (eexists; reflexivity). reflexivity.
Qed.

End BlankFacts.

(** A paragraph with the two formulas [a] and [b]. *)
Lemma blankReplacement_paragraph_witness :
  Serializer.blankReplacement Recorded.packages EmptyString
    (Element "P" [] [Props.math_span "a"; Props.math_span "b"]) true
  = Tables.lf +:+ Tables.lf.
Proof.
  apply (proj2 (blankReplacement_paragraph Recorded.packages EmptyString []
                  [Props.math_span "a"; Props.math_span "b"] true)).
  left. cbn. lia.
Defined.

(* ===================================================================== *)
(** * The reach of the task-list rule *)
(* ===================================================================== *)

Section TaskListScope.

Import TaskList.
#[local] Open Scope list_scope.
#[local] Open Scope nat_scope.

Lemma has_task_items_app_close (a : list Token) (c : Token) (rest : list Token) :
  type c = "bullet_list_close" ->
  has_task_items (a ++ c :: rest) = has_task_items (a ++ [c]).
Proof.
  intros Hc. induction a as [|t a IH]; cbn [app has_task_items].
  - rewrite Hc. reflexivity.
  - rewrite IH. reflexivity.
Qed.

Lemma mark_parent_app_l (i : nat) (v : string) (l rest : list Token) :
  i <= length l -> mark_parent i v (l ++ rest) = mark_parent i v l ++ rest.
Proof.
  induction i as [|i IH]; intros Hle; [reflexivity |].
  cbn [mark_parent]. rewrite lookup_app_l by lia.
  destruct (l !! i) as [t|]; [|apply IH; lia].
  destruct (String.eqb (type t) "list_item_open"); [|apply IH; lia].
  apply insert_app_l. lia.
Qed.

(** A step inside a part of the stream that ends with a list closing
    does not look at what follows that part. *)
Lemma step_app lbl (i : nat) (a : list Token) (c : Token) (rest : list Token) (b : bool) :
  i < length (a ++ [c]) ->
  type c = "bullet_list_close" ->
  step lbl i ((a ++ [c]) ++ rest, b)
  = (fst (step lbl i (a ++ [c], b)) ++ rest, snd (step lbl i (a ++ [c], b))).
Proof.
  intros Hi Hc. unfold step. rewrite lookup_app_l by exact Hi.
  destruct ((a ++ [c]) !! i) as [t|] eqn:Ht; [|reflexivity].
  destruct (String.eqb (type t) "bullet_list_open") eqn:Eo.
  - assert (Hia : i < length a).
    { destruct (Nat.lt_ge_cases i (length a)) as [|Hge]; [assumption |].
      rewrite length_app in Hi. cbn [length] in Hi.
      assert (i = length a) by lia. subst i.
      rewrite lookup_app_r, Nat.sub_diag in Ht by lia. cbn in Ht. inversion Ht; subst t.
      rewrite Hc in Eo. discriminate. }
    assert (Hdrop : has_task_items (drop (S i) ((a ++ [c]) ++ rest))
                    = has_task_items (drop (S i) (a ++ [c]))).
    { rewrite <- app_assoc. cbn [app]. rewrite !drop_app_le by lia.
      apply has_task_items_app_close, Hc. }
    rewrite Hdrop. clear Hdrop.
    destruct (has_task_items (drop (S i) (a ++ [c]))); cbn [fst snd]; [|reflexivity].
    rewrite insert_app_l by exact Hi. reflexivity.
  - destruct (String.eqb (type t) "bullet_list_close" && b); [reflexivity |].
    destruct (String.eqb (type t) "list_item_open" && b).
    { cbn [fst snd]. rewrite insert_app_l by exact Hi. reflexivity. }
    destruct (String.eqb (type t) "inline" && b); [|reflexivity].
    destruct (task_match (content t)) as [[check r]|]; [|reflexivity].
    cbn [fst snd]. rewrite mark_parent_app_l by lia.
    rewrite insert_app_l by (rewrite mark_parent_length; exact Hi). reflexivity.
Qed.

(** A list that ends with a token is that token after the others. *)
Lemma split_last (l : list Token) (c : Token) :
  l !! (length l - 1) = Some c -> exists a, l = a ++ [c].
Proof.
  intros H. assert (0 < length l) by (apply lookup_lt_Some in H; lia).
  exists (take (length l - 1) l).
  rewrite <- (take_S_r l (length l - 1) c H).
  replace (S (length l - 1)) with (length l) by lia. symmetry. apply firstn_all.
Qed.

Lemma run_app lbl (rest : list Token) (n : nat) :
  forall from (l : list Token) (b : bool) (c : Token),
  from + n <= length l ->
  l !! (length l - 1) = Some c ->
  type c = "bullet_list_close" ->
  run_from lbl from n (l ++ rest, b)
  = (fst (run_from lbl from n (l, b)) ++ rest, snd (run_from lbl from n (l, b))).
Proof.
  induction n as [|n IH]; intros from l b c Hle Hlast Hc; [reflexivity |].
  rewrite !run_from_S.
  destruct (split_last l c Hlast) as [a ->].
  rewrite (step_app lbl from a c rest b) by (try lia; exact Hc).
  destruct (step_frame lbl from (a ++ [c]) b (length (a ++ [c]) - 1) c Hlast)
    as (c' & Hc' & Hframe).
  pose proof (step_length lbl from (a ++ [c], b)) as Hlen. cbn [fst] in Hlen.
  destruct (step lbl from (a ++ [c], b)) as [l1 b1] eqn:E. cbn [fst snd] in *.
  apply (IH (S from) l1 b1 c').
  - lia.
  - rewrite Hlen. exact Hc'.
  - destruct Hframe as [Hty _]. rewrite Hty. exact Hc.
Qed.

Lemma step_close lbl (i : nat) (toks : list Token) (t : Token) (b : bool) :
  toks !! i = Some t -> type t = "bullet_list_close" ->
  step lbl i (toks, b) = (toks, false).
Proof.
  intros Hi Ht. unfold step. rewrite Hi, Ht.
  change (String.eqb "bullet_list_close" "bullet_list_open") with false.
  change (String.eqb "bullet_list_close" "bullet_list_close") with true.
  change (String.eqb "bullet_list_close" "list_item_open") with false.
  change (String.eqb "bullet_list_close" "inline") with false.
  destruct b; reflexivity.
Qed.

Lemma run_outside lbl (n : nat) :
  forall from (toks : list Token),
  (forall j t, from <= j -> toks !! j = Some t -> type t <> "bullet_list_open") ->
  run_from lbl from n (toks, false) = (toks, false).
Proof.
  induction n as [|n IH]; intros from toks Hno; [reflexivity |].
  rewrite run_from_S.
  assert (Hstep : step lbl from (toks, false) = (toks, false)).
  { unfold step. destruct (toks !! from) as [t|] eqn:Ht; [|reflexivity].
    destruct (String.eqb_spec (type t) "bullet_list_open") as [Hty|_].
    - exfalso. exact (Hno from t (Nat.le_refl _) Ht Hty).
    - rewrite !andb_false_r. reflexivity. }
  rewrite Hstep. apply IH. intros j t Hj. apply Hno. lia.
Qed.

Lemma step_off lbl (i : nat) (toks : list Token) :
  (forall t, toks !! i = Some t -> type t <> "bullet_list_open") ->
  step lbl i (toks, false) = (toks, false).
Proof.
  intros Hno. unfold step. destruct (toks !! i) as [t|] eqn:Ht; [|reflexivity].
  destruct (String.eqb_spec (type t) "bullet_list_open") as [Hty|_].
  - exfalso. exact (Hno t eq_refl Hty).
  - rewrite !andb_false_r. reflexivity.
Qed.

Lemma lookup_after (before : list Token) (close : Token) (after rest : list Token) (k : nat) :
  k < length after ->
  (before ++ close :: after ++ rest) !! (length before + 1 + k) = after !! k.
Proof.
  intros Hk. rewrite lookup_app_r by lia.
  replace (length before + 1 + k - length before) with (S k) by lia.
  change ((close :: after ++ rest) !! S k) with ((after ++ rest) !! k).
  apply lookup_app_l. exact Hk.
Qed.

(** After a list closing the flag of the loop is off, and it stays off
    as long as no list opens. *)
Lemma flag_off_after_close
    (o : TaskListOptions) (before : list Token) (close : Token) (after rest : list Token) :
  type close = "bullet_list_close" ->
  Forall (fun t => type t <> "bullet_list_open") after ->
  forall k, k <= length after ->
  Spec.inside_before o (before ++ close :: after ++ rest) (length before + 1 + k) = false.
Proof.
  intros Hc Hafter. set (tokens := before ++ close :: after ++ rest).
  induction k as [|k IH]; intros Hk.
  - rewrite Nat.add_0_r. replace (length before + 1) with (S (length before)) by lia.
    rewrite inside_before_S.
    destruct (state_before o tokens (length before)) as (toks & -> & Hlook & _).
    assert (H0 : toks !! length before = Some close).
    { rewrite Hlook. unfold tokens. rewrite lookup_app_r by lia.
      rewrite Nat.sub_diag. reflexivity. }
    rewrite (step_close _ _ _ _ _ H0 Hc). reflexivity.
  - replace (length before + 1 + S k) with (S (length before + 1 + k)) by lia.
    rewrite inside_before_S.
    destruct (state_before o tokens (length before + 1 + k)) as (toks & -> & Hlook & _).
    rewrite (IH ltac:(lia)). rewrite step_off; [reflexivity |].
    intros t Ht. rewrite Hlook in Ht. unfold tokens in Ht.
    rewrite lookup_after in Ht by lia.
    rewrite Forall_lookup in Hafter. exact (Hafter _ _ Ht).
Qed.

Lemma scope_untouched
    (o : TaskListOptions) (before : list Token) (close : Token) (after rest : list Token)
    (k : nat) (t : Token) :
  type close = "bullet_list_close" ->
  Forall (fun t => type t <> "bullet_list_open") after ->
  after !! k = Some t ->
  exists t',
    task_list o (before ++ close :: after ++ rest) !! (length before + 1 + k) = Some t'
    /\ Spec.later_touch t t'.
Proof.
  intros Hc Hafter Hk. set (tokens := before ++ close :: after ++ rest).
  assert (Hlt : k < length after) by (apply lookup_lt_Some in Hk; exact Hk).
  assert (Htok : tokens !! (length before + 1 + k) = Some t).
  { unfold tokens. rewrite lookup_after by lia. exact Hk. }
  apply token_after_own_step.
  destruct (state_before o tokens (length before + 1 + k)) as (toks & -> & Hlook & _).
  unfold tokens at 1.
  rewrite (flag_off_after_close o before close after rest Hc Hafter k ltac:(lia)).
  fold tokens. rewrite step_off.
  - cbn [fst]. rewrite Hlook. exact Htok.
  - intros t0 Ht0. rewrite Hlook, Htok in Ht0. inversion Ht0; subst t0.
    rewrite Forall_lookup in Hafter. exact (Hafter _ _ Hk).
Qed.

Lemma scope_closed
    (o : TaskListOptions) (before : list Token) (close : Token) (after : list Token) :
  type close = "bullet_list_close" ->
  Forall (fun t => type t <> "bullet_list_open") after ->
  task_list o (before ++ close :: after) = task_list o (before ++ [close]) ++ after.
Proof.
  intros Hc Hafter. unfold task_list.
  replace (before ++ close :: after) with ((before ++ [close]) ++ after)
    by (rewrite <- app_assoc; reflexivity).
  set (l := before ++ [close]).
  assert (Hlast : l !! (length l - 1) = Some close).
  { unfold l. rewrite length_app. cbn [length].
    rewrite lookup_app_r by lia. replace (_ - _) with 0 by lia. reflexivity. }
  rewrite length_app, run_from_add, Nat.add_0_l.
  rewrite (run_app (label_of o) after (length l) 0 l false close) by (try lia; assumption).
  assert (Hoff : snd (run_from (label_of o) 0 (length l) (l, false)) = false).
  { unfold l at 1. rewrite length_app. cbn [length]. rewrite run_from_add, Nat.add_0_l.
    destruct (run_from (label_of o) 0 (length before) (l, false)) as [l0 b0] eqn:E.
    assert (H0 : l0 !! length before = Some close).
    { change l0 with (fst (l0, b0)). rewrite <- E, run_from_lookup_ge by lia.
      unfold l. cbn [fst]. rewrite lookup_app_r by lia.
      rewrite Nat.sub_diag. reflexivity. }
    change (run_from (label_of o) (length before) 1 (l0, b0))
      with (step (label_of o) (length before) (l0, b0)).
    rewrite (step_close _ _ _ _ _ H0 Hc). reflexivity. }
  pose proof (run_from_length (label_of o) (length l) 0 (l, false)) as Hlen.
  destruct (run_from (label_of o) 0 (length l) (l, false)) as [l1 b1].
  cbn [fst snd] in *. subst b1.
  rewrite run_outside; [reflexivity |].
  intros j t Hj Ht. rewrite lookup_app_r in Ht by lia.
  rewrite Forall_lookup in Hafter. exact (Hafter _ _ Ht).
Qed.

(** X28.  The rule stops marking at the first list closing it meets.
    Let [after] be tokens that follow a [bullet_list_close] and hold no
    [bullet_list_open].  Whatever comes after them ([rest], which may
    open other lists), each of them leaves the rule with its type and
    with all its attributes but [data-checked], and unchanged unless it
    is an item-open token: none is marked as a task item, and no inline
    token gets a checkbox.  When nothing comes after them, they leave the
    rule as they entered it and the rule works on the part before as if
    the stream ended at the closing.  So the items of a task list that
    come after a nested list are not marked. *)
Theorem task_list_scope_ends
    (o : TaskListOptions) (before : list Token) (close : Token) (after : list Token) :
  type close = "bullet_list_close" ->
  Forall (fun t => type t <> "bullet_list_open") after ->
  (forall (rest : list Token) (k : nat) (t : Token),
      after !! k = Some t ->
      exists t',
        task_list o (before ++ close :: after ++ rest) !! (length before + 1 + k) = Some t'
        /\ Spec.later_touch t t')
  /\ task_list o (before ++ close :: after) = task_list o (before ++ [close]) ++ after.
Proof.
  intros Hc Hafter. split.
  - intros rest k t Hk. exact (scope_untouched o before close after rest k t Hc Hafter Hk).
  - exact (scope_closed o before close after Hc Hafter).
Qed.

End TaskListScope.

(** The item [[x] c] after the nested list of [Examples.nested_list]. *)
Lemma task_list_scope_ends_witness :
  TaskList.md_task_list Examples.nested_list
  = (TaskList.md_task_list
       ([Stream.block_token "bullet_list_open" "ul" 1;
         Stream.block_token "list_item_open" "li" 1;
         Stream.block_token "paragraph_open" "p" 1;
         Stream.inline_token "[x] a";
         Stream.block_token "paragraph_close" "p" (-1);
         Stream.block_token "bullet_list_open" "ul" 1]
        ++ Stream.item "b"
        ++ [Stream.block_token "bullet_list_close" "ul" (-1)])
     ++ [Stream.block_token "list_item_close" "li" (-1)]
     ++ Stream.item "[x] c"
     ++ [Stream.block_token "bullet_list_close" "ul" (-1)])%list.
Proof.
  apply (task_list_scope_ends TaskList.md_options
           ([Stream.block_token "bullet_list_open" "ul" 1;
             Stream.block_token "list_item_open" "li" 1;
             Stream.block_token "paragraph_open" "p" 1;
             Stream.inline_token "[x] a";
             Stream.block_token "paragraph_close" "p" (-1);
             Stream.block_token "bullet_list_open" "ul" 1]
            ++ Stream.item "b")%list
           (Stream.block_token "bullet_list_close" "ul" (-1))
           ([Stream.block_token "list_item_close" "li" (-1)]
            ++ Stream.item "[x] c"
            ++ [Stream.block_token "bullet_list_close" "ul" (-1)])%list).
  - reflexivity.
  - repeat constructor; discriminate.
Defined.

(* ===================================================================== *)
(** * The math rules on whole documents *)
(* ===================================================================== *)

Section MathDocuments.

Import Katex.

(** Where the body and the dollar sign after it hold no delimiter, the
    first delimiter of the body followed by the delimiter is the one
    after the body. *)
Lemma find_closing (body : string) :
  Js.contains (body +:+ "$") "$$" = false ->
  Js.find "$$" (body +:+ "$$") = Some (String.length body).
Proof.
  unfold Js.contains. induction body as [|c body IH]; intros H; [reflexivity |].
  rewrite append_cons in *. cbn [Js.find] in H.
  destruct (Js.startsWith "$$" (String c (body +:+ "$"))) eqn:Es; [discriminate |].
  destruct (Js.find "$$" (body +:+ "$")) eqn:Ef; [discriminate |].
  assert (Es' : Js.startsWith "$$" (String c (body +:+ "$$")) = false).
  { change "$$" with (String "$"%char "$") in *. cbn [Js.startsWith] in *.
    destruct (Ascii.eqb "$"%char c); [|reflexivity]. cbn [andb] in *.
    destruct body as [|d body]; [discriminate Es |].
    rewrite append_cons in *. change "$" with (String "$"%char EmptyString) in Es.
    cbn [Js.startsWith] in *. destruct (Ascii.eqb "$"%char d); [discriminate Es | reflexivity]. }
  cbn [Js.find]. rewrite Es', IH by reflexivity. reflexivity.
Qed.

Lemma len_cons (c : ascii) (s : string) : Js.len (String c s) = 1 + Js.len s.
Proof. unfold Js.len. cbn [String.length]. lia. Qed.

(** X29.  A document made of the one line [$$ body $$], where the body
    followed by a dollar sign holds no [$$], is taken whole by the block
    rule: one [math_block] token for the line 0, with the trimmed body as
    content, and the next line to read is line 1. *)
Theorem math_block_one_line (body : string) :
  Js.contains (body +:+ "$") "$$" = false ->
  math_block (Props.one_line_state ("$$" +:+ body +:+ "$$")) 0 1 false
  = Some (true,
          set_line
            (push (Props.one_line_state ("$$" +:+ body +:+ "$$"))
               (Props.math_block_token 0 0 (Js.trim body)))
            1).
Proof.
  intros Hbody. pose proof (len_nonneg body) as Hlen.
  assert (Hsrc : Js.len ("$$" +:+ body +:+ "$$") = Js.len body + 4).
  { rewrite !len_append. change (Js.len "$$") with 2. lia. }
  set (doc := "$$" +:+ body +:+ "$$") in *.
  assert (Hb : mark (bMarks (Props.one_line_state doc)) 0 = Some 0) by reflexivity.
  assert (Ht : mark (tShift (Props.one_line_state doc)) 0 = Some 0) by reflexivity.
  assert (He : mark (eMarks (Props.one_line_state doc)) 0 = Some (Js.len doc))
    by reflexivity.
  unfold math_block. rewrite Hb, Ht, He. cbn [mbind option_bind].
  change (src (Props.one_line_state doc)) with doc.
  assert (Hc0 : Js.charCodeAt doc 0 = Some 36).
  { unfold Js.charCodeAt. rewrite Hsrc.
    destruct (Z.leb_spec (Js.len body + 4) 0) as [Hle|_]; [lia | reflexivity]. }
  assert (Hc1 : Js.charCodeAt doc (0 + 0 + 1) = Some 36).
  { unfold Js.charCodeAt. rewrite Hsrc.
    destruct (Z.leb_spec (Js.len body + 4) (0 + 0 + 1)) as [Hle|_]; [lia | reflexivity]. }
  change (0 + 0) with 0 at 2. rewrite Hc0, Hc1, Hsrc. cbn [is_dollar].
  change (36 =? 36) with true. cbn [negb orb].
  destruct (Z.gtb_spec (0 + 0 + 2) (Js.len body + 4)) as [Hgt|_]; [lia |].
  assert (Hclose : Js.indexOf_from doc "$$" (0 + 0 + 2) = Js.len body + 2).
  { unfold Js.indexOf_from. rewrite Hsrc.
    replace (Z.to_nat (Z.max 0 (Z.min (0 + 0 + 2) (Js.len body + 4)))) with 2%nat by lia.
    change (Js.drop 2 doc) with (body +:+ "$$").
    rewrite (find_closing body Hbody). unfold Js.len. lia. }
  rewrite Hclose.
  destruct (Z.eqb_spec (Js.len body + 2) (-1)) as [Heq|_]; [lia |].
  destruct (Z.leb_spec (Js.len body + 2) (Js.len body + 4 - 2)) as [_|Hlt]; [|lia].
  cbn [negb andb mbind option_bind].
  unfold doc at 1. rewrite (slice_app3 "$$" body "$$") by (change (Js.len "$$") with 2; lia).
  reflexivity.
Qed.

Lemma find_char_first (c : ascii) (body after : string) :
  Contract.has_char c body = false ->
  Js.find (String c EmptyString) (body +:+ String c after) = Some (String.length body).
Proof.
  induction body as [|d body IH]; intros H.
  - rewrite append_nil. cbn [Js.find Js.startsWith]. rewrite Ascii.eqb_refl. reflexivity.
  - cbn [Contract.has_char] in H. apply orb_false_iff in H. destruct H as [Hd Hb].
    rewrite append_cons. cbn [Js.find Js.startsWith]. rewrite Hd. cbn [andb].
    rewrite (IH Hb). reflexivity.
Qed.

Lemma has_char_find_none (c : ascii) (s : string) :
  Contract.has_char c s = false -> Js.find (String c EmptyString) s = None.
Proof.
  induction s as [|d s IH]; [reflexivity |]. cbn [Contract.has_char]. intros H.
  apply orb_false_iff in H. destruct H as [Hd Hs].
  cbn [Js.find Js.startsWith]. rewrite Hd, (IH Hs). reflexivity.
Qed.

Lemma get_app (before : string) (c : ascii) (rest : string) :
  String.get (String.length before) (before +:+ String c rest) = Some c.
Proof. induction before as [|d before IH]; [reflexivity | exact IH]. Qed.

(** X30.  At the dollar sign of [before $ body $ after], where the body
    holds no dollar sign and no newline, the inline rule accepts: it
    pushes one [math_inline] token with the trimmed body as content and
    moves just after the closing dollar sign. *)
Theorem math_inline_span (before body after : string) (toks : list Token) :
  Contract.has_char "$"%char body = false ->
  Contract.has_char "010"%char body = false ->
  math_inline (Props.inline_state before body after toks) false
  = (true,
     {| isrc := before +:+ "$" +:+ body +:+ "$" +:+ after;
        pos := Js.len before + Js.len body + 2;
        posMax := Js.len (before +:+ "$" +:+ body +:+ "$" +:+ after);
        itokens := (toks ++ [Props.math_inline_token (Js.trim body)])%list |}).
Proof.
  intros Hd Hn. pose proof (len_nonneg before) as Hb. pose proof (len_nonneg body) as Hy.
  pose proof (len_nonneg after) as Ha.
  set (doc := before +:+ "$" +:+ body +:+ "$" +:+ after).
  assert (Hdoc : Js.len doc = Js.len before + Js.len body + Js.len after + 2).
  { unfold doc. rewrite !len_append. change (Js.len "$") with 1. lia. }
  unfold math_inline, Props.inline_state. fold doc. cbn [pos posMax isrc itokens].
  destruct (Z.geb_spec (Js.len before) (Js.len doc)) as [Hge|_]; [lia |].
  assert (Hcode : Js.charCodeAt doc (Js.len before) = Some 36).
  { unfold Js.charCodeAt.
    destruct (Z.ltb_spec (Js.len before) 0) as [Hlt|_]; [lia |].
    destruct (Z.leb_spec (Js.len doc) (Js.len before)) as [Hle|_]; [lia |].
    cbn [orb]. unfold Js.len at 1. rewrite Nat2Z.id. unfold doc.
    change ("$" +:+ body +:+ "$" +:+ after) with (String "$"%char (body +:+ "$" +:+ after)).
    rewrite get_app. reflexivity. }
  rewrite Hcode. cbn [is_dollar]. change (36 =? 36) with true. cbn [negb orb].
  assert (Hclose : Js.indexOf_from doc "$" (Js.len before + 1)
                   = Js.len before + Js.len body + 1).
  { unfold Js.indexOf_from.
    replace (Z.to_nat (Z.max 0 (Z.min (Js.len before + 1) (Js.len doc))))
      with (String.length (before +:+ "$"))
      by (rewrite length_append; cbn [String.length]; unfold Js.len in *; lia).
    unfold doc. rewrite <- append_assoc, drop_app.
    change ("$" +:+ after) with (String "$"%char after).
    rewrite (find_char_first "$"%char body after Hd).
    rewrite length_append. cbn [String.length]. unfold Js.len. lia. }
  rewrite Hclose.
  destruct (Z.eqb_spec (Js.len before + Js.len body + 1) (-1)) as [Heq|_]; [lia |].
  destruct (Z.gtb_spec (Js.len before + Js.len body + 1) (Js.len doc)) as [Hgt|_]; [lia |].
  cbn [orb].
  assert (Hslice : Js.slice doc (Js.len before + 1) (Js.len before + Js.len body + 1) = body).
  { unfold doc. rewrite <- append_assoc.
    apply slice_app3; rewrite len_append; change (Js.len "$") with 1; lia. }
  rewrite Hslice, indexOf_contains. unfold Js.contains.
  rewrite (has_char_find_none _ _ Hn). cbn [negb]. cbn iota.
  replace (Js.len before + Js.len body + 1 + 1) with (Js.len before + Js.len body + 2) by lia.
  reflexivity.
Qed.

End MathDocuments.

(** The document [$$ a+b $$] on one line. *)
Lemma math_block_one_line_witness :
  Katex.math_block (Props.one_line_state ("$$" +:+ " a+b " +:+ "$$")) 0 1 false
  = Some (true,
          Katex.set_line
            (Katex.push (Props.one_line_state ("$$" +:+ " a+b " +:+ "$$"))
               (Props.math_block_token 0 0 (Js.trim " a+b ")))
            1).
Proof. apply (math_block_one_line " a+b "). reflexivity. Defined.

(** The text [x $ a+b $ y]. *)
Lemma math_inline_span_witness :
  Katex.math_inline (Props.inline_state "x " " a+b " " y" []) false
  = (true,
     {| Katex.isrc := "x " +:+ "$" +:+ " a+b " +:+ "$" +:+ " y";
        Katex.pos := Js.len "x " + Js.len " a+b " + 2;
        Katex.posMax := Js.len ("x " +:+ "$" +:+ " a+b " +:+ "$" +:+ " y");
        Katex.itokens := ([] ++ [Props.math_inline_token (Js.trim " a+b ")])%list |}).
Proof. apply (math_inline_span "x " " a+b " " y" []); reflexivity. Defined.
